(** * NormalmapGenerator: the main window (mainwindow.cpp)

    A shallow embedding of the slots of [MainWindow]: image loading, the
    four map computations, saving, the batch queue and the auto-update of
    the preview.  The window is a record of widgets and stored images; a
    slot is a computation in a small state-and-exception monad.  The
    generator library (normalmapgenerator.h, specularmapgenerator.h,
    ssaogenerator.h, intensitymap.h, boxblur.h) and the parts of Qt that
    touch the outside world are an interface, [Engine]. *)

From Stdlib Require Import ZArith List Lia Bool Ascii String DecimalString.
From Stdlib Require Import Floats.SpecFloat.
Import ListNotations.

Local Open Scope string_scope.
Local Open Scope Z_scope.

Infix "+++" := String.append (right associativity, at level 60) : string_scope.

(** ** C++ scalars *)

Module Cpp.

(** [double] is IEEE 754 binary64 with round-to-nearest-even, [float]
    binary32; both are carried by [spec_float]. *)
Definition double := spec_float.
Definition float := spec_float.

Definition dprec := 53.
Definition demax := 1024.

(** (double)z for an int z: exact below 2^53. *)
Definition double_of_int (z : Z) : double := binary_normalize dprec demax z 0 false.

Definition dmul : double -> double -> double := SFmul dprec demax.
Definition dadd : double -> double -> double := SFadd dprec demax.
Definition ddiv : double -> double -> double := SFdiv dprec demax.
Definition dneg : double -> double := SFopp.
Definition dlt : double -> double -> bool := SFltb.

(** (int)d: the fractional part is discarded (truncation toward zero).
    The conversion is undefined in C++ when the truncated value does not
    fit an int or d is not finite; no call site below reaches that case
    for the inputs the theorems consider, and the model returns the
    unbounded integer (0 for a non-finite d). *)
Definition int_of_double (d : double) : Z :=
  match d with
  | S754_finite s m e =>
      let mag := if 0 <=? e then Zpos m * 2 ^ e else Zpos m / 2 ^ (- e) in
      if s then - mag else mag
  | _ => 0
  end.

(** A decimal literal n/10^k denotes the double nearest to it. *)
Definition literal (n : Z) (pow10 : Z) : double :=
  ddiv (double_of_int n) (double_of_int pow10).

Definition d0_0 : double := S754_zero false.
Definition d100_0 : double := double_of_int 100.
Definition d1000_0 : double := double_of_int 1000.
Definition d0_037 : double := literal 37 1000.
Definition d1_2 : double := literal 12 10.
Definition d0_8 : double := literal 8 10.

(** (float)d: rounding to binary32. *)
Definition float_of_double (d : double) : float :=
  match d with
  | S754_finite s m e => binary_round 24 128 s m e
  | other => other
  end.

(** The conversion of a qint64 to int keeps the low 32 bits. *)
Definition int_of_qint64 (z : Z) : Z := (z + 2 ^ 31) mod 2 ^ 32 - 2 ^ 31.

(** (unsigned int)z for an int z. *)
Definition unsigned_of_int (z : Z) : Z := z mod 2 ^ 32.

(** std::cout << z and QString::number(z) for an int z. *)
Definition show_int (z : Z) : string := NilZero.string_of_int (Z.to_int z).

End Cpp.
Import Cpp.

(** ** QString, QFileInfo and QUrl *)

Module QString.

Definition lower_ascii (c : ascii) : ascii :=
  let n := nat_of_ascii c in
  if ((65 <=? n) && (n <=? 90))%nat then ascii_of_nat (n + 32) else c.

(** QString::toLower, on the ASCII range. *)
Fixpoint toLower (s : string) : string :=
  match s with
  | EmptyString => EmptyString
  | String c t => String (lower_ascii c) (toLower t)
  end.

(** QString::contains(needle): needle occurs somewhere in hay. *)
Fixpoint contains (hay needle : string) : bool :=
  String.prefix needle hay ||
  match hay with
  | EmptyString => false
  | String _ t => contains t needle
  end.

Definition isEmpty (s : string) : bool := (s =? EmptyString)%string.

(** The text after the last occurrence of [c]; [None] when [c] does not
    occur. *)
Fixpoint afterLast (c : ascii) (s : string) : option string :=
  match s with
  | EmptyString => None
  | String a t =>
      match afterLast c t with
      | Some r => Some r
      | None => if Ascii.eqb a c then Some t else None
      end
  end.

(** The text before the first occurrence of [c]; all of [s] when [c] does
    not occur. *)
Fixpoint beforeFirst (c : ascii) (s : string) : string :=
  match s with
  | EmptyString => EmptyString
  | String a t => if Ascii.eqb a c then EmptyString else String a (beforeFirst c t)
  end.

(** The text up to and including the last occurrence of [c]; empty when
    [c] does not occur. *)
Fixpoint throughLast (c : ascii) (s : string) : string :=
  match s with
  | EmptyString => EmptyString
  | String a t =>
      match afterLast c t with
      | Some _ => String a (throughLast c t)
      | None => if Ascii.eqb a c then String a EmptyString else EmptyString
      end
  end.

End QString.

Module QFileInfo.

(** QFileInfo::fileName: the path without its directories. *)
Definition fileName (path : string) : string :=
  match QString.afterLast "/" path with
  | Some r => r
  | None => path
  end.

(** QFileInfo::suffix: the characters of the file name after its last
    dot; empty when it has no dot. *)
Definition suffix (path : string) : string :=
  match QString.afterLast "." (fileName path) with
  | Some r => r
  | None => EmptyString
  end.

(** QFileInfo::baseName: the characters of the file name before its first
    dot. *)
Definition baseName (path : string) : string :=
  QString.beforeFirst "." (fileName path).

End QFileInfo.

Module QUrl.

Record t := mk { scheme : string; path : string; wellFormed : bool }.

(** QUrl(): the empty URL. *)
Definition empty : t := mk EmptyString EmptyString true.

Definition isEmpty (u : t) : bool :=
  QString.isEmpty (scheme u) && QString.isEmpty (path u).

(** QUrl::isValid: non-empty and free of parse errors. *)
Definition isValid (u : t) : bool := wellFormed u && negb (isEmpty u).

Definition fileName (u : t) : string := QFileInfo.fileName (path u).

(** QUrl::toLocalFile: the path of a file URL, empty for any other. *)
Definition toLocalFile (u : t) : string :=
  if (scheme u =? "file")%string then path u else EmptyString.

(** QUrl::fromLocalFile: an empty path gives the empty URL. *)
Definition fromLocalFile (p : string) : t :=
  if QString.isEmpty p then empty else mk "file" p true.

(** QUrl::adjusted(QUrl::RemoveFilename): everything after the last slash
    of the path is dropped, the slash stays. *)
Definition adjusted_RemoveFilename (u : t) : t :=
  mk (scheme u) (QString.throughLast "/" (path u)) (wellFormed u).

End QUrl.

(** ** QImage and the widgets *)

(** A QImage is null (no pixel data, width and height 0) or holds a
    positive number of columns and rows of 32-bit pixels. *)
Inductive QImage :=
| NullImage
| Image (w h : positive) (px : list Z).

Definition isNull (i : QImage) : bool :=
  match i with NullImage => true | Image _ _ _ => false end.

Definition width (i : QImage) : Z :=
  match i with NullImage => 0 | Image w _ _ => Zpos w end.

Definition height (i : QImage) : Z :=
  match i with NullImage => 0 | Image _ h _ => Zpos h end.

(** QSpinBox: setValue keeps the value inside [minimum, maximum]. *)
Module QSpinBox.
Record t := mk { minimum : Z; maximum : Z; value : Z }.
Definition setValue (v : Z) (b : t) : t :=
  mk (minimum b) (maximum b) (Z.max (minimum b) (Z.min (maximum b) v)).
End QSpinBox.

Inductive Mode := AVERAGE | MAX.
Inductive Kernel := SOBEL | PREWITT.
Inductive AspectRatioMode := IgnoreAspectRatio | KeepAspectRatio.
Inductive TransformationMode := FastTransformation | SmoothTransformation.

Record QueueItem := mkQueueItem {
  getUrl : QUrl.t;
  text : string
}.

(** ** The widgets of ui_mainwindow.h that the slots read or write *)

Record NormalTab := mkNormalTab {
  doubleSpinBox_strength : double;
  checkBox_invertHeight : bool;
  checkBox_tileable : bool;
  comboBox_mode_normal : Z;
  checkBox_useRed_normal : bool;
  checkBox_useGreen_normal : bool;
  checkBox_useBlue_normal : bool;
  checkBox_useAlpha_normal : bool;
  comboBox_method : Z;
  checkBox_keepLargeDetail : bool;
  spinBox_largeDetailScale : QSpinBox.t;
  doubleSpinBox_largeDetailHeight : double;
  spinBox_normalmapSize : Z
}.

Record SpecTab := mkSpecTab {
  comboBox_mode_spec : Z;
  doubleSpinBox_spec_redMul : double;
  doubleSpinBox_spec_greenMul : double;
  doubleSpinBox_spec_blueMul : double;
  doubleSpinBox_spec_alphaMul : double;
  doubleSpinBox_spec_scale : double;
  doubleSpinBox_spec_contrast : double
}.

Record DisplaceTab := mkDisplaceTab {
  comboBox_mode_displace : Z;
  doubleSpinBox_displace_redMul : double;
  doubleSpinBox_displace_greenMul : double;
  doubleSpinBox_displace_blueMul : double;
  doubleSpinBox_displace_scale : double;
  doubleSpinBox_displace_contrast : double;
  checkBox_displace_blur : bool;
  spinBox_displace_blurRadius : Z;
  checkBox_displace_blur_tileable : bool
}.

Record SsaoTab := mkSsaoTab {
  doubleSpinBox_ssao_size : double;
  spinBox_ssao_samples : Z;
  spinBox_ssao_noiseTexSize : Z
}.

Record QueueTab := mkQueueTab {
  checkBox_queue_generateNormal : bool;
  checkBox_queue_generateSpec : bool;
  checkBox_queue_generateDisplace : bool;
  listWidget_queue : list QueueItem;
  progressBar_Queue : Z
}.

(** Status bar, tab bar, the channel display and the auto-update row. *)
Record Frame := mkFrame {
  statusBar : string;
  tabWidget : Z;
  checkBox_displayChannelIntensity : bool;
  radioButton_displayRed : bool;
  radioButton_displayGreen : bool;
  radioButton_displayBlue : bool;
  checkBox_autoUpdate : bool;
  doubleSpinBox_autoUpdateThreshold : double;
  label_autoUpdate_lastCalcTime : string;
  label_autoUpdate_lastCalcTime_styleSheet : string;
  label_normalmapSize : string
}.

(** isEnabled() of the widgets that the slots enable or disable. *)
Record Enabled := mkEnabled {
  pushButton_calcNormal_enabled : bool;
  pushButton_calcSpec_enabled : bool;
  pushButton_calcDisplace_enabled : bool;
  pushButton_calcSsao_enabled : bool;
  checkBox_displayChannelIntensity_enabled : bool;
  spinBox_normalmapSize_enabled : bool;
  checkBox_autoUpdate_enabled : bool;
  label_autoUpdate_lastCalcTime_enabled : bool;
  label_autoUpdate_text_enabled : bool;
  doubleSpinBox_autoUpdateThreshold_enabled : bool;
  pushButton_save_enabled : bool;
  pushButton_stopProcessingQueue_enabled : bool;
  pushButton_openExportFolder_enabled : bool
}.

Inductive Transform :=
| Untouched
| Identity
| FitKeepAspectRatio (w h : Z)
| Scaled (sx sy : double) (t : Transform).

(** graphicsView: its widget size, the pixmaps of its scene and how the
    scene is mapped to the widget. *)
Record GraphicsView := mkGraphicsView {
  viewWidth : Z;
  viewHeight : Z;
  scene : list QImage;
  sceneRect : Z * Z;
  transform : Transform
}.

Record Ui := mkUi {
  normalTab : NormalTab;
  specTab : SpecTab;
  displaceTab : DisplaceTab;
  ssaoTab : SsaoTab;
  queueTab : QueueTab;
  frame : Frame;
  enabled : Enabled;
  graphicsView : GraphicsView
}.

(** What the user can do to a parameter widget of the four map tabs: type
    a value into a spin box, pick an entry of a combo box, or click a check
    box.  The ranges and step widths of the boxes are in the .ui file; a
    value is taken as one that the box accepts. *)
Inductive ParameterEdit :=
| Edit_doubleSpinBox_strength (v : double)
| Click_checkBox_invertHeight
| Click_checkBox_tileable
| Select_comboBox_mode_normal (index : Z)
| Click_checkBox_useRed_normal
| Click_checkBox_useGreen_normal
| Click_checkBox_useBlue_normal
| Click_checkBox_useAlpha_normal
| Select_comboBox_method (index : Z)
| Click_checkBox_keepLargeDetail
| Edit_spinBox_largeDetailScale (v : Z)
| Edit_doubleSpinBox_largeDetailHeight (v : double)
| Edit_spinBox_normalmapSize (v : Z)
| Select_comboBox_mode_spec (index : Z)
| Edit_doubleSpinBox_spec_redMul (v : double)
| Edit_doubleSpinBox_spec_greenMul (v : double)
| Edit_doubleSpinBox_spec_blueMul (v : double)
| Edit_doubleSpinBox_spec_alphaMul (v : double)
| Edit_doubleSpinBox_spec_scale (v : double)
| Edit_doubleSpinBox_spec_contrast (v : double)
| Select_comboBox_mode_displace (index : Z)
| Edit_doubleSpinBox_displace_redMul (v : double)
| Edit_doubleSpinBox_displace_greenMul (v : double)
| Edit_doubleSpinBox_displace_blueMul (v : double)
| Edit_doubleSpinBox_displace_scale (v : double)
| Edit_doubleSpinBox_displace_contrast (v : double)
| Click_checkBox_displace_blur
| Edit_spinBox_displace_blurRadius (v : Z)
| Click_checkBox_displace_blur_tileable
| Edit_doubleSpinBox_ssao_size (v : double)
| Edit_spinBox_ssao_samples (v : Z)
| Edit_spinBox_ssao_noiseTexSize (v : Z).

Inductive Channel := Red | Green | Blue | Alpha.

(** What the user can do to the window, one action for each group of
    connections of connectSignalSlots (lines 790-866) and for each widget
    that the slots read without being connected to it.  An action that
    opens a file dialog carries what the dialog returns.  The click on the
    remove button carries the positions of the queue items that are
    selected when it is handled: line 443 and the user's clicks on the list
    select items, and the selection itself is not kept in this model.  The
    about dialog, the export folder in the file manager, the advanced check
    box and the export folder radio buttons touch nothing that the slots
    below read or write and are left out. *)
Inductive UiEvent :=
| Click_load (chosen : list QUrl.t)
| Click_save (chosen : QUrl.t)
| Click_zoomIn
| Click_zoomOut
| Click_resetZoom
| Click_fitInView
| Click_calcNormal
| Click_calcSpec
| Click_calcDisplace
| Click_calcSsao
| Click_tabBar (index : Z)
| Click_checkBox_displayChannelIntensity
| Click_radioButton_display (channel : Channel)
| Change_parameter (p : ParameterEdit)
| Toggle_autoUpdate (on : bool)
| Edit_autoUpdateThreshold (v : double)
| Drop_singleImage (url : QUrl.t)
| Drop_multipleImages (urls : list QUrl.t)
| Click_removeImagesFromQueue (selected : list nat)
| Click_processQueue
| Click_stopProcessingQueue
| Click_changeOutputPath_Queue (chosen : QUrl.t)
| DoubleClick_queueItem (i : nat)
| Toggle_queue_generateNormal (on : bool)
| Toggle_queue_generateSpec (on : bool)
| Toggle_queue_generateDisplace (on : bool).

(** The outside world: the image files this process wrote, the message
    boxes it showed, what it printed on std::cout, the readings that the
    next QElapsedTimer::elapsed() calls return, and the user's input that
    arrives at each coming processEvents() call. *)
Record World := mkWorld {
  disk : list (string * QImage);
  dialogs : list (string * string);
  console : list string;
  timerReadings : list Z;
  pendingEvents : list (list UiEvent)
}.

(** The members of MainWindow. *)
Record MainWindow := mkMainWindow {
  ui : Ui;
  input : QImage;
  channelIntensity : QImage;
  normalmap : QImage;
  normalmapRawIntensity : QImage;
  specmap : QImage;
  displacementmap : QImage;
  ssaomap : QImage;
  exportPath : QUrl.t;
  loadedImagePath : QUrl.t;
  lastCalctime_normal : Z;
  lastCalctime_specular : Z;
  lastCalctime_displace : Z;
  lastCalctime_ssao : Z;
  stopQueue : bool;
  world : World
}.

(** ** The generator library and the file-system side of Qt *)

Class Engine := {
  IntensityMap : Type;
  (** QImage(path): the decoded file, null when it cannot be read.  The
      first argument is what this process has written so far. *)
  QImage_fromFile : list (string * QImage) -> string -> QImage;
  (** QImage::save(name): whether the file could be written. *)
  QImage_save : list (string * QImage) -> QImage -> string -> bool;
  QImage_scaled : QImage -> Z -> Z -> AspectRatioMode -> TransformationMode -> QImage;
  QFileInfo_absolutePath : string -> string;
  (** QString::number(double). *)
  QString_number : double -> string;
  (** IntensityMap(image, mode, useRed, useGreen, useBlue, useAlpha). *)
  IntensityMap_channels : QImage -> Mode -> bool -> bool -> bool -> bool -> IntensityMap;
  (** IntensityMap(image, mode), the channel arguments left to the
      defaults of intensitymap.h. *)
  IntensityMap_default : QImage -> Mode -> IntensityMap;
  convertToQImage : IntensityMap -> QImage;
  (** NormalmapGenerator(mode, r, g, b, a).calculateNormalmap(...),
      together with the generator's getIntensityMap() afterwards. *)
  calculateNormalmap :
    Mode -> bool -> bool -> bool -> bool ->
    QImage -> Kernel -> double -> bool -> bool -> bool -> Z -> double ->
    QImage * IntensityMap;
  (** SpecularmapGenerator(mode, r, g, b, a).calculateSpecmap(input, scale,
      contrast). *)
  calculateSpecmap :
    Mode -> double -> double -> double -> double ->
    QImage -> double -> double -> QImage;
  (** BoxBlur().calculate(map, radius, tileable). *)
  BoxBlur_calculate : IntensityMap -> Z -> bool -> IntensityMap;
  (** SsaoGenerator().calculateSsaomap(normalmap, depthmap, size, samples,
      noiseTexSize). *)
  calculateSsaomap : QImage -> QImage -> float -> Z -> Z -> QImage
}.

(** ** Field updates *)

Definition set_checkBox_keepLargeDetail (v : bool) (n : NormalTab) : NormalTab :=
  {| doubleSpinBox_strength := doubleSpinBox_strength n;
     checkBox_invertHeight := checkBox_invertHeight n;
     checkBox_tileable := checkBox_tileable n;
     comboBox_mode_normal := comboBox_mode_normal n;
     checkBox_useRed_normal := checkBox_useRed_normal n;
     checkBox_useGreen_normal := checkBox_useGreen_normal n;
     checkBox_useBlue_normal := checkBox_useBlue_normal n;
     checkBox_useAlpha_normal := checkBox_useAlpha_normal n;
     comboBox_method := comboBox_method n; checkBox_keepLargeDetail := v;
     spinBox_largeDetailScale := spinBox_largeDetailScale n;
     doubleSpinBox_largeDetailHeight := doubleSpinBox_largeDetailHeight n;
     spinBox_normalmapSize := spinBox_normalmapSize n |}.

Definition set_spinBox_largeDetailScale (v : QSpinBox.t) (n : NormalTab) : NormalTab :=
  {| doubleSpinBox_strength := doubleSpinBox_strength n;
     checkBox_invertHeight := checkBox_invertHeight n;
     checkBox_tileable := checkBox_tileable n;
     comboBox_mode_normal := comboBox_mode_normal n;
     checkBox_useRed_normal := checkBox_useRed_normal n;
     checkBox_useGreen_normal := checkBox_useGreen_normal n;
     checkBox_useBlue_normal := checkBox_useBlue_normal n;
     checkBox_useAlpha_normal := checkBox_useAlpha_normal n;
     comboBox_method := comboBox_method n;
     checkBox_keepLargeDetail := checkBox_keepLargeDetail n;
     spinBox_largeDetailScale := v;
     doubleSpinBox_largeDetailHeight := doubleSpinBox_largeDetailHeight n;
     spinBox_normalmapSize := spinBox_normalmapSize n |}.

Definition set_checkBox_queue_generateNormal (v : bool) (q : QueueTab) : QueueTab :=
  {| checkBox_queue_generateNormal := v;
     checkBox_queue_generateSpec := checkBox_queue_generateSpec q;
     checkBox_queue_generateDisplace := checkBox_queue_generateDisplace q;
     listWidget_queue := listWidget_queue q;
     progressBar_Queue := progressBar_Queue q |}.

Definition set_checkBox_queue_generateSpec (v : bool) (q : QueueTab) : QueueTab :=
  {| checkBox_queue_generateNormal := checkBox_queue_generateNormal q;
     checkBox_queue_generateSpec := v;
     checkBox_queue_generateDisplace := checkBox_queue_generateDisplace q;
     listWidget_queue := listWidget_queue q;
     progressBar_Queue := progressBar_Queue q |}.

Definition set_checkBox_queue_generateDisplace (v : bool) (q : QueueTab) : QueueTab :=
  {| checkBox_queue_generateNormal := checkBox_queue_generateNormal q;
     checkBox_queue_generateSpec := checkBox_queue_generateSpec q;
     checkBox_queue_generateDisplace := v;
     listWidget_queue := listWidget_queue q;
     progressBar_Queue := progressBar_Queue q |}.

Definition set_listWidget_queue (v : list QueueItem) (q : QueueTab) : QueueTab :=
  {| checkBox_queue_generateNormal := checkBox_queue_generateNormal q;
     checkBox_queue_generateSpec := checkBox_queue_generateSpec q;
     checkBox_queue_generateDisplace := checkBox_queue_generateDisplace q;
     listWidget_queue := v; progressBar_Queue := progressBar_Queue q |}.

Definition set_progressBar_Queue (v : Z) (q : QueueTab) : QueueTab :=
  {| checkBox_queue_generateNormal := checkBox_queue_generateNormal q;
     checkBox_queue_generateSpec := checkBox_queue_generateSpec q;
     checkBox_queue_generateDisplace := checkBox_queue_generateDisplace q;
     listWidget_queue := listWidget_queue q; progressBar_Queue := v |}.

Definition set_statusBar (v : string) (f : Frame) : Frame :=
  {| statusBar := v; tabWidget := tabWidget f;
     checkBox_displayChannelIntensity := checkBox_displayChannelIntensity f;
     radioButton_displayRed := radioButton_displayRed f;
     radioButton_displayGreen := radioButton_displayGreen f;
     radioButton_displayBlue := radioButton_displayBlue f;
     checkBox_autoUpdate := checkBox_autoUpdate f;
     doubleSpinBox_autoUpdateThreshold := doubleSpinBox_autoUpdateThreshold f;
     label_autoUpdate_lastCalcTime := label_autoUpdate_lastCalcTime f;
     label_autoUpdate_lastCalcTime_styleSheet := label_autoUpdate_lastCalcTime_styleSheet f;
     label_normalmapSize := label_normalmapSize f |}.

Definition set_tabWidget (v : Z) (f : Frame) : Frame :=
  {| statusBar := statusBar f; tabWidget := v;
     checkBox_displayChannelIntensity := checkBox_displayChannelIntensity f;
     radioButton_displayRed := radioButton_displayRed f;
     radioButton_displayGreen := radioButton_displayGreen f;
     radioButton_displayBlue := radioButton_displayBlue f;
     checkBox_autoUpdate := checkBox_autoUpdate f;
     doubleSpinBox_autoUpdateThreshold := doubleSpinBox_autoUpdateThreshold f;
     label_autoUpdate_lastCalcTime := label_autoUpdate_lastCalcTime f;
     label_autoUpdate_lastCalcTime_styleSheet := label_autoUpdate_lastCalcTime_styleSheet f;
     label_normalmapSize := label_normalmapSize f |}.

Definition set_label_autoUpdate_lastCalcTime (v : string) (f : Frame) : Frame :=
  {| statusBar := statusBar f; tabWidget := tabWidget f;
     checkBox_displayChannelIntensity := checkBox_displayChannelIntensity f;
     radioButton_displayRed := radioButton_displayRed f;
     radioButton_displayGreen := radioButton_displayGreen f;
     radioButton_displayBlue := radioButton_displayBlue f;
     checkBox_autoUpdate := checkBox_autoUpdate f;
     doubleSpinBox_autoUpdateThreshold := doubleSpinBox_autoUpdateThreshold f;
     label_autoUpdate_lastCalcTime := v;
     label_autoUpdate_lastCalcTime_styleSheet := label_autoUpdate_lastCalcTime_styleSheet f;
     label_normalmapSize := label_normalmapSize f |}.

Definition set_label_autoUpdate_lastCalcTime_styleSheet (v : string) (f : Frame) : Frame :=
  {| statusBar := statusBar f; tabWidget := tabWidget f;
     checkBox_displayChannelIntensity := checkBox_displayChannelIntensity f;
     radioButton_displayRed := radioButton_displayRed f;
     radioButton_displayGreen := radioButton_displayGreen f;
     radioButton_displayBlue := radioButton_displayBlue f;
     checkBox_autoUpdate := checkBox_autoUpdate f;
     doubleSpinBox_autoUpdateThreshold := doubleSpinBox_autoUpdateThreshold f;
     label_autoUpdate_lastCalcTime := label_autoUpdate_lastCalcTime f;
     label_autoUpdate_lastCalcTime_styleSheet := v;
     label_normalmapSize := label_normalmapSize f |}.

Definition set_label_normalmapSize (v : string) (f : Frame) : Frame :=
  {| statusBar := statusBar f; tabWidget := tabWidget f;
     checkBox_displayChannelIntensity := checkBox_displayChannelIntensity f;
     radioButton_displayRed := radioButton_displayRed f;
     radioButton_displayGreen := radioButton_displayGreen f;
     radioButton_displayBlue := radioButton_displayBlue f;
     checkBox_autoUpdate := checkBox_autoUpdate f;
     doubleSpinBox_autoUpdateThreshold := doubleSpinBox_autoUpdateThreshold f;
     label_autoUpdate_lastCalcTime := label_autoUpdate_lastCalcTime f;
     label_autoUpdate_lastCalcTime_styleSheet := label_autoUpdate_lastCalcTime_styleSheet f;
     label_normalmapSize := v |}.

Definition set_pushButton_save_enabled (v : bool) (e : Enabled) : Enabled :=
  {| pushButton_calcNormal_enabled := pushButton_calcNormal_enabled e;
     pushButton_calcSpec_enabled := pushButton_calcSpec_enabled e;
     pushButton_calcDisplace_enabled := pushButton_calcDisplace_enabled e;
     pushButton_calcSsao_enabled := pushButton_calcSsao_enabled e;
     checkBox_displayChannelIntensity_enabled := checkBox_displayChannelIntensity_enabled e;
     spinBox_normalmapSize_enabled := spinBox_normalmapSize_enabled e;
     checkBox_autoUpdate_enabled := checkBox_autoUpdate_enabled e;
     label_autoUpdate_lastCalcTime_enabled := label_autoUpdate_lastCalcTime_enabled e;
     label_autoUpdate_text_enabled := label_autoUpdate_text_enabled e;
     doubleSpinBox_autoUpdateThreshold_enabled := doubleSpinBox_autoUpdateThreshold_enabled e;
     pushButton_save_enabled := v;
     pushButton_stopProcessingQueue_enabled := pushButton_stopProcessingQueue_enabled e;
     pushButton_openExportFolder_enabled := pushButton_openExportFolder_enabled e |}.

Definition set_pushButton_stopProcessingQueue_enabled (v : bool) (e : Enabled) : Enabled :=
  {| pushButton_calcNormal_enabled := pushButton_calcNormal_enabled e;
     pushButton_calcSpec_enabled := pushButton_calcSpec_enabled e;
     pushButton_calcDisplace_enabled := pushButton_calcDisplace_enabled e;
     pushButton_calcSsao_enabled := pushButton_calcSsao_enabled e;
     checkBox_displayChannelIntensity_enabled := checkBox_displayChannelIntensity_enabled e;
     spinBox_normalmapSize_enabled := spinBox_normalmapSize_enabled e;
     checkBox_autoUpdate_enabled := checkBox_autoUpdate_enabled e;
     label_autoUpdate_lastCalcTime_enabled := label_autoUpdate_lastCalcTime_enabled e;
     label_autoUpdate_text_enabled := label_autoUpdate_text_enabled e;
     doubleSpinBox_autoUpdateThreshold_enabled := doubleSpinBox_autoUpdateThreshold_enabled e;
     pushButton_save_enabled := pushButton_save_enabled e;
     pushButton_stopProcessingQueue_enabled := v;
     pushButton_openExportFolder_enabled := pushButton_openExportFolder_enabled e |}.

Definition set_pushButton_openExportFolder_enabled (v : bool) (e : Enabled) : Enabled :=
  {| pushButton_calcNormal_enabled := pushButton_calcNormal_enabled e;
     pushButton_calcSpec_enabled := pushButton_calcSpec_enabled e;
     pushButton_calcDisplace_enabled := pushButton_calcDisplace_enabled e;
     pushButton_calcSsao_enabled := pushButton_calcSsao_enabled e;
     checkBox_displayChannelIntensity_enabled := checkBox_displayChannelIntensity_enabled e;
     spinBox_normalmapSize_enabled := spinBox_normalmapSize_enabled e;
     checkBox_autoUpdate_enabled := checkBox_autoUpdate_enabled e;
     label_autoUpdate_lastCalcTime_enabled := label_autoUpdate_lastCalcTime_enabled e;
     label_autoUpdate_text_enabled := label_autoUpdate_text_enabled e;
     doubleSpinBox_autoUpdateThreshold_enabled := doubleSpinBox_autoUpdateThreshold_enabled e;
     pushButton_save_enabled := pushButton_save_enabled e;
     pushButton_stopProcessingQueue_enabled := pushButton_stopProcessingQueue_enabled e;
     pushButton_openExportFolder_enabled := v |}.

Definition set_scene (v : list QImage) (g : GraphicsView) : GraphicsView :=
  {| viewWidth := viewWidth g; viewHeight := viewHeight g; scene := v;
     sceneRect := sceneRect g; transform := transform g |}.

Definition set_sceneRect (v : Z * Z) (g : GraphicsView) : GraphicsView :=
  {| viewWidth := viewWidth g; viewHeight := viewHeight g; scene := scene g;
     sceneRect := v; transform := transform g |}.

Definition set_transform (v : Transform) (g : GraphicsView) : GraphicsView :=
  {| viewWidth := viewWidth g; viewHeight := viewHeight g; scene := scene g;
     sceneRect := sceneRect g; transform := v |}.

Definition set_normalTab (v : NormalTab) (u : Ui) : Ui :=
  {| normalTab := v; specTab := specTab u; displaceTab := displaceTab u;
     ssaoTab := ssaoTab u; queueTab := queueTab u; frame := frame u;
     enabled := enabled u; graphicsView := graphicsView u |}.

Definition set_queueTab (v : QueueTab) (u : Ui) : Ui :=
  {| normalTab := normalTab u; specTab := specTab u;
     displaceTab := displaceTab u; ssaoTab := ssaoTab u; queueTab := v;
     frame := frame u; enabled := enabled u;
     graphicsView := graphicsView u |}.

Definition set_frame (v : Frame) (u : Ui) : Ui :=
  {| normalTab := normalTab u; specTab := specTab u;
     displaceTab := displaceTab u; ssaoTab := ssaoTab u;
     queueTab := queueTab u; frame := v; enabled := enabled u;
     graphicsView := graphicsView u |}.

Definition set_enabled (v : Enabled) (u : Ui) : Ui :=
  {| normalTab := normalTab u; specTab := specTab u;
     displaceTab := displaceTab u; ssaoTab := ssaoTab u;
     queueTab := queueTab u; frame := frame u; enabled := v;
     graphicsView := graphicsView u |}.

Definition set_graphicsView (v : GraphicsView) (u : Ui) : Ui :=
  {| normalTab := normalTab u; specTab := specTab u;
     displaceTab := displaceTab u; ssaoTab := ssaoTab u;
     queueTab := queueTab u; frame := frame u; enabled := enabled u;
     graphicsView := v |}.

Definition set_disk (v : list (string * QImage)) (o : World) : World :=
  {| disk := v; dialogs := dialogs o; console := console o;
     timerReadings := timerReadings o; pendingEvents := pendingEvents o |}.

Definition set_dialogs (v : list (string * string)) (o : World) : World :=
  {| disk := disk o; dialogs := v; console := console o;
     timerReadings := timerReadings o; pendingEvents := pendingEvents o |}.

Definition set_console (v : list string) (o : World) : World :=
  {| disk := disk o; dialogs := dialogs o; console := v;
     timerReadings := timerReadings o; pendingEvents := pendingEvents o |}.

Definition set_timerReadings (v : list Z) (o : World) : World :=
  {| disk := disk o; dialogs := dialogs o; console := console o;
     timerReadings := v; pendingEvents := pendingEvents o |}.

Definition set_pendingEvents (v : list (list UiEvent)) (o : World) : World :=
  {| disk := disk o; dialogs := dialogs o; console := console o;
     timerReadings := timerReadings o; pendingEvents := v |}.

Definition set_ui (v : Ui) (w : MainWindow) : MainWindow :=
  {| ui := v; input := input w; channelIntensity := channelIntensity w;
     normalmap := normalmap w;
     normalmapRawIntensity := normalmapRawIntensity w; specmap := specmap w;
     displacementmap := displacementmap w; ssaomap := ssaomap w;
     exportPath := exportPath w; loadedImagePath := loadedImagePath w;
     lastCalctime_normal := lastCalctime_normal w;
     lastCalctime_specular := lastCalctime_specular w;
     lastCalctime_displace := lastCalctime_displace w;
     lastCalctime_ssao := lastCalctime_ssao w; stopQueue := stopQueue w;
     world := world w |}.

Definition set_input (v : QImage) (w : MainWindow) : MainWindow :=
  {| ui := ui w; input := v; channelIntensity := channelIntensity w;
     normalmap := normalmap w;
     normalmapRawIntensity := normalmapRawIntensity w; specmap := specmap w;
     displacementmap := displacementmap w; ssaomap := ssaomap w;
     exportPath := exportPath w; loadedImagePath := loadedImagePath w;
     lastCalctime_normal := lastCalctime_normal w;
     lastCalctime_specular := lastCalctime_specular w;
     lastCalctime_displace := lastCalctime_displace w;
     lastCalctime_ssao := lastCalctime_ssao w; stopQueue := stopQueue w;
     world := world w |}.

Definition set_channelIntensity (v : QImage) (w : MainWindow) : MainWindow :=
  {| ui := ui w; input := input w; channelIntensity := v;
     normalmap := normalmap w;
     normalmapRawIntensity := normalmapRawIntensity w; specmap := specmap w;
     displacementmap := displacementmap w; ssaomap := ssaomap w;
     exportPath := exportPath w; loadedImagePath := loadedImagePath w;
     lastCalctime_normal := lastCalctime_normal w;
     lastCalctime_specular := lastCalctime_specular w;
     lastCalctime_displace := lastCalctime_displace w;
     lastCalctime_ssao := lastCalctime_ssao w; stopQueue := stopQueue w;
     world := world w |}.

Definition set_normalmap (v : QImage) (w : MainWindow) : MainWindow :=
  {| ui := ui w; input := input w; channelIntensity := channelIntensity w;
     normalmap := v; normalmapRawIntensity := normalmapRawIntensity w;
     specmap := specmap w; displacementmap := displacementmap w;
     ssaomap := ssaomap w; exportPath := exportPath w;
     loadedImagePath := loadedImagePath w;
     lastCalctime_normal := lastCalctime_normal w;
     lastCalctime_specular := lastCalctime_specular w;
     lastCalctime_displace := lastCalctime_displace w;
     lastCalctime_ssao := lastCalctime_ssao w; stopQueue := stopQueue w;
     world := world w |}.

Definition set_normalmapRawIntensity (v : QImage) (w : MainWindow) : MainWindow :=
  {| ui := ui w; input := input w; channelIntensity := channelIntensity w;
     normalmap := normalmap w; normalmapRawIntensity := v;
     specmap := specmap w; displacementmap := displacementmap w;
     ssaomap := ssaomap w; exportPath := exportPath w;
     loadedImagePath := loadedImagePath w;
     lastCalctime_normal := lastCalctime_normal w;
     lastCalctime_specular := lastCalctime_specular w;
     lastCalctime_displace := lastCalctime_displace w;
     lastCalctime_ssao := lastCalctime_ssao w; stopQueue := stopQueue w;
     world := world w |}.

Definition set_specmap (v : QImage) (w : MainWindow) : MainWindow :=
  {| ui := ui w; input := input w; channelIntensity := channelIntensity w;
     normalmap := normalmap w;
     normalmapRawIntensity := normalmapRawIntensity w; specmap := v;
     displacementmap := displacementmap w; ssaomap := ssaomap w;
     exportPath := exportPath w; loadedImagePath := loadedImagePath w;
     lastCalctime_normal := lastCalctime_normal w;
     lastCalctime_specular := lastCalctime_specular w;
     lastCalctime_displace := lastCalctime_displace w;
     lastCalctime_ssao := lastCalctime_ssao w; stopQueue := stopQueue w;
     world := world w |}.

Definition set_displacementmap (v : QImage) (w : MainWindow) : MainWindow :=
  {| ui := ui w; input := input w; channelIntensity := channelIntensity w;
     normalmap := normalmap w;
     normalmapRawIntensity := normalmapRawIntensity w; specmap := specmap w;
     displacementmap := v; ssaomap := ssaomap w; exportPath := exportPath w;
     loadedImagePath := loadedImagePath w;
     lastCalctime_normal := lastCalctime_normal w;
     lastCalctime_specular := lastCalctime_specular w;
     lastCalctime_displace := lastCalctime_displace w;
     lastCalctime_ssao := lastCalctime_ssao w; stopQueue := stopQueue w;
     world := world w |}.

Definition set_ssaomap (v : QImage) (w : MainWindow) : MainWindow :=
  {| ui := ui w; input := input w; channelIntensity := channelIntensity w;
     normalmap := normalmap w;
     normalmapRawIntensity := normalmapRawIntensity w; specmap := specmap w;
     displacementmap := displacementmap w; ssaomap := v;
     exportPath := exportPath w; loadedImagePath := loadedImagePath w;
     lastCalctime_normal := lastCalctime_normal w;
     lastCalctime_specular := lastCalctime_specular w;
     lastCalctime_displace := lastCalctime_displace w;
     lastCalctime_ssao := lastCalctime_ssao w; stopQueue := stopQueue w;
     world := world w |}.

Definition set_exportPath (v : QUrl.t) (w : MainWindow) : MainWindow :=
  {| ui := ui w; input := input w; channelIntensity := channelIntensity w;
     normalmap := normalmap w;
     normalmapRawIntensity := normalmapRawIntensity w; specmap := specmap w;
     displacementmap := displacementmap w; ssaomap := ssaomap w;
     exportPath := v; loadedImagePath := loadedImagePath w;
     lastCalctime_normal := lastCalctime_normal w;
     lastCalctime_specular := lastCalctime_specular w;
     lastCalctime_displace := lastCalctime_displace w;
     lastCalctime_ssao := lastCalctime_ssao w; stopQueue := stopQueue w;
     world := world w |}.

Definition set_loadedImagePath (v : QUrl.t) (w : MainWindow) : MainWindow :=
  {| ui := ui w; input := input w; channelIntensity := channelIntensity w;
     normalmap := normalmap w;
     normalmapRawIntensity := normalmapRawIntensity w; specmap := specmap w;
     displacementmap := displacementmap w; ssaomap := ssaomap w;
     exportPath := exportPath w; loadedImagePath := v;
     lastCalctime_normal := lastCalctime_normal w;
     lastCalctime_specular := lastCalctime_specular w;
     lastCalctime_displace := lastCalctime_displace w;
     lastCalctime_ssao := lastCalctime_ssao w; stopQueue := stopQueue w;
     world := world w |}.

Definition set_lastCalctime_normal (v : Z) (w : MainWindow) : MainWindow :=
  {| ui := ui w; input := input w; channelIntensity := channelIntensity w;
     normalmap := normalmap w;
     normalmapRawIntensity := normalmapRawIntensity w; specmap := specmap w;
     displacementmap := displacementmap w; ssaomap := ssaomap w;
     exportPath := exportPath w; loadedImagePath := loadedImagePath w;
     lastCalctime_normal := v;
     lastCalctime_specular := lastCalctime_specular w;
     lastCalctime_displace := lastCalctime_displace w;
     lastCalctime_ssao := lastCalctime_ssao w; stopQueue := stopQueue w;
     world := world w |}.

Definition set_lastCalctime_specular (v : Z) (w : MainWindow) : MainWindow :=
  {| ui := ui w; input := input w; channelIntensity := channelIntensity w;
     normalmap := normalmap w;
     normalmapRawIntensity := normalmapRawIntensity w; specmap := specmap w;
     displacementmap := displacementmap w; ssaomap := ssaomap w;
     exportPath := exportPath w; loadedImagePath := loadedImagePath w;
     lastCalctime_normal := lastCalctime_normal w; lastCalctime_specular := v;
     lastCalctime_displace := lastCalctime_displace w;
     lastCalctime_ssao := lastCalctime_ssao w; stopQueue := stopQueue w;
     world := world w |}.

Definition set_lastCalctime_displace (v : Z) (w : MainWindow) : MainWindow :=
  {| ui := ui w; input := input w; channelIntensity := channelIntensity w;
     normalmap := normalmap w;
     normalmapRawIntensity := normalmapRawIntensity w; specmap := specmap w;
     displacementmap := displacementmap w; ssaomap := ssaomap w;
     exportPath := exportPath w; loadedImagePath := loadedImagePath w;
     lastCalctime_normal := lastCalctime_normal w;
     lastCalctime_specular := lastCalctime_specular w;
     lastCalctime_displace := v; lastCalctime_ssao := lastCalctime_ssao w;
     stopQueue := stopQueue w; world := world w |}.

Definition set_lastCalctime_ssao (v : Z) (w : MainWindow) : MainWindow :=
  {| ui := ui w; input := input w; channelIntensity := channelIntensity w;
     normalmap := normalmap w;
     normalmapRawIntensity := normalmapRawIntensity w; specmap := specmap w;
     displacementmap := displacementmap w; ssaomap := ssaomap w;
     exportPath := exportPath w; loadedImagePath := loadedImagePath w;
     lastCalctime_normal := lastCalctime_normal w;
     lastCalctime_specular := lastCalctime_specular w;
     lastCalctime_displace := lastCalctime_displace w; lastCalctime_ssao := v;
     stopQueue := stopQueue w; world := world w |}.

Definition set_stopQueue (v : bool) (w : MainWindow) : MainWindow :=
  {| ui := ui w; input := input w; channelIntensity := channelIntensity w;
     normalmap := normalmap w;
     normalmapRawIntensity := normalmapRawIntensity w; specmap := specmap w;
     displacementmap := displacementmap w; ssaomap := ssaomap w;
     exportPath := exportPath w; loadedImagePath := loadedImagePath w;
     lastCalctime_normal := lastCalctime_normal w;
     lastCalctime_specular := lastCalctime_specular w;
     lastCalctime_displace := lastCalctime_displace w;
     lastCalctime_ssao := lastCalctime_ssao w; stopQueue := v;
     world := world w |}.

Definition set_world (v : World) (w : MainWindow) : MainWindow :=
  {| ui := ui w; input := input w; channelIntensity := channelIntensity w;
     normalmap := normalmap w;
     normalmapRawIntensity := normalmapRawIntensity w; specmap := specmap w;
     displacementmap := displacementmap w; ssaomap := ssaomap w;
     exportPath := exportPath w; loadedImagePath := loadedImagePath w;
     lastCalctime_normal := lastCalctime_normal w;
     lastCalctime_specular := lastCalctime_specular w;
     lastCalctime_displace := lastCalctime_displace w;
     lastCalctime_ssao := lastCalctime_ssao w; stopQueue := stopQueue w;
     world := v |}.

Definition set_doubleSpinBox_spec_scale (v : double) (t : SpecTab) : SpecTab :=
  {| comboBox_mode_spec := comboBox_mode_spec t;
     doubleSpinBox_spec_redMul := doubleSpinBox_spec_redMul t;
     doubleSpinBox_spec_greenMul := doubleSpinBox_spec_greenMul t;
     doubleSpinBox_spec_blueMul := doubleSpinBox_spec_blueMul t;
     doubleSpinBox_spec_alphaMul := doubleSpinBox_spec_alphaMul t;
     doubleSpinBox_spec_scale := v;
     doubleSpinBox_spec_contrast := doubleSpinBox_spec_contrast t |}.

Definition set_specTab (v : SpecTab) (u : Ui) : Ui :=
  {| normalTab := normalTab u; specTab := v; displaceTab := displaceTab u;
     ssaoTab := ssaoTab u; queueTab := queueTab u; frame := frame u;
     enabled := enabled u; graphicsView := graphicsView u |}.

(** Setters for the parameter widgets of the four map tabs. *)

Definition set_doubleSpinBox_strength (v : double) (t : NormalTab) : NormalTab :=
  {| doubleSpinBox_strength := v; checkBox_invertHeight := checkBox_invertHeight t;
     checkBox_tileable := checkBox_tileable t;
     comboBox_mode_normal := comboBox_mode_normal t;
     checkBox_useRed_normal := checkBox_useRed_normal t;
     checkBox_useGreen_normal := checkBox_useGreen_normal t;
     checkBox_useBlue_normal := checkBox_useBlue_normal t;
     checkBox_useAlpha_normal := checkBox_useAlpha_normal t;
     comboBox_method := comboBox_method t;
     checkBox_keepLargeDetail := checkBox_keepLargeDetail t;
     spinBox_largeDetailScale := spinBox_largeDetailScale t;
     doubleSpinBox_largeDetailHeight := doubleSpinBox_largeDetailHeight t;
     spinBox_normalmapSize := spinBox_normalmapSize t |}.

Definition set_checkBox_invertHeight (v : bool) (t : NormalTab) : NormalTab :=
  {| doubleSpinBox_strength := doubleSpinBox_strength t; checkBox_invertHeight := v;
     checkBox_tileable := checkBox_tileable t;
     comboBox_mode_normal := comboBox_mode_normal t;
     checkBox_useRed_normal := checkBox_useRed_normal t;
     checkBox_useGreen_normal := checkBox_useGreen_normal t;
     checkBox_useBlue_normal := checkBox_useBlue_normal t;
     checkBox_useAlpha_normal := checkBox_useAlpha_normal t;
     comboBox_method := comboBox_method t;
     checkBox_keepLargeDetail := checkBox_keepLargeDetail t;
     spinBox_largeDetailScale := spinBox_largeDetailScale t;
     doubleSpinBox_largeDetailHeight := doubleSpinBox_largeDetailHeight t;
     spinBox_normalmapSize := spinBox_normalmapSize t |}.

Definition set_checkBox_tileable (v : bool) (t : NormalTab) : NormalTab :=
  {| doubleSpinBox_strength := doubleSpinBox_strength t;
     checkBox_invertHeight := checkBox_invertHeight t; checkBox_tileable := v;
     comboBox_mode_normal := comboBox_mode_normal t;
     checkBox_useRed_normal := checkBox_useRed_normal t;
     checkBox_useGreen_normal := checkBox_useGreen_normal t;
     checkBox_useBlue_normal := checkBox_useBlue_normal t;
     checkBox_useAlpha_normal := checkBox_useAlpha_normal t;
     comboBox_method := comboBox_method t;
     checkBox_keepLargeDetail := checkBox_keepLargeDetail t;
     spinBox_largeDetailScale := spinBox_largeDetailScale t;
     doubleSpinBox_largeDetailHeight := doubleSpinBox_largeDetailHeight t;
     spinBox_normalmapSize := spinBox_normalmapSize t |}.

Definition set_comboBox_mode_normal (v : Z) (t : NormalTab) : NormalTab :=
  {| doubleSpinBox_strength := doubleSpinBox_strength t;
     checkBox_invertHeight := checkBox_invertHeight t;
     checkBox_tileable := checkBox_tileable t; comboBox_mode_normal := v;
     checkBox_useRed_normal := checkBox_useRed_normal t;
     checkBox_useGreen_normal := checkBox_useGreen_normal t;
     checkBox_useBlue_normal := checkBox_useBlue_normal t;
     checkBox_useAlpha_normal := checkBox_useAlpha_normal t;
     comboBox_method := comboBox_method t;
     checkBox_keepLargeDetail := checkBox_keepLargeDetail t;
     spinBox_largeDetailScale := spinBox_largeDetailScale t;
     doubleSpinBox_largeDetailHeight := doubleSpinBox_largeDetailHeight t;
     spinBox_normalmapSize := spinBox_normalmapSize t |}.

Definition set_checkBox_useRed_normal (v : bool) (t : NormalTab) : NormalTab :=
  {| doubleSpinBox_strength := doubleSpinBox_strength t;
     checkBox_invertHeight := checkBox_invertHeight t;
     checkBox_tileable := checkBox_tileable t;
     comboBox_mode_normal := comboBox_mode_normal t; checkBox_useRed_normal := v;
     checkBox_useGreen_normal := checkBox_useGreen_normal t;
     checkBox_useBlue_normal := checkBox_useBlue_normal t;
     checkBox_useAlpha_normal := checkBox_useAlpha_normal t;
     comboBox_method := comboBox_method t;
     checkBox_keepLargeDetail := checkBox_keepLargeDetail t;
     spinBox_largeDetailScale := spinBox_largeDetailScale t;
     doubleSpinBox_largeDetailHeight := doubleSpinBox_largeDetailHeight t;
     spinBox_normalmapSize := spinBox_normalmapSize t |}.

Definition set_checkBox_useGreen_normal (v : bool) (t : NormalTab) : NormalTab :=
  {| doubleSpinBox_strength := doubleSpinBox_strength t;
     checkBox_invertHeight := checkBox_invertHeight t;
     checkBox_tileable := checkBox_tileable t;
     comboBox_mode_normal := comboBox_mode_normal t;
     checkBox_useRed_normal := checkBox_useRed_normal t; checkBox_useGreen_normal := v;
     checkBox_useBlue_normal := checkBox_useBlue_normal t;
     checkBox_useAlpha_normal := checkBox_useAlpha_normal t;
     comboBox_method := comboBox_method t;
     checkBox_keepLargeDetail := checkBox_keepLargeDetail t;
     spinBox_largeDetailScale := spinBox_largeDetailScale t;
     doubleSpinBox_largeDetailHeight := doubleSpinBox_largeDetailHeight t;
     spinBox_normalmapSize := spinBox_normalmapSize t |}.

Definition set_checkBox_useBlue_normal (v : bool) (t : NormalTab) : NormalTab :=
  {| doubleSpinBox_strength := doubleSpinBox_strength t;
     checkBox_invertHeight := checkBox_invertHeight t;
     checkBox_tileable := checkBox_tileable t;
     comboBox_mode_normal := comboBox_mode_normal t;
     checkBox_useRed_normal := checkBox_useRed_normal t;
     checkBox_useGreen_normal := checkBox_useGreen_normal t;
     checkBox_useBlue_normal := v;
     checkBox_useAlpha_normal := checkBox_useAlpha_normal t;
     comboBox_method := comboBox_method t;
     checkBox_keepLargeDetail := checkBox_keepLargeDetail t;
     spinBox_largeDetailScale := spinBox_largeDetailScale t;
     doubleSpinBox_largeDetailHeight := doubleSpinBox_largeDetailHeight t;
     spinBox_normalmapSize := spinBox_normalmapSize t |}.

Definition set_checkBox_useAlpha_normal (v : bool) (t : NormalTab) : NormalTab :=
  {| doubleSpinBox_strength := doubleSpinBox_strength t;
     checkBox_invertHeight := checkBox_invertHeight t;
     checkBox_tileable := checkBox_tileable t;
     comboBox_mode_normal := comboBox_mode_normal t;
     checkBox_useRed_normal := checkBox_useRed_normal t;
     checkBox_useGreen_normal := checkBox_useGreen_normal t;
     checkBox_useBlue_normal := checkBox_useBlue_normal t;
     checkBox_useAlpha_normal := v; comboBox_method := comboBox_method t;
     checkBox_keepLargeDetail := checkBox_keepLargeDetail t;
     spinBox_largeDetailScale := spinBox_largeDetailScale t;
     doubleSpinBox_largeDetailHeight := doubleSpinBox_largeDetailHeight t;
     spinBox_normalmapSize := spinBox_normalmapSize t |}.

Definition set_comboBox_method (v : Z) (t : NormalTab) : NormalTab :=
  {| doubleSpinBox_strength := doubleSpinBox_strength t;
     checkBox_invertHeight := checkBox_invertHeight t;
     checkBox_tileable := checkBox_tileable t;
     comboBox_mode_normal := comboBox_mode_normal t;
     checkBox_useRed_normal := checkBox_useRed_normal t;
     checkBox_useGreen_normal := checkBox_useGreen_normal t;
     checkBox_useBlue_normal := checkBox_useBlue_normal t;
     checkBox_useAlpha_normal := checkBox_useAlpha_normal t; comboBox_method := v;
     checkBox_keepLargeDetail := checkBox_keepLargeDetail t;
     spinBox_largeDetailScale := spinBox_largeDetailScale t;
     doubleSpinBox_largeDetailHeight := doubleSpinBox_largeDetailHeight t;
     spinBox_normalmapSize := spinBox_normalmapSize t |}.

Definition set_doubleSpinBox_largeDetailHeight (v : double) (t : NormalTab) : NormalTab :=
  {| doubleSpinBox_strength := doubleSpinBox_strength t;
     checkBox_invertHeight := checkBox_invertHeight t;
     checkBox_tileable := checkBox_tileable t;
     comboBox_mode_normal := comboBox_mode_normal t;
     checkBox_useRed_normal := checkBox_useRed_normal t;
     checkBox_useGreen_normal := checkBox_useGreen_normal t;
     checkBox_useBlue_normal := checkBox_useBlue_normal t;
     checkBox_useAlpha_normal := checkBox_useAlpha_normal t;
     comboBox_method := comboBox_method t;
     checkBox_keepLargeDetail := checkBox_keepLargeDetail t;
     spinBox_largeDetailScale := spinBox_largeDetailScale t;
     doubleSpinBox_largeDetailHeight := v;
     spinBox_normalmapSize := spinBox_normalmapSize t |}.

Definition set_spinBox_normalmapSize (v : Z) (t : NormalTab) : NormalTab :=
  {| doubleSpinBox_strength := doubleSpinBox_strength t;
     checkBox_invertHeight := checkBox_invertHeight t;
     checkBox_tileable := checkBox_tileable t;
     comboBox_mode_normal := comboBox_mode_normal t;
     checkBox_useRed_normal := checkBox_useRed_normal t;
     checkBox_useGreen_normal := checkBox_useGreen_normal t;
     checkBox_useBlue_normal := checkBox_useBlue_normal t;
     checkBox_useAlpha_normal := checkBox_useAlpha_normal t;
     comboBox_method := comboBox_method t;
     checkBox_keepLargeDetail := checkBox_keepLargeDetail t;
     spinBox_largeDetailScale := spinBox_largeDetailScale t;
     doubleSpinBox_largeDetailHeight := doubleSpinBox_largeDetailHeight t;
     spinBox_normalmapSize := v |}.

Definition set_comboBox_mode_spec (v : Z) (t : SpecTab) : SpecTab :=
  {| comboBox_mode_spec := v; doubleSpinBox_spec_redMul := doubleSpinBox_spec_redMul t;
     doubleSpinBox_spec_greenMul := doubleSpinBox_spec_greenMul t;
     doubleSpinBox_spec_blueMul := doubleSpinBox_spec_blueMul t;
     doubleSpinBox_spec_alphaMul := doubleSpinBox_spec_alphaMul t;
     doubleSpinBox_spec_scale := doubleSpinBox_spec_scale t;
     doubleSpinBox_spec_contrast := doubleSpinBox_spec_contrast t |}.

Definition set_doubleSpinBox_spec_redMul (v : double) (t : SpecTab) : SpecTab :=
  {| comboBox_mode_spec := comboBox_mode_spec t; doubleSpinBox_spec_redMul := v;
     doubleSpinBox_spec_greenMul := doubleSpinBox_spec_greenMul t;
     doubleSpinBox_spec_blueMul := doubleSpinBox_spec_blueMul t;
     doubleSpinBox_spec_alphaMul := doubleSpinBox_spec_alphaMul t;
     doubleSpinBox_spec_scale := doubleSpinBox_spec_scale t;
     doubleSpinBox_spec_contrast := doubleSpinBox_spec_contrast t |}.

Definition set_doubleSpinBox_spec_greenMul (v : double) (t : SpecTab) : SpecTab :=
  {| comboBox_mode_spec := comboBox_mode_spec t;
     doubleSpinBox_spec_redMul := doubleSpinBox_spec_redMul t;
     doubleSpinBox_spec_greenMul := v;
     doubleSpinBox_spec_blueMul := doubleSpinBox_spec_blueMul t;
     doubleSpinBox_spec_alphaMul := doubleSpinBox_spec_alphaMul t;
     doubleSpinBox_spec_scale := doubleSpinBox_spec_scale t;
     doubleSpinBox_spec_contrast := doubleSpinBox_spec_contrast t |}.

Definition set_doubleSpinBox_spec_blueMul (v : double) (t : SpecTab) : SpecTab :=
  {| comboBox_mode_spec := comboBox_mode_spec t;
     doubleSpinBox_spec_redMul := doubleSpinBox_spec_redMul t;
     doubleSpinBox_spec_greenMul := doubleSpinBox_spec_greenMul t;
     doubleSpinBox_spec_blueMul := v;
     doubleSpinBox_spec_alphaMul := doubleSpinBox_spec_alphaMul t;
     doubleSpinBox_spec_scale := doubleSpinBox_spec_scale t;
     doubleSpinBox_spec_contrast := doubleSpinBox_spec_contrast t |}.

Definition set_doubleSpinBox_spec_alphaMul (v : double) (t : SpecTab) : SpecTab :=
  {| comboBox_mode_spec := comboBox_mode_spec t;
     doubleSpinBox_spec_redMul := doubleSpinBox_spec_redMul t;
     doubleSpinBox_spec_greenMul := doubleSpinBox_spec_greenMul t;
     doubleSpinBox_spec_blueMul := doubleSpinBox_spec_blueMul t;
     doubleSpinBox_spec_alphaMul := v;
     doubleSpinBox_spec_scale := doubleSpinBox_spec_scale t;
     doubleSpinBox_spec_contrast := doubleSpinBox_spec_contrast t |}.

Definition set_doubleSpinBox_spec_contrast (v : double) (t : SpecTab) : SpecTab :=
  {| comboBox_mode_spec := comboBox_mode_spec t;
     doubleSpinBox_spec_redMul := doubleSpinBox_spec_redMul t;
     doubleSpinBox_spec_greenMul := doubleSpinBox_spec_greenMul t;
     doubleSpinBox_spec_blueMul := doubleSpinBox_spec_blueMul t;
     doubleSpinBox_spec_alphaMul := doubleSpinBox_spec_alphaMul t;
     doubleSpinBox_spec_scale := doubleSpinBox_spec_scale t;
     doubleSpinBox_spec_contrast := v |}.

Definition set_comboBox_mode_displace (v : Z) (t : DisplaceTab) : DisplaceTab :=
  {| comboBox_mode_displace := v;
     doubleSpinBox_displace_redMul := doubleSpinBox_displace_redMul t;
     doubleSpinBox_displace_greenMul := doubleSpinBox_displace_greenMul t;
     doubleSpinBox_displace_blueMul := doubleSpinBox_displace_blueMul t;
     doubleSpinBox_displace_scale := doubleSpinBox_displace_scale t;
     doubleSpinBox_displace_contrast := doubleSpinBox_displace_contrast t;
     checkBox_displace_blur := checkBox_displace_blur t;
     spinBox_displace_blurRadius := spinBox_displace_blurRadius t;
     checkBox_displace_blur_tileable := checkBox_displace_blur_tileable t |}.

Definition set_doubleSpinBox_displace_redMul (v : double) (t : DisplaceTab) : DisplaceTab :=
  {| comboBox_mode_displace := comboBox_mode_displace t;
     doubleSpinBox_displace_redMul := v;
     doubleSpinBox_displace_greenMul := doubleSpinBox_displace_greenMul t;
     doubleSpinBox_displace_blueMul := doubleSpinBox_displace_blueMul t;
     doubleSpinBox_displace_scale := doubleSpinBox_displace_scale t;
     doubleSpinBox_displace_contrast := doubleSpinBox_displace_contrast t;
     checkBox_displace_blur := checkBox_displace_blur t;
     spinBox_displace_blurRadius := spinBox_displace_blurRadius t;
     checkBox_displace_blur_tileable := checkBox_displace_blur_tileable t |}.

Definition set_doubleSpinBox_displace_greenMul (v : double) (t : DisplaceTab) : DisplaceTab :=
  {| comboBox_mode_displace := comboBox_mode_displace t;
     doubleSpinBox_displace_redMul := doubleSpinBox_displace_redMul t;
     doubleSpinBox_displace_greenMul := v;
     doubleSpinBox_displace_blueMul := doubleSpinBox_displace_blueMul t;
     doubleSpinBox_displace_scale := doubleSpinBox_displace_scale t;
     doubleSpinBox_displace_contrast := doubleSpinBox_displace_contrast t;
     checkBox_displace_blur := checkBox_displace_blur t;
     spinBox_displace_blurRadius := spinBox_displace_blurRadius t;
     checkBox_displace_blur_tileable := checkBox_displace_blur_tileable t |}.

Definition set_doubleSpinBox_displace_blueMul (v : double) (t : DisplaceTab) : DisplaceTab :=
  {| comboBox_mode_displace := comboBox_mode_displace t;
     doubleSpinBox_displace_redMul := doubleSpinBox_displace_redMul t;
     doubleSpinBox_displace_greenMul := doubleSpinBox_displace_greenMul t;
     doubleSpinBox_displace_blueMul := v;
     doubleSpinBox_displace_scale := doubleSpinBox_displace_scale t;
     doubleSpinBox_displace_contrast := doubleSpinBox_displace_contrast t;
     checkBox_displace_blur := checkBox_displace_blur t;
     spinBox_displace_blurRadius := spinBox_displace_blurRadius t;
     checkBox_displace_blur_tileable := checkBox_displace_blur_tileable t |}.

Definition set_doubleSpinBox_displace_scale (v : double) (t : DisplaceTab) : DisplaceTab :=
  {| comboBox_mode_displace := comboBox_mode_displace t;
     doubleSpinBox_displace_redMul := doubleSpinBox_displace_redMul t;
     doubleSpinBox_displace_greenMul := doubleSpinBox_displace_greenMul t;
     doubleSpinBox_displace_blueMul := doubleSpinBox_displace_blueMul t;
     doubleSpinBox_displace_scale := v;
     doubleSpinBox_displace_contrast := doubleSpinBox_displace_contrast t;
     checkBox_displace_blur := checkBox_displace_blur t;
     spinBox_displace_blurRadius := spinBox_displace_blurRadius t;
     checkBox_displace_blur_tileable := checkBox_displace_blur_tileable t |}.

Definition set_doubleSpinBox_displace_contrast (v : double) (t : DisplaceTab) : DisplaceTab :=
  {| comboBox_mode_displace := comboBox_mode_displace t;
     doubleSpinBox_displace_redMul := doubleSpinBox_displace_redMul t;
     doubleSpinBox_displace_greenMul := doubleSpinBox_displace_greenMul t;
     doubleSpinBox_displace_blueMul := doubleSpinBox_displace_blueMul t;
     doubleSpinBox_displace_scale := doubleSpinBox_displace_scale t;
     doubleSpinBox_displace_contrast := v;
     checkBox_displace_blur := checkBox_displace_blur t;
     spinBox_displace_blurRadius := spinBox_displace_blurRadius t;
     checkBox_displace_blur_tileable := checkBox_displace_blur_tileable t |}.

Definition set_checkBox_displace_blur (v : bool) (t : DisplaceTab) : DisplaceTab :=
  {| comboBox_mode_displace := comboBox_mode_displace t;
     doubleSpinBox_displace_redMul := doubleSpinBox_displace_redMul t;
     doubleSpinBox_displace_greenMul := doubleSpinBox_displace_greenMul t;
     doubleSpinBox_displace_blueMul := doubleSpinBox_displace_blueMul t;
     doubleSpinBox_displace_scale := doubleSpinBox_displace_scale t;
     doubleSpinBox_displace_contrast := doubleSpinBox_displace_contrast t;
     checkBox_displace_blur := v;
     spinBox_displace_blurRadius := spinBox_displace_blurRadius t;
     checkBox_displace_blur_tileable := checkBox_displace_blur_tileable t |}.

Definition set_spinBox_displace_blurRadius (v : Z) (t : DisplaceTab) : DisplaceTab :=
  {| comboBox_mode_displace := comboBox_mode_displace t;
     doubleSpinBox_displace_redMul := doubleSpinBox_displace_redMul t;
     doubleSpinBox_displace_greenMul := doubleSpinBox_displace_greenMul t;
     doubleSpinBox_displace_blueMul := doubleSpinBox_displace_blueMul t;
     doubleSpinBox_displace_scale := doubleSpinBox_displace_scale t;
     doubleSpinBox_displace_contrast := doubleSpinBox_displace_contrast t;
     checkBox_displace_blur := checkBox_displace_blur t;
     spinBox_displace_blurRadius := v;
     checkBox_displace_blur_tileable := checkBox_displace_blur_tileable t |}.

Definition set_checkBox_displace_blur_tileable (v : bool) (t : DisplaceTab) : DisplaceTab :=
  {| comboBox_mode_displace := comboBox_mode_displace t;
     doubleSpinBox_displace_redMul := doubleSpinBox_displace_redMul t;
     doubleSpinBox_displace_greenMul := doubleSpinBox_displace_greenMul t;
     doubleSpinBox_displace_blueMul := doubleSpinBox_displace_blueMul t;
     doubleSpinBox_displace_scale := doubleSpinBox_displace_scale t;
     doubleSpinBox_displace_contrast := doubleSpinBox_displace_contrast t;
     checkBox_displace_blur := checkBox_displace_blur t;
     spinBox_displace_blurRadius := spinBox_displace_blurRadius t;
     checkBox_displace_blur_tileable := v |}.

Definition set_doubleSpinBox_ssao_size (v : double) (t : SsaoTab) : SsaoTab :=
  {| doubleSpinBox_ssao_size := v; spinBox_ssao_samples := spinBox_ssao_samples t;
     spinBox_ssao_noiseTexSize := spinBox_ssao_noiseTexSize t |}.

Definition set_spinBox_ssao_samples (v : Z) (t : SsaoTab) : SsaoTab :=
  {| doubleSpinBox_ssao_size := doubleSpinBox_ssao_size t; spinBox_ssao_samples := v;
     spinBox_ssao_noiseTexSize := spinBox_ssao_noiseTexSize t |}.

Definition set_spinBox_ssao_noiseTexSize (v : Z) (t : SsaoTab) : SsaoTab :=
  {| doubleSpinBox_ssao_size := doubleSpinBox_ssao_size t;
     spinBox_ssao_samples := spinBox_ssao_samples t; spinBox_ssao_noiseTexSize := v |}.

Definition set_displaceTab (v : DisplaceTab) (u : Ui) : Ui :=
  {| normalTab := normalTab u; specTab := specTab u; displaceTab := v;
     ssaoTab := ssaoTab u; queueTab := queueTab u; frame := frame u;
     enabled := enabled u; graphicsView := graphicsView u |}.

Definition set_ssaoTab (v : SsaoTab) (u : Ui) : Ui :=
  {| normalTab := normalTab u; specTab := specTab u; displaceTab := displaceTab u;
     ssaoTab := v; queueTab := queueTab u; frame := frame u;
     enabled := enabled u; graphicsView := graphicsView u |}.

(** Setters for the channel display and the auto-update row. *)
Definition set_checkBox_displayChannelIntensity (v : bool) (f : Frame) : Frame :=
  {| statusBar := statusBar f; tabWidget := tabWidget f;
     checkBox_displayChannelIntensity := v;
     radioButton_displayRed := radioButton_displayRed f;
     radioButton_displayGreen := radioButton_displayGreen f;
     radioButton_displayBlue := radioButton_displayBlue f;
     checkBox_autoUpdate := checkBox_autoUpdate f;
     doubleSpinBox_autoUpdateThreshold := doubleSpinBox_autoUpdateThreshold f;
     label_autoUpdate_lastCalcTime := label_autoUpdate_lastCalcTime f;
     label_autoUpdate_lastCalcTime_styleSheet := label_autoUpdate_lastCalcTime_styleSheet f;
     label_normalmapSize := label_normalmapSize f |}.

Definition set_checkBox_autoUpdate (v : bool) (f : Frame) : Frame :=
  {| statusBar := statusBar f; tabWidget := tabWidget f;
     checkBox_displayChannelIntensity := checkBox_displayChannelIntensity f;
     radioButton_displayRed := radioButton_displayRed f;
     radioButton_displayGreen := radioButton_displayGreen f;
     radioButton_displayBlue := radioButton_displayBlue f; checkBox_autoUpdate := v;
     doubleSpinBox_autoUpdateThreshold := doubleSpinBox_autoUpdateThreshold f;
     label_autoUpdate_lastCalcTime := label_autoUpdate_lastCalcTime f;
     label_autoUpdate_lastCalcTime_styleSheet := label_autoUpdate_lastCalcTime_styleSheet f;
     label_normalmapSize := label_normalmapSize f |}.

Definition set_doubleSpinBox_autoUpdateThreshold (v : double) (f : Frame) : Frame :=
  {| statusBar := statusBar f; tabWidget := tabWidget f;
     checkBox_displayChannelIntensity := checkBox_displayChannelIntensity f;
     radioButton_displayRed := radioButton_displayRed f;
     radioButton_displayGreen := radioButton_displayGreen f;
     radioButton_displayBlue := radioButton_displayBlue f;
     checkBox_autoUpdate := checkBox_autoUpdate f;
     doubleSpinBox_autoUpdateThreshold := v;
     label_autoUpdate_lastCalcTime := label_autoUpdate_lastCalcTime f;
     label_autoUpdate_lastCalcTime_styleSheet := label_autoUpdate_lastCalcTime_styleSheet f;
     label_normalmapSize := label_normalmapSize f |}.

(** The four radio buttons exclude each other; the alpha button is the
    one that is checked when the other three are not. *)
Definition set_radioButton_display (c : Channel) (f : Frame) : Frame :=
  {| statusBar := statusBar f; tabWidget := tabWidget f;
     checkBox_displayChannelIntensity := checkBox_displayChannelIntensity f;
     radioButton_displayRed := match c with Red => true | _ => false end;
     radioButton_displayGreen := match c with Green => true | _ => false end;
     radioButton_displayBlue := match c with Blue => true | _ => false end;
     checkBox_autoUpdate := checkBox_autoUpdate f;
     doubleSpinBox_autoUpdateThreshold := doubleSpinBox_autoUpdateThreshold f;
     label_autoUpdate_lastCalcTime := label_autoUpdate_lastCalcTime f;
     label_autoUpdate_lastCalcTime_styleSheet := label_autoUpdate_lastCalcTime_styleSheet f;
     label_normalmapSize := label_normalmapSize f |}.

(** ** Slots as computations *)

(** A slot returns normally, leaves by a C++ exception, or recurses
    deeper than the allowed call depth. *)
Inductive Outcome (A : Type) : Type :=
| Returned (a : A) (w : MainWindow)
| Thrown (e : string) (w : MainWindow)
| TooDeep.
Arguments Returned {A} a w.
Arguments Thrown {A} e w.
Arguments TooDeep {A}.

Definition M (A : Type) : Type := MainWindow -> Outcome A.

Definition ret {A} (a : A) : M A := fun w => Returned a w.

Definition bind {A B} (c : M A) (k : A -> M B) : M B :=
  fun w =>
    match c w with
    | Returned a w' => k a w'
    | Thrown e w' => Thrown e w'
    | TooDeep => TooDeep
    end.

Definition throw {A} (e : string) : M A := fun w => Thrown e w.
Definition tooDeep {A} : M A := fun _ => TooDeep.
Definition modify (f : MainWindow -> MainWindow) : M unit :=
  fun w => Returned tt (f w).
Definition gets {A} (f : MainWindow -> A) : M A := fun w => Returned (f w) w.
Definition when (b : bool) (c : M unit) : M unit := if b then c else ret tt.

Declare Scope slot_scope.
Delimit Scope slot_scope with slot.
Notation "x <- c ;; k" := (bind c (fun x => k))
  (at level 61, c at next level, right associativity) : slot_scope.
Notation "c ;; k" := (bind c (fun _ => k))
  (at level 61, right associativity) : slot_scope.
Local Open Scope slot_scope.

(** The state in which a computation stops, however it stops. *)
Definition map_state {A} (f : MainWindow -> MainWindow) (o : Outcome A) : Outcome A :=
  match o with
  | Returned a w => Returned a (f w)
  | Thrown e w => Thrown e (f w)
  | TooDeep => TooDeep
  end.

Definition nl : string := String (ascii_of_nat 10) EmptyString.
Definition dquote : string := String (ascii_of_nat 34) EmptyString.

(** *** Widget and stream helpers *)

Definition on_normalTab (f : NormalTab -> NormalTab) (w : MainWindow) : MainWindow :=
  set_ui (set_normalTab (f (normalTab (ui w))) (ui w)) w.
Definition on_queueTab (f : QueueTab -> QueueTab) (w : MainWindow) : MainWindow :=
  set_ui (set_queueTab (f (queueTab (ui w))) (ui w)) w.
Definition on_frame (f : Frame -> Frame) (w : MainWindow) : MainWindow :=
  set_ui (set_frame (f (frame (ui w))) (ui w)) w.
Definition on_enabled (f : Enabled -> Enabled) (w : MainWindow) : MainWindow :=
  set_ui (set_enabled (f (enabled (ui w))) (ui w)) w.
Definition on_graphicsView (f : GraphicsView -> GraphicsView) (w : MainWindow) : MainWindow :=
  set_ui (set_graphicsView (f (graphicsView (ui w))) (ui w)) w.
Definition on_world (f : World -> World) (w : MainWindow) : MainWindow :=
  set_world (f (world w)) w.

Definition on_specTab (f : SpecTab -> SpecTab) (w : MainWindow) : MainWindow :=
  set_ui (set_specTab (f (specTab (ui w))) (ui w)) w.
Definition on_displaceTab (f : DisplaceTab -> DisplaceTab) (w : MainWindow) : MainWindow :=
  set_ui (set_displaceTab (f (displaceTab (ui w))) (ui w)) w.
Definition on_ssaoTab (f : SsaoTab -> SsaoTab) (w : MainWindow) : MainWindow :=
  set_ui (set_ssaoTab (f (ssaoTab (ui w))) (ui w)) w.

(** ui->statusBar->showMessage(msg) and clearMessage(); the display
    duration is not modelled. *)
Definition showMessage (msg : string) : MainWindow -> MainWindow :=
  on_frame (set_statusBar msg).
Definition clearMessage : MainWindow -> MainWindow :=
  on_frame (set_statusBar EmptyString).

(** QMessageBox::information(this, title, text). *)
Definition information (title body : string) : MainWindow -> MainWindow :=
  on_world (fun o => set_dialogs (dialogs o ++ [(title, body)]) o).

(** std::cout << line << std::endl. *)
Definition cout (line : string) : MainWindow -> MainWindow :=
  on_world (fun o => set_console (console o ++ [line]) o).

(** MainWindow::changeOutputPathQueue; [chosen] is what the directory
    dialog returns, the empty URL when it is cancelled. *)
Definition changeOutputPathQueue (chosen : QUrl.t) (w : MainWindow) : MainWindow :=
  cout ("export path changed to: " +++ QUrl.toLocalFile chosen)
    (set_exportPath chosen w).

(** QElapsedTimer::elapsed(): the next reading, a qint64; 0 when none is
    left. *)
Definition elapsed : M Z :=
  fun w =>
    match timerReadings (world w) with
    | [] => Returned 0 w
    | t :: rest => Returned t (on_world (set_timerReadings rest) w)
    end.

(** scene()->clear() and scene()->addPixmap(QPixmap::fromImage(img)). *)
Definition scene_clear : MainWindow -> MainWindow :=
  on_graphicsView (set_scene []).
Definition scene_addPixmap (img : QImage) : MainWindow -> MainWindow :=
  on_graphicsView (fun g => set_scene (scene g ++ [img]) g).

(** The index of a mode combo box: 0 is AVERAGE, 1 is MAX, and the
    initial AVERAGE stays for any other index. *)
Definition mode_of_index (index : Z) : Mode :=
  if index =? 0 then AVERAGE else if index =? 1 then MAX else AVERAGE.

Definition kernel_of_index (index : Z) : Kernel :=
  if index =? 0 then SOBEL else if index =? 1 then PREWITT else SOBEL.

(** MainWindow::calcPercentage. *)
Definition calcPercentage (value percentage : Z) : Z :=
  int_of_double (dmul (ddiv (double_of_int value) d100_0) (double_of_int percentage)).

(** MainWindow::enableAutoupdate. *)
Definition enableAutoupdate (on : bool) : MainWindow -> MainWindow :=
  on_enabled (fun e =>
    {| pushButton_calcNormal_enabled := pushButton_calcNormal_enabled e;
       pushButton_calcSpec_enabled := pushButton_calcSpec_enabled e;
       pushButton_calcDisplace_enabled := pushButton_calcDisplace_enabled e;
       pushButton_calcSsao_enabled := pushButton_calcSsao_enabled e;
       checkBox_displayChannelIntensity_enabled := checkBox_displayChannelIntensity_enabled e;
       spinBox_normalmapSize_enabled := spinBox_normalmapSize_enabled e;
       checkBox_autoUpdate_enabled := on;
       label_autoUpdate_lastCalcTime_enabled := on;
       label_autoUpdate_text_enabled := on;
       doubleSpinBox_autoUpdateThreshold_enabled := on;
       pushButton_save_enabled := pushButton_save_enabled e;
       pushButton_stopProcessingQueue_enabled := pushButton_stopProcessingQueue_enabled e;
       pushButton_openExportFolder_enabled := pushButton_openExportFolder_enabled e |}).

(** The six setEnabled(true) calls of load (lines 148-153). *)
Definition enable_input_controls : MainWindow -> MainWindow :=
  on_enabled (fun e =>
    {| pushButton_calcNormal_enabled := true;
       pushButton_calcSpec_enabled := true;
       pushButton_calcDisplace_enabled := true;
       pushButton_calcSsao_enabled := true;
       checkBox_displayChannelIntensity_enabled := true;
       spinBox_normalmapSize_enabled := true;
       checkBox_autoUpdate_enabled := checkBox_autoUpdate_enabled e;
       label_autoUpdate_lastCalcTime_enabled := label_autoUpdate_lastCalcTime_enabled e;
       label_autoUpdate_text_enabled := label_autoUpdate_text_enabled e;
       doubleSpinBox_autoUpdateThreshold_enabled := doubleSpinBox_autoUpdateThreshold_enabled e;
       pushButton_save_enabled := pushButton_save_enabled e;
       pushButton_stopProcessingQueue_enabled := pushButton_stopProcessingQueue_enabled e;
       pushButton_openExportFolder_enabled := pushButton_openExportFolder_enabled e |}).

(** MainWindow::addImageToQueue(QUrl). *)
Definition addImageToQueue (url : QUrl.t) : MainWindow -> MainWindow :=
  on_queueTab (fun q =>
    set_listWidget_queue (listWidget_queue q ++ [mkQueueItem url (QUrl.fileName url)]) q).

(** MainWindow::stopProcessingQueue. *)
Definition stopProcessingQueue : MainWindow -> MainWindow := set_stopQueue true.

(** MainWindow::resetZoom and MainWindow::fitInView. *)
Definition resetZoom : MainWindow -> MainWindow :=
  on_graphicsView (set_transform Identity).

Definition fitInView (w : MainWindow) : MainWindow :=
  on_graphicsView
    (fun g => set_transform (FitKeepAspectRatio (width (input w)) (height (input w)))
                (set_sceneRect (width (input w), height (input w)) g)) w.

(** MainWindow::zoomIn and MainWindow::zoomOut. *)
Definition zoomIn : MainWindow -> MainWindow :=
  on_graphicsView (fun g => set_transform (Scaled d1_2 d1_2 (transform g)) g).

Definition zoomOut : MainWindow -> MainWindow :=
  on_graphicsView (fun g => set_transform (Scaled d0_8 d0_8 (transform g)) g).

(** MainWindow::removeImagesFromQueue: qDeleteAll takes the selected
    items out of the list; [selected] holds their positions. *)
Fixpoint without_selected (i : nat) (selected : list nat) (items : list QueueItem)
  : list QueueItem :=
  match items with
  | [] => []
  | item :: rest =>
      if existsb (Nat.eqb i) selected
      then without_selected (S i) selected rest
      else item :: without_selected (S i) selected rest
  end.

Definition removeImagesFromQueue (selected : list nat) : MainWindow -> MainWindow :=
  on_queueTab (fun q =>
    set_listWidget_queue (without_selected 0 selected (listWidget_queue q)) q).

(** MainWindow::normalmapSizeChanged. *)
Definition normalmapSizeChanged (w : MainWindow) : MainWindow :=
  let sizePercent := spinBox_normalmapSize (normalTab (ui w)) in
  let text := show_int (calcPercentage (width (input w)) sizePercent) in
  let text := text +++ " x " in
  let text := text +++ show_int (calcPercentage (height (input w)) sizePercent) in
  let text := text +++ " px" in
  on_frame (set_label_normalmapSize text) w.

(** *** Changes of the generation parameters *)

(** QDoubleSpinBox::setValue emits valueChanged only for another value. *)
Definition double_differs (v old : double) : bool :=
  match SFcompare v old with
  | Some Eq => false
  | _ => true
  end.

(** The window with the widget in its new state; a click toggles a check
    box. *)
Definition edited (p : ParameterEdit) (w : MainWindow) : MainWindow :=
  match p with
  | Edit_doubleSpinBox_strength v => on_normalTab (set_doubleSpinBox_strength v) w
  | Click_checkBox_invertHeight =>
      on_normalTab (fun t => set_checkBox_invertHeight (negb (checkBox_invertHeight t)) t) w
  | Click_checkBox_tileable =>
      on_normalTab (fun t => set_checkBox_tileable (negb (checkBox_tileable t)) t) w
  | Select_comboBox_mode_normal v => on_normalTab (set_comboBox_mode_normal v) w
  | Click_checkBox_useRed_normal =>
      on_normalTab (fun t => set_checkBox_useRed_normal (negb (checkBox_useRed_normal t)) t) w
  | Click_checkBox_useGreen_normal =>
      on_normalTab (fun t => set_checkBox_useGreen_normal (negb (checkBox_useGreen_normal t)) t) w
  | Click_checkBox_useBlue_normal =>
      on_normalTab (fun t => set_checkBox_useBlue_normal (negb (checkBox_useBlue_normal t)) t) w
  | Click_checkBox_useAlpha_normal =>
      on_normalTab (fun t => set_checkBox_useAlpha_normal (negb (checkBox_useAlpha_normal t)) t) w
  | Select_comboBox_method v => on_normalTab (set_comboBox_method v) w
  | Click_checkBox_keepLargeDetail =>
      on_normalTab (fun t => set_checkBox_keepLargeDetail (negb (checkBox_keepLargeDetail t)) t) w
  | Edit_spinBox_largeDetailScale v =>
      on_normalTab (fun t => set_spinBox_largeDetailScale (QSpinBox.setValue v (spinBox_largeDetailScale t)) t) w
  | Edit_doubleSpinBox_largeDetailHeight v => on_normalTab (set_doubleSpinBox_largeDetailHeight v) w
  | Edit_spinBox_normalmapSize v => on_normalTab (set_spinBox_normalmapSize v) w
  | Select_comboBox_mode_spec v => on_specTab (set_comboBox_mode_spec v) w
  | Edit_doubleSpinBox_spec_redMul v => on_specTab (set_doubleSpinBox_spec_redMul v) w
  | Edit_doubleSpinBox_spec_greenMul v => on_specTab (set_doubleSpinBox_spec_greenMul v) w
  | Edit_doubleSpinBox_spec_blueMul v => on_specTab (set_doubleSpinBox_spec_blueMul v) w
  | Edit_doubleSpinBox_spec_alphaMul v => on_specTab (set_doubleSpinBox_spec_alphaMul v) w
  | Edit_doubleSpinBox_spec_scale v => on_specTab (set_doubleSpinBox_spec_scale v) w
  | Edit_doubleSpinBox_spec_contrast v => on_specTab (set_doubleSpinBox_spec_contrast v) w
  | Select_comboBox_mode_displace v => on_displaceTab (set_comboBox_mode_displace v) w
  | Edit_doubleSpinBox_displace_redMul v => on_displaceTab (set_doubleSpinBox_displace_redMul v) w
  | Edit_doubleSpinBox_displace_greenMul v => on_displaceTab (set_doubleSpinBox_displace_greenMul v) w
  | Edit_doubleSpinBox_displace_blueMul v => on_displaceTab (set_doubleSpinBox_displace_blueMul v) w
  | Edit_doubleSpinBox_displace_scale v => on_displaceTab (set_doubleSpinBox_displace_scale v) w
  | Edit_doubleSpinBox_displace_contrast v => on_displaceTab (set_doubleSpinBox_displace_contrast v) w
  | Click_checkBox_displace_blur =>
      on_displaceTab (fun t => set_checkBox_displace_blur (negb (checkBox_displace_blur t)) t) w
  | Edit_spinBox_displace_blurRadius v => on_displaceTab (set_spinBox_displace_blurRadius v) w
  | Click_checkBox_displace_blur_tileable =>
      on_displaceTab (fun t => set_checkBox_displace_blur_tileable (negb (checkBox_displace_blur_tileable t)) t) w
  | Edit_doubleSpinBox_ssao_size v => on_ssaoTab (set_doubleSpinBox_ssao_size v) w
  | Edit_spinBox_ssao_samples v => on_ssaoTab (set_spinBox_ssao_samples v) w
  | Edit_spinBox_ssao_noiseTexSize v => on_ssaoTab (set_spinBox_ssao_noiseTexSize v) w
  end.

(** Whether the widget emits its signal: valueChanged and
    currentIndexChanged when the value is another one, clicked always. *)
Definition emits (p : ParameterEdit) (w : MainWindow) : bool :=
  match p with
  | Edit_doubleSpinBox_strength v => double_differs v (doubleSpinBox_strength (normalTab (ui w)))
  | Click_checkBox_invertHeight => true
  | Click_checkBox_tileable => true
  | Select_comboBox_mode_normal v => negb (v =? comboBox_mode_normal (normalTab (ui w)))
  | Click_checkBox_useRed_normal => true
  | Click_checkBox_useGreen_normal => true
  | Click_checkBox_useBlue_normal => true
  | Click_checkBox_useAlpha_normal => true
  | Select_comboBox_method v => negb (v =? comboBox_method (normalTab (ui w)))
  | Click_checkBox_keepLargeDetail => true
  | Edit_spinBox_largeDetailScale v =>
      negb (QSpinBox.value (QSpinBox.setValue v (spinBox_largeDetailScale (normalTab (ui w))))
            =? QSpinBox.value (spinBox_largeDetailScale (normalTab (ui w))))
  | Edit_doubleSpinBox_largeDetailHeight v => double_differs v (doubleSpinBox_largeDetailHeight (normalTab (ui w)))
  | Edit_spinBox_normalmapSize v => negb (v =? spinBox_normalmapSize (normalTab (ui w)))
  | Select_comboBox_mode_spec v => negb (v =? comboBox_mode_spec (specTab (ui w)))
  | Edit_doubleSpinBox_spec_redMul v => double_differs v (doubleSpinBox_spec_redMul (specTab (ui w)))
  | Edit_doubleSpinBox_spec_greenMul v => double_differs v (doubleSpinBox_spec_greenMul (specTab (ui w)))
  | Edit_doubleSpinBox_spec_blueMul v => double_differs v (doubleSpinBox_spec_blueMul (specTab (ui w)))
  | Edit_doubleSpinBox_spec_alphaMul v => double_differs v (doubleSpinBox_spec_alphaMul (specTab (ui w)))
  | Edit_doubleSpinBox_spec_scale v => double_differs v (doubleSpinBox_spec_scale (specTab (ui w)))
  | Edit_doubleSpinBox_spec_contrast v => double_differs v (doubleSpinBox_spec_contrast (specTab (ui w)))
  | Select_comboBox_mode_displace v => negb (v =? comboBox_mode_displace (displaceTab (ui w)))
  | Edit_doubleSpinBox_displace_redMul v => double_differs v (doubleSpinBox_displace_redMul (displaceTab (ui w)))
  | Edit_doubleSpinBox_displace_greenMul v => double_differs v (doubleSpinBox_displace_greenMul (displaceTab (ui w)))
  | Edit_doubleSpinBox_displace_blueMul v => double_differs v (doubleSpinBox_displace_blueMul (displaceTab (ui w)))
  | Edit_doubleSpinBox_displace_scale v => double_differs v (doubleSpinBox_displace_scale (displaceTab (ui w)))
  | Edit_doubleSpinBox_displace_contrast v => double_differs v (doubleSpinBox_displace_contrast (displaceTab (ui w)))
  | Click_checkBox_displace_blur => true
  | Edit_spinBox_displace_blurRadius v => negb (v =? spinBox_displace_blurRadius (displaceTab (ui w)))
  | Click_checkBox_displace_blur_tileable => true
  | Edit_doubleSpinBox_ssao_size v => double_differs v (doubleSpinBox_ssao_size (ssaoTab (ui w)))
  | Edit_spinBox_ssao_samples v => negb (v =? spinBox_ssao_samples (ssaoTab (ui w)))
  | Edit_spinBox_ssao_noiseTexSize v => negb (v =? spinBox_ssao_noiseTexSize (ssaoTab (ui w)))
  end.

(** Lines 820-849 of connectSignalSlots connect every parameter widget to
    autoUpdate() but the three blur widgets of the displacement tab and
    the samples and noise boxes of the ambient occlusion tab, which are
    connected to no slot. *)
Definition connected (p : ParameterEdit) : bool :=
  match p with
  | Click_checkBox_displace_blur
  | Edit_spinBox_displace_blurRadius _
  | Click_checkBox_displace_blur_tileable
  | Edit_spinBox_ssao_samples _
  | Edit_spinBox_ssao_noiseTexSize _ => false
  | _ => true
  end.

Section Slots.
Context {E : Engine}.

(** *** The four map computations *)

(** MainWindow::calcNormal. *)
Definition calcNormal : M unit := fun w =>
  if isNull (input w) then Returned tt w else
  let t := normalTab (ui w) in
  let strength := doubleSpinBox_strength t in
  let invert := checkBox_invertHeight t in
  let tileable := checkBox_tileable t in
  let mode := mode_of_index (comboBox_mode_normal t) in
  let useRed := checkBox_useRed_normal t in
  let useGreen := checkBox_useGreen_normal t in
  let useBlue := checkBox_useBlue_normal t in
  let useAlpha := checkBox_useAlpha_normal t in
  let kernel := kernel_of_index (comboBox_method t) in
  let keepLargeDetail := checkBox_keepLargeDetail t in
  let largeDetailScale := QSpinBox.value (spinBox_largeDetailScale t) in
  let largeDetailHeight := doubleSpinBox_largeDetailHeight t in
  let sizePercent := spinBox_normalmapSize t in
  let inputScaled :=
    if negb (sizePercent =? 100) then
      let scaledWidth := calcPercentage (width (input w)) sizePercent in
      let scaledHeight := calcPercentage (height (input w)) sizePercent in
      QImage_scaled (input w) scaledWidth scaledHeight KeepAspectRatio SmoothTransformation
    else input w in
  let generated :=
    calculateNormalmap mode useRed useGreen useBlue useAlpha inputScaled kernel
      strength invert tileable keepLargeDetail largeDetailScale largeDetailHeight in
  let w := set_normalmap (fst generated) w in
  let w := set_normalmapRawIntensity (convertToQImage (snd generated)) w in
  Returned tt w.

(** Lines 262-279 of MainWindow::calcSpec: the map that the generator
    returns for the widgets' values. *)
Definition calcSpec_generated (w : MainWindow) : QImage :=
  let t := specTab (ui w) in
  let mode := mode_of_index (comboBox_mode_spec t) in
  let redMultiplier := doubleSpinBox_spec_redMul t in
  let greenMultiplier := doubleSpinBox_spec_greenMul t in
  let blueMultiplier := doubleSpinBox_spec_blueMul t in
  let alphaMultiplier := doubleSpinBox_spec_alphaMul t in
  let scale := doubleSpinBox_spec_scale t in
  let contrast := doubleSpinBox_spec_contrast t in
  calculateSpecmap mode redMultiplier greenMultiplier blueMultiplier
    alphaMultiplier (input w) scale contrast.

(** MainWindow::calcSpec. *)
Definition calcSpec : M unit := fun w =>
  if isNull (input w) then Returned tt w else
  Returned tt (set_specmap (calcSpec_generated w) w).

(** Lines 287-304 of MainWindow::calcDisplace: the map as the generator
    returns it, before the blur. *)
Definition calcDisplace_generated (w : MainWindow) : QImage :=
  let t := displaceTab (ui w) in
  let mode := mode_of_index (comboBox_mode_displace t) in
  let redMultiplier := doubleSpinBox_displace_redMul t in
  let greenMultiplier := doubleSpinBox_displace_greenMul t in
  let blueMultiplier := doubleSpinBox_displace_blueMul t in
  let alphaMultiplier := d0_0 in
  let scale := doubleSpinBox_displace_scale t in
  let contrast := doubleSpinBox_displace_contrast t in
  calculateSpecmap mode redMultiplier greenMultiplier blueMultiplier
    alphaMultiplier (input w) scale contrast.

(** The blur of lines 310-313, applied to a map. *)
Definition boxBlurred (map : QImage) (radius : Z) (tileable : bool) : QImage :=
  let inputMap := IntensityMap_default map AVERAGE in
  let outputMap := BoxBlur_calculate inputMap radius tileable in
  convertToQImage outputMap.

(** MainWindow::calcDisplace. *)
Definition calcDisplace : M unit := fun w =>
  if isNull (input w) then Returned tt w else
  let w := set_displacementmap (calcDisplace_generated w) w in
  let t := displaceTab (ui w) in
  if checkBox_displace_blur t then
    let radius := spinBox_displace_blurRadius t in
    let tileable := checkBox_displace_blur_tileable t in
    Returned tt (set_displacementmap (boxBlurred (displacementmap w) radius tileable) w)
  else Returned tt w.

(** MainWindow::calcSsao. *)
Definition calcSsao : M unit := fun w =>
  if isNull (input w) then Returned tt w else
  (when (isNull (normalmap w)) calcNormal ;;
   modify (fun w =>
     let w := set_normalmapRawIntensity
                (QImage_scaled (normalmapRawIntensity w) (width (normalmap w))
                   (height (normalmap w)) IgnoreAspectRatio FastTransformation) w in
     let t := ssaoTab (ui w) in
     let size := float_of_double (doubleSpinBox_ssao_size t) in
     let samples := unsigned_of_int (spinBox_ssao_samples t) in
     let noiseTexSize := unsigned_of_int (spinBox_ssao_noiseTexSize t) in
     set_ssaomap
       (calculateSsaomap (normalmap w) (normalmapRawIntensity w) size samples
          noiseTexSize) w)) w.

(** *** Preview and timing *)

(** MainWindow::generateElapsedTimeMsg. *)
Definition generateElapsedTimeMsg (calcTimeMs : Z) (mapType : string) : string :=
  let calcTimeS := ddiv (double_of_int calcTimeMs) d1000_0 in
  "calculated " +++ mapType +++ " (" +++ QString_number calcTimeS +++ " seconds)".

(** MainWindow::displayCalcTime. *)
Definition displayCalcTime (calcTime_ms : Z) (mapType : string) (w : MainWindow)
  : MainWindow :=
  let w := cout (mapType +++ " for item " +++ QUrl.fileName (loadedImagePath w)
                 +++ " calculated, it took " +++ show_int calcTime_ms +++ "ms") w in
  let w := clearMessage w in
  let w := showMessage (generateElapsedTimeMsg calcTime_ms mapType) w in
  let w := on_frame (set_label_autoUpdate_lastCalcTime
                       ("(Last Calc. Time: "
                        +++ QString_number (ddiv (double_of_int calcTime_ms) d1000_0)
                        +++ "s)")) w in
  if dlt (double_of_int calcTime_ms)
         (dmul (doubleSpinBox_autoUpdateThreshold (frame (ui w))) (double_of_int 1000))
  then on_frame (set_label_autoUpdate_lastCalcTime_styleSheet "QLabel {color: #00AA00;}") w
  else on_frame (set_label_autoUpdate_lastCalcTime_styleSheet "QLabel {color: red;}") w.

(** The bodies of calcNormalAndPreview, calcSpecAndPreview,
    calcDisplaceAndPreview and calcSsaoAndPreview; [preview] is the call
    back into MainWindow::preview(int). *)
Definition calcAndPreview
    (status : string) (calc : M unit) (store : Z -> MainWindow -> MainWindow)
    (mapType : string) (tab : Z) (preview : Z -> M unit) : M unit :=
  modify (showMessage status) ;;
  calc ;;
  t <- elapsed ;;
  modify (store (int_of_qint64 t)) ;;
  modify (displayCalcTime (int_of_qint64 t) mapType) ;;
  modify (on_enabled (set_pushButton_save_enabled true)) ;;
  preview tab.

Definition calcNormalAndPreview_with : (Z -> M unit) -> M unit :=
  calcAndPreview "calculating normalmap..." calcNormal set_lastCalctime_normal
    "normalmap" 1.
Definition calcSpecAndPreview_with : (Z -> M unit) -> M unit :=
  calcAndPreview "calculating specularmap..." calcSpec set_lastCalctime_specular
    "specularmap" 2.
Definition calcDisplaceAndPreview_with : (Z -> M unit) -> M unit :=
  calcAndPreview "calculating displacementmap..." calcDisplace
    set_lastCalctime_displace "displacementmap" 3.
Definition calcSsaoAndPreview_with : (Z -> M unit) -> M unit :=
  calcAndPreview "calculating ambient occlusion map..." calcSsao
    set_lastCalctime_ssao "ambient occlusion map" 4.

(** MainWindow::preview(int).  preview and the calc...AndPreview slots
    call each other; [depth] bounds the nesting of these calls.  Case 0
    makes no call. *)
Fixpoint preview (depth : nat) (tab : Z) : M unit :=
  match depth with
  | O => tooDeep
  | S d =>
      modify scene_clear ;;
      if tab =? 0 then
        modify (fun w =>
          if checkBox_displayChannelIntensity (frame (ui w)) && negb (isNull (input w))
          then scene_addPixmap (channelIntensity w) w
          else scene_addPixmap (input w) w)
      else if tab =? 1 then
        (fun w => when (negb (isNull (input w)) && isNull (normalmap w))
                    (calcNormalAndPreview_with (preview d)) w) ;;
        modify (fun w => scene_addPixmap (normalmap w) w) ;;
        modify normalmapSizeChanged
      else if tab =? 2 then
        (fun w => when (negb (isNull (input w)) && isNull (specmap w))
                    (calcSpecAndPreview_with (preview d)) w) ;;
        modify (fun w => scene_addPixmap (specmap w) w)
      else if tab =? 3 then
        (fun w => when (negb (isNull (input w)) && isNull (displacementmap w))
                    (calcDisplaceAndPreview_with (preview d)) w) ;;
        modify (fun w => scene_addPixmap (displacementmap w) w)
      else if tab =? 4 then
        (fun w => when (negb (isNull (input w)) && isNull (ssaomap w))
                    (calcSsaoAndPreview_with (preview d)) w) ;;
        modify (fun w => scene_addPixmap (ssaomap w) w)
      else ret tt
  end.

Definition calcNormalAndPreview (depth : nat) : M unit :=
  calcNormalAndPreview_with (preview depth).
Definition calcSpecAndPreview (depth : nat) : M unit :=
  calcSpecAndPreview_with (preview depth).
Definition calcDisplaceAndPreview (depth : nat) : M unit :=
  calcDisplaceAndPreview_with (preview depth).
Definition calcSsaoAndPreview (depth : nat) : M unit :=
  calcSsaoAndPreview_with (preview depth).

(** Lines 656-666 of displayChannelIntensity: the channel that the radio
    buttons select, as an image. *)
Definition displayChannelIntensity_image (w : MainWindow) : QImage :=
  let f := frame (ui w) in
  let temp :=
    if radioButton_displayRed f then
      IntensityMap_channels (input w) AVERAGE true false false false
    else if radioButton_displayGreen f then
      IntensityMap_channels (input w) AVERAGE false true false false
    else if radioButton_displayBlue f then
      IntensityMap_channels (input w) AVERAGE false false true false
    else
      IntensityMap_channels (input w) AVERAGE false false false true in
  convertToQImage temp.

(** MainWindow::displayChannelIntensity. *)
Definition displayChannelIntensity : M unit := fun w =>
  if isNull (input w) then Returned tt w else
  preview 1 0 (set_channelIntensity (displayChannelIntensity_image w) w).

(** MainWindow::autoUpdate, the slot behind every parameter widget. *)
Definition autoUpdate (depth : nat) : M unit := fun w =>
  if negb (checkBox_autoUpdate (frame (ui w)))
     || negb (checkBox_autoUpdate_enabled (enabled (ui w)))
  then Returned tt w else
  let autoUpdateThreshold_ms :=
    int_of_double (dmul (doubleSpinBox_autoUpdateThreshold (frame (ui w))) d1000_0) in
  let tab := tabWidget (frame (ui w)) in
  if tab =? 0 then Returned tt w
  else if tab =? 1 then
    when (lastCalctime_normal w <? autoUpdateThreshold_ms) (calcNormalAndPreview depth) w
  else if tab =? 2 then
    when (lastCalctime_specular w <? autoUpdateThreshold_ms) (calcSpecAndPreview depth) w
  else if tab =? 3 then
    when (lastCalctime_displace w <? autoUpdateThreshold_ms) (calcDisplaceAndPreview depth) w
  else if tab =? 4 then
    when (lastCalctime_ssao w <? autoUpdateThreshold_ms) (calcSsaoAndPreview depth) w
  else Returned tt w.

(** The user types [v] into doubleSpinBox_spec_scale: the box takes the
    value and, when it differs from the old one, emits
    valueChanged(double), which connectSignalSlots connects to
    autoUpdate(). *)
Definition edit_spec_scale (depth : nat) (v : double) : M unit := fun w =>
  let old := doubleSpinBox_spec_scale (specTab (ui w)) in
  let w' := set_ui (set_specTab (set_doubleSpinBox_spec_scale v (specTab (ui w))) (ui w)) w in
  match SFcompare v old with
  | Some Eq => Returned tt w'
  | _ => autoUpdate depth w'
  end.

(** The slots that run when a parameter widget emits its signal, in the
    order of their connections: autoUpdate() (lines 820-849) and, for the
    size box, normalmapSizeChanged() after it (line 866). *)
Definition slots_of (depth : nat) (p : ParameterEdit) : M unit :=
  if negb (connected p) then ret tt
  else match p with
       | Edit_spinBox_normalmapSize _ =>
           autoUpdate depth ;; modify normalmapSizeChanged
       | _ => autoUpdate depth
       end.

(** A change of a generation parameter by the user. *)
Definition edit (depth : nat) (p : ParameterEdit) : M unit := fun w =>
  let w' := edited p w in
  if emits p w then slots_of depth p w' else Returned tt w'.

(** The map that belongs to a tab, the slot that computes it and the time
    its last computation took; tabs 1 to 4. *)
Definition map_of_tab (tab : Z) (w : MainWindow) : QImage :=
  if tab =? 1 then normalmap w
  else if tab =? 2 then specmap w
  else if tab =? 3 then displacementmap w
  else ssaomap w.

Definition calc_of_tab (tab : Z) : M unit :=
  if tab =? 1 then calcNormal
  else if tab =? 2 then calcSpec
  else if tab =? 3 then calcDisplace
  else calcSsao.

Definition lastCalctime_of_tab (tab : Z) (w : MainWindow) : Z :=
  if tab =? 1 then lastCalctime_normal w
  else if tab =? 2 then lastCalctime_specular w
  else if tab =? 3 then lastCalctime_displace w
  else lastCalctime_ssao w.

(** The calc...AndPreview slot of a tab; tabs 1 to 4. *)
Definition calcAndPreview_of_tab (depth : nat) (tab : Z) : M unit :=
  if tab =? 1 then calcNormalAndPreview depth
  else if tab =? 2 then calcSpecAndPreview depth
  else if tab =? 3 then calcDisplaceAndPreview depth
  else calcSsaoAndPreview depth.

(** Whether autoUpdate recomputes the map of the current tab: the
    auto-update box is checked and enabled, the tab is one of 1 to 4, and
    the last computation of its map took less than the threshold. *)
Definition autoUpdate_due (w : MainWindow) : bool :=
  let tab := tabWidget (frame (ui w)) in
  checkBox_autoUpdate (frame (ui w))
  && checkBox_autoUpdate_enabled (enabled (ui w))
  && (1 <=? tab) && (tab <=? 4)
  && (lastCalctime_of_tab tab w
      <? int_of_double (dmul (doubleSpinBox_autoUpdateThreshold (frame (ui w))) d1000_0)).

(** The test with which preview(tab) decides to compute the tab's map. *)
Definition preview_computes (tab : Z) (w : MainWindow) : bool :=
  negb (isNull (input w)) && isNull (map_of_tab tab w).

(** *** Loading *)

(** ui->spinBox_largeDetailScale->setValue(v).  The spin box emits
    valueChanged(int) when its value changes, and connectSignalSlots
    connects that signal to autoUpdate(), which then runs before setValue
    returns. *)
Definition spinBox_largeDetailScale_setValue (depth : nat) (v : Z) : M unit := fun w =>
  let box := spinBox_largeDetailScale (normalTab (ui w)) in
  let box' := QSpinBox.setValue v box in
  let w' := on_normalTab (set_spinBox_largeDetailScale box') w in
  if QSpinBox.value box' =? QSpinBox.value box then Returned tt w'
  else autoUpdate depth w'.

(** The scale that load computes at line 159 for an image whose longest
    side is [imageSize]. *)
Definition load_linearScale (imageSize : Z) : Z :=
  int_of_double (dadd (dmul (dneg d0_037) (double_of_int imageSize)) d100_0).

(** Lines 156-169 of MainWindow::load: the settings for KeepLargeDetail. *)
Definition load_keepLargeDetail (depth : nat) : M unit := fun w =>
  let imageSize := Z.max (width (input w)) (height (input w)) in
  let largeDetailScale := load_linearScale imageSize in
  let w := on_normalTab (set_checkBox_keepLargeDetail true) w in
  if imageSize <? 300 then
    spinBox_largeDetailScale_setValue depth largeDetailScale
      (on_normalTab (set_checkBox_keepLargeDetail false) w)
  else if imageSize >? 2300 then
    spinBox_largeDetailScale_setValue depth 20 w
  else
    spinBox_largeDetailScale_setValue depth largeDetailScale w.

(** Lines 171-196 of MainWindow::load. *)
Definition load_finish : M bool :=
  modify (on_frame (set_tabWidget 0)) ;;
  modify (set_channelIntensity NullImage) ;;
  modify (set_normalmap NullImage) ;;
  modify (set_specmap NullImage) ;;
  modify (set_displacementmap NullImage) ;;
  modify (set_ssaomap NullImage) ;;
  (fun w => if checkBox_displayChannelIntensity (frame (ui w))
            then displayChannelIntensity w
            else preview 1 0 w) ;;
  modify fitInView ;;
  modify (fun w =>
    if (width (input w) <? viewWidth (graphicsView (ui w)))
       || (height (input w) <? viewHeight (graphicsView (ui w)))
    then resetZoom w else w) ;;
  modify clearMessage ;;
  ret true.

(** The window after preview(0). *)
Definition preview_input (w : MainWindow) : MainWindow :=
  let w := scene_clear w in
  if checkBox_displayChannelIntensity (frame (ui w)) && negb (isNull (input w))
  then scene_addPixmap (channelIntensity w) w
  else scene_addPixmap (input w) w.

(** The three stages of load_finish as window transformers: lines
    171-179 (tab and cleared maps), 181-185 (what is shown) and 187-194
    (zoom and status bar). *)
Definition load_clear (w : MainWindow) : MainWindow :=
  set_ssaomap NullImage
    (set_displacementmap NullImage
       (set_specmap NullImage
          (set_normalmap NullImage
             (set_channelIntensity NullImage (on_frame (set_tabWidget 0) w))))).

Definition load_show (w : MainWindow) : MainWindow :=
  if checkBox_displayChannelIntensity (frame (ui w)) then
    if isNull (input w) then w
    else preview_input (set_channelIntensity (displayChannelIntensity_image w) w)
  else preview_input w.

Definition load_fit (w : MainWindow) : MainWindow :=
  let w := fitInView w in
  let w :=
    if (width (input w) <? viewWidth (graphicsView (ui w)))
       || (height (input w) <? viewHeight (graphicsView (ui w)))
    then resetZoom w else w in
  clearMessage w.

(** Lines 120-123 of MainWindow::load: the status message and the
    decoding of the file into [input]. *)
Definition load_decode (url : QUrl.t) (w : MainWindow) : MainWindow :=
  let w := showMessage ("loading Image: " +++ QUrl.fileName url) w in
  set_input (QImage_fromFile (disk (world w)) (QUrl.toLocalFile url)) w.

(** Lines 127-139: the report of a file that could not be decoded. *)
Definition load_report (url : QUrl.t) (w : MainWindow) : MainWindow :=
  let file := QUrl.toLocalFile url in
  let errorMessage := "Image not loaded!" in
  let errorMessage :=
    if (QString.toLower (QFileInfo.suffix file) =? "tga")%string
    then errorMessage +++ nl +++ "Only uncompressed TGA files are supported."
    else errorMessage +++ nl +++ "Most likely the image format is not supported." in
  let w := showMessage ("Error: Image " +++ QUrl.fileName url +++ " NOT loaded!") w in
  information "Error while loading image" errorMessage w.

(** Lines 142-154: the paths and the enabled widgets. *)
Definition load_enable (url : QUrl.t) (w : MainWindow) : MainWindow :=
  let w := if QUrl.isEmpty (exportPath w)
           then set_exportPath (QUrl.adjusted_RemoveFilename url) w else w in
  let w := set_loadedImagePath url w in
  let w := enable_input_controls w in
  enableAutoupdate true w.

(** MainWindow::load. *)
Definition load (depth : nat) (url : QUrl.t) : M bool := fun w =>
  if negb (QUrl.isValid url) then Thrown "[load] invalid url!" w else
  let w := load_decode url w in
  if isNull (input w) then Returned false (load_report url w)
  else (load_keepLargeDetail depth ;; load_finish) (load_enable url w).

(** MainWindow::loadSingleDropped. *)
Definition loadSingleDropped (depth : nat) (url : QUrl.t) : M unit :=
  ok <- load depth url ;;
  when ok (modify (addImageToQueue url)).

Definition supported : string := "png jpg jpeg tiff ppm bmp xpm tga".

(** The test of line 94 of loadMultipleDropped on one URL. *)
Definition suffix_accepted (url : QUrl.t) : bool :=
  let suffix := QString.toLower (QFileInfo.suffix (QUrl.fileName url)) in
  QString.contains supported suffix.

(** The loop of MainWindow::loadMultipleDropped, from index i on, with
    its two flags; it returns containedInvalidFormat. *)
Fixpoint loadMultipleDropped_loop (depth : nat) (urls : list QUrl.t)
    (containedInvalidFormat loadedFirstValidImage : bool) : M bool :=
  match urls with
  | [] => ret containedInvalidFormat
  | url :: rest =>
      if suffix_accepted url then
        modify (addImageToQueue url) ;;
        (if negb loadedFirstValidImage
         then _ <- load depth url ;; ret tt
         else ret tt) ;;
        loadMultipleDropped_loop depth rest containedInvalidFormat true
      else
        loadMultipleDropped_loop depth rest true loadedFirstValidImage
  end.

Definition notAllLoaded_title : string := "Not All Images Loaded Into Queue".

(** MainWindow::loadMultipleDropped. *)
Definition loadMultipleDropped (depth : nat) (urls : list QUrl.t) : M unit :=
  containedInvalidFormat <- loadMultipleDropped_loop depth urls false false ;;
  when containedInvalidFormat
    (modify (information notAllLoaded_title
       "Some images had unsupported formats and where not loaded into the queue!")).

(** *** Saving *)

(** map.save(name): on success the file is on the disk. *)
Definition QImage_save_to (img : QImage) (name : string) : M bool := fun w =>
  if QImage_save (disk (world w)) img name
  then Returned true (on_world (fun o => set_disk (disk o ++ [(name, img)]) o) w)
  else Returned false w.

(** One of the three blocks of lines 511-530. *)
Definition save_map (map : MainWindow -> QImage) (generate : QueueTab -> bool)
    (name title failed saved : string) : M unit := fun w =>
  if negb (isNull (map w)) && generate (queueTab (ui w)) then
    (ok <- QImage_save_to (map w) name ;;
     if negb ok then modify (information title failed)
     else modify (showMessage (saved +++ dquote +++ name +++ dquote))) w
  else Returned tt w.

(** The suffix that save gives the map files (lines 500-503). *)
Definition save_suffix (path : string) : string :=
  let suffix := QFileInfo.suffix path in
  if (QString.toLower suffix =? "tga")%string then "png" else suffix.

Definition save_name (path kind : string) : string :=
  QFileInfo_absolutePath path +++ "/" +++ QFileInfo.baseName path +++ kind
    +++ save_suffix path.

(** MainWindow::save. *)
Definition save (url : QUrl.t) : M unit := fun w =>
  if negb (QUrl.isValid url) then Returned tt w else
  let path := QUrl.toLocalFile url in
  let file := path in
  (* line 498 appends ".png" to [path], which is not read afterwards *)
  let name_normal := save_name file "_normal." in
  let name_specular := save_name file "_spec." in
  let name_displace := save_name file "_displace." in
  (save_map normalmap checkBox_queue_generateNormal name_normal
     "Error while saving Normalmap" "Normalmap not saved!" "Normalmap saved as " ;;
   save_map specmap checkBox_queue_generateSpec name_specular
     "Error while saving Specularmap" "Specularmap not saved!" "Specularmap saved as " ;;
   save_map displacementmap checkBox_queue_generateDisplace name_displace
     "Error while saving Displacementmap" "Displacementmap not saved!"
     "Displacementmap saved as " ;;
   modify (set_exportPath (QUrl.adjusted_RemoveFilename url)) ;;
   modify (on_enabled (set_pushButton_openExportFolder_enabled true))) w.

(** *** The queue *)

Definition count (w : MainWindow) : nat := List.length (listWidget_queue (queueTab (ui w))).

(** Lines 438-460 of processQueue: one queue item, from its status
    message to its save. *)
Definition processQueue_item (depth : nat) (percentageBase : double) (i : nat)
  : M unit := fun w =>
  match nth_error (listWidget_queue (queueTab (ui w))) i with
  | None => Thrown "listWidget_queue->item(i) is null" w
  | Some item =>
      (modify (showMessage ("Processing Queue Item: " +++ text item)) ;;
       modify (on_queueTab (set_progressBar_Queue
         (int_of_double (dmul percentageBase (double_of_int (Z.of_nat i + 1)))))) ;;
       _ <- load depth (getUrl item) ;;
       (fun w => when (checkBox_queue_generateNormal (queueTab (ui w))) calcNormal w) ;;
       (fun w => when (checkBox_queue_generateSpec (queueTab (ui w))) calcSpec w) ;;
       (fun w => when (checkBox_queue_generateDisplace (queueTab (ui w))) calcDisplace w) ;;
       exportUrl <- gets (fun w =>
         QUrl.fromLocalFile (QUrl.toLocalFile (exportPath w) +++ "/" +++ text item)) ;;
       modify (cout ("[Queue] Image " +++ show_int (Z.of_nat i + 1) +++ " exported: "
                     +++ QUrl.toLocalFile exportUrl)) ;;
       save exportUrl) w
  end.

(** Lines 466-471 of processQueue. *)
Definition processQueue_end : M unit :=
  modify (on_enabled (set_pushButton_stopProcessingQueue_enabled false)) ;;
  modify (set_stopQueue false) ;;
  modify (on_enabled (set_pushButton_openExportFolder_enabled true)).

Definition percentageBase_of (w : MainWindow) : double :=
  ddiv d100_0 (double_of_int (Z.of_nat (count w))).

(** MainWindow::addImageToQueue(QList<QUrl>). *)
Definition addImagesToQueue (urls : list QUrl.t) (w : MainWindow) : MainWindow :=
  fold_left (fun w url => addImageToQueue url w) urls w.

(** MainWindow::queueItemDoubleClicked. *)
Definition queueItemDoubleClicked (depth : nat) (item : QueueItem) : M unit :=
  _ <- load depth (getUrl item) ;; ret tt.

(** Lines 61-72 of the constructor: the images named on the command line
    (args[0] is the application) are handed to loadMultipleDropped. *)
Definition openWithArguments (depth : nat) (args : list string) : M unit :=
  if (1 <? List.length args)%nat
  then loadMultipleDropped depth (map QUrl.fromLocalFile (tl args))
  else ret tt.

(** MainWindow::preview(), the overload that takes the current tab. *)
Definition preview_current (depth : nat) : M unit := fun w =>
  preview depth (tabWidget (frame (ui w))) w.

(** *** The user's actions and the run of the queue *)

(** MainWindow::loadUserFilePath and MainWindow::saveUserFilePath;
    [chosen] is what the file dialog returns: no URL, or an invalid one,
    when it is cancelled. *)
Definition loadUserFilePath (depth : nat) (chosen : list QUrl.t) : M unit :=
  loadMultipleDropped depth chosen.

Definition saveUserFilePath (chosen : QUrl.t) : M unit := save chosen.

(** A disabled widget takes no click. *)
Definition if_enabled (on : Enabled -> bool) (c : M unit) : M unit := fun w =>
  if on (enabled (ui w)) then c w else Returned tt w.

Definition parameter_enabled (p : ParameterEdit) (w : MainWindow) : bool :=
  match p with
  | Edit_spinBox_normalmapSize _ => spinBox_normalmapSize_enabled (enabled (ui w))
  | _ => true
  end.

(** One action of the user: the widget changes and the slots that
    connectSignalSlots connects to its signal run, in the order of their
    connections.  [processQueue] is the slot behind the process button.
    tabBarClicked(int) is emitted before the tab bar changes the current
    tab; preview(int) does not read the current tab. *)
Definition dispatch (depth : nat) (processQueue : M unit) (e : UiEvent) : M unit :=
  match e with
  | Click_load chosen => loadUserFilePath depth chosen
  | Click_save chosen => if_enabled pushButton_save_enabled (saveUserFilePath chosen)
  | Click_zoomIn => modify zoomIn
  | Click_zoomOut => modify zoomOut
  | Click_resetZoom => modify resetZoom
  | Click_fitInView => modify fitInView
  | Click_calcNormal =>
      if_enabled pushButton_calcNormal_enabled (calcNormalAndPreview depth)
  | Click_calcSpec =>
      if_enabled pushButton_calcSpec_enabled (calcSpecAndPreview depth)
  | Click_calcDisplace =>
      if_enabled pushButton_calcDisplace_enabled (calcDisplaceAndPreview depth)
  | Click_calcSsao =>
      if_enabled pushButton_calcSsao_enabled (calcSsaoAndPreview depth)
  | Click_tabBar index =>
      preview depth index ;; modify (on_frame (set_tabWidget index))
  | Click_checkBox_displayChannelIntensity =>
      if_enabled checkBox_displayChannelIntensity_enabled
        (modify (on_frame (fun f =>
           set_checkBox_displayChannelIntensity
             (negb (checkBox_displayChannelIntensity f)) f)) ;;
         preview_current depth ;;
         displayChannelIntensity)
  | Click_radioButton_display channel =>
      modify (on_frame (set_radioButton_display channel)) ;;
      displayChannelIntensity
  | Change_parameter p =>
      fun w => if parameter_enabled p w then edit depth p w else Returned tt w
  | Toggle_autoUpdate on =>
      if_enabled checkBox_autoUpdate_enabled
        (modify (on_frame (set_checkBox_autoUpdate on)))
  | Edit_autoUpdateThreshold v =>
      if_enabled doubleSpinBox_autoUpdateThreshold_enabled
        (modify (on_frame (set_doubleSpinBox_autoUpdateThreshold v)))
  | Drop_singleImage url => loadSingleDropped depth url
  | Drop_multipleImages urls => loadMultipleDropped depth urls
  | Click_removeImagesFromQueue selected => modify (removeImagesFromQueue selected)
  | Click_processQueue => processQueue
  | Click_stopProcessingQueue =>
      if_enabled pushButton_stopProcessingQueue_enabled (modify stopProcessingQueue)
  | Click_changeOutputPath_Queue chosen => modify (changeOutputPathQueue chosen)
  | DoubleClick_queueItem i =>
      fun w =>
        match nth_error (listWidget_queue (queueTab (ui w))) i with
        | Some item => queueItemDoubleClicked depth item w
        | None => Returned tt w
        end
  | Toggle_queue_generateNormal on =>
      modify (on_queueTab (set_checkBox_queue_generateNormal on))
  | Toggle_queue_generateSpec on =>
      modify (on_queueTab (set_checkBox_queue_generateSpec on))
  | Toggle_queue_generateDisplace on =>
      modify (on_queueTab (set_checkBox_queue_generateDisplace on))
  end.

(** The actions of one batch, in the order in which they arrived; an
    exception of a slot ends the delivery. *)
Fixpoint deliver (depth : nat) (processQueue : M unit) (batch : list UiEvent) : M unit :=
  match batch with
  | [] => ret tt
  | e :: rest => dispatch depth processQueue e ;; deliver depth processQueue rest
  end.

(** QCoreApplication::processEvents(): the user's actions that arrived
    since the last call are handled, in order. *)
Definition processEvents (depth : nat) (processQueue : M unit) : M unit := fun w =>
  match pendingEvents (world w) with
  | [] => Returned tt w
  | batch :: later =>
      deliver depth processQueue batch (on_world (set_pendingEvents later) w)
  end.

(** The for loop of processQueue, entered with index [i]; [n] bounds the
    number of iterations still allowed. *)
Fixpoint processQueue_loop (depth : nat) (processQueue : M unit)
    (percentageBase : double) (n i : nat) : M unit := fun w =>
  if (i <? count w)%nat && negb (stopQueue w) then
    match n with
    | O => TooDeep
    | S n' =>
        (processQueue_item depth percentageBase i ;;
         processEvents depth processQueue ;;
         processQueue_loop depth processQueue percentageBase n' (S i)) w
    end
  else Returned tt w.

(** The body of MainWindow::processQueue; [processQueue] is the slot
    itself, for the clicks on the process button that arrive while it
    runs. *)
Definition processQueue_body (depth : nat) (processQueue : M unit) (n : nat)
  : M unit := fun w =>
  if (count w =? 0)%nat then Returned tt w else
  if negb (QUrl.isValid (exportPath w)) then
    Returned tt (information "Invalid Export Path" "Export path is invalid!" w)
  else
    let w := on_enabled (set_pushButton_stopProcessingQueue_enabled true) w in
    let percentageBase := percentageBase_of w in
    (processQueue_loop depth processQueue percentageBase n 0 ;; processQueue_end) w.

(** MainWindow::processQueue.  [fuel] bounds the iterations of the loop
    and the nesting of processQueue inside processEvents. *)
Fixpoint processQueue (depth fuel : nat) : M unit :=
  match fuel with
  | O => tooDeep
  | S fuel' => processQueue_body depth (processQueue depth fuel') fuel'
  end.

End Slots.

(** ** Notions used by the statements *)

(** A stored map has an optional blur stage when an enable flag, a radius
    and a tileable setting of the widgets decide whether the stored map is
    the generated one or its BoxBlur, and the flag can be set and cleared. *)
Definition has_optional_blur
    (calc : forall E : Engine, M unit)
    (generated : forall E : Engine, MainWindow -> QImage)
    (stored : MainWindow -> QImage) : Prop :=
  exists (enable : Ui -> bool) (radius : Ui -> Z) (tileable : Ui -> bool),
    (exists u, enable u = true) /\
    (exists u, enable u = false) /\
    forall (E : Engine) (w : MainWindow),
      isNull (input w) = false ->
      exists w',
        calc E w = Returned tt w' /\
        stored w' =
          (if enable (ui w)
           then @boxBlurred E (generated E w) (radius (ui w)) (tileable (ui w))
           else generated E w).

(** What one of the three blocks of lines 511-530 leaves on the disk [d]:
    the file is added when the map is there, its box is checked and the
    write succeeds. *)
Definition save_attempt {E : Engine} (img : QImage) (generate : bool) (name : string)
    (d : list (string * QImage)) : list (string * QImage) :=
  if negb (isNull img) && generate && QImage_save d img name
  then d ++ [(name, img)] else d.

(** [keeps mayThrow f c]: whenever [c] returns, the part [f] of the window
    is what it was before; [c] throws only if [mayThrow]. *)
Definition keeps {A X : Type} (mayThrow : bool) (f : MainWindow -> X) (c : M A) : Prop :=
  forall w,
    match c w with
    | Returned _ w' => f w' = f w
    | Thrown _ _ => mayThrow = true
    | TooDeep => True
    end.

(** What no map computation, preview or auto-update writes. *)
Definition kept_by_preview (w : MainWindow) :=
  (input w,
   (normalTab (ui w), specTab (ui w), displaceTab (ui w), ssaoTab (ui w),
    queueTab (ui w)),
   (checkBox_autoUpdate (frame (ui w)),
    doubleSpinBox_autoUpdateThreshold (frame (ui w)),
    checkBox_displayChannelIntensity (frame (ui w)),
    tabWidget (frame (ui w))),
   checkBox_autoUpdate_enabled (enabled (ui w)),
   (exportPath w, loadedImagePath w, stopQueue w),
   (disk (world w), dialogs (world w), pendingEvents (world w))).

(** What the processing of one queue item does not write. *)
Definition kept_by_item (w : MainWindow) :=
  (listWidget_queue (queueTab (ui w)), stopQueue w, pendingEvents (world w),
   checkBox_autoUpdate (frame (ui w))).

(** What load_finish leaves as it was. *)
Definition kept_by_finish (w : MainWindow) :=
  (kept_by_item w, input w, normalTab (ui w), world w,
   checkBox_displayChannelIntensity (frame (ui w)),
   (radioButton_displayRed (frame (ui w)), radioButton_displayGreen (frame (ui w)),
    radioButton_displayBlue (frame (ui w)))).

Definition four_maps (w : MainWindow) :=
  (normalmap w, specmap w, displacementmap w, ssaomap w).

(** What load never writes, however it ends. *)
Definition kept_by_load (w : MainWindow) :=
  (queueTab (ui w), (specTab (ui w), displaceTab (ui w), ssaoTab (ui w)),
   stopQueue w, disk (world w), pendingEvents (world w)).

(** The queue entry that addImageToQueue makes for a URL. *)
Definition queueItem_of (url : QUrl.t) : QueueItem :=
  mkQueueItem url (QUrl.fileName url).

(** The eight formats that the file dialog of loadUserFilePath offers. *)
Definition supported_formats : list string :=
  ["png"; "jpg"; "jpeg"; "tiff"; "ppm"; "bmp"; "xpm"; "tga"].

(** The seven stored images. *)
Definition images (w : MainWindow) :=
  (input w, channelIntensity w, normalmap w, normalmapRawIntensity w,
   specmap w, displacementmap w, ssaomap w).

(** Whether an action of the user adds items to the queue or removes
    some. *)
Definition changes_queue (e : UiEvent) : bool :=
  match e with
  | Click_load _ | Drop_singleImage _ | Drop_multipleImages _
  | Click_removeImagesFromQueue _ => true
  | _ => false
  end.

(** The user's coming actions [pending] add no item to the queue and
    remove none. *)
Definition leave_queue (pending : list (list UiEvent)) : Prop :=
  Forall (Forall (fun e => changes_queue e = false)) pending.

(** [quiet c]: when the coming actions of the user leave the queue alone
    and [c] returns, the queue is what it was and the actions that are still
    to come leave it alone too. *)
Definition quiet {A : Type} (c : M A) : Prop :=
  forall w,
    leave_queue (pendingEvents (world w)) ->
    match c w with
    | Returned _ w' =>
        listWidget_queue (queueTab (ui w')) = listWidget_queue (queueTab (ui w)) /\
        leave_queue (pendingEvents (world w'))
    | _ => True
    end.

(** The queue and the coming actions of the user. *)
Definition queue_and_pending (w : MainWindow) :=
  (listWidget_queue (queueTab (ui w)), pendingEvents (world w)).

(** [prints n c]: with auto-update unchecked [c] returns, puts exactly
    [n] lines on std::cout and leaves the queue, the stop flag and the
    pending user actions alone. *)
Definition prints {A : Type} (n : nat) (c : M A) : Prop :=
  forall w,
    checkBox_autoUpdate (frame (ui w)) = false ->
    exists a w',
      c w = Returned a w' /\
      List.length (console (world w')) = (List.length (console (world w)) + n)%nat /\
      kept_by_item w' = kept_by_item w.

(** [flag_blind c]: [c] neither reads nor writes stopQueue; whatever the
    flag is when [c] starts, [c] does the same and leaves the flag as it
    found it. *)
Definition flag_blind {A : Type} (c : M A) : Prop :=
  forall (b : bool) (w : MainWindow),
    c (set_stopQueue b w) = map_state (set_stopQueue b) (c w).

(** The scale as the specification words it: -0.037 * imageSize + 100
    rounded to the nearest integer. *)
Definition rounded_linearScale (imageSize : Z) : Z :=
  (100000 - 37 * imageSize + 500) / 1000.

(** The scale that load hands to the spin box for a longest side [s]. *)
Definition load_scale (s : Z) : Z :=
  if s >? 2300 then 20 else (100000 - 37 * s) ÷ 1000.

(** ** A sample engine and window

    The examples below run the slots on a small engine: three files can be
    decoded, every file can be written, and each generator returns an image
    of the size of its input whose pixels record the arguments of the call,
    so that calls with different arguments give different maps. *)

(** The value that processQueue gives the progress bar when it starts
    item [i] (counted from 0) of a queue of [n]. *)
Definition progress_shown (n i : nat) : Z :=
  int_of_double (dmul (ddiv d100_0 (double_of_int (Z.of_nat n)))
                   (double_of_int (Z.of_nat i + 1))).

(** Whether that value is the whole percentage of the items started so
    far, or one less. *)
Definition progress_within_one (n i : nat) : bool :=
  let shown := progress_shown n i in
  let exact := 100 * (Z.of_nat i + 1) / Z.of_nat n in
  (exact - 1 <=? shown) && (shown <=? exact).

(** Whether calcPercentage gives [v], or one less, for 100 percent of [v]. *)
Definition size_within_one (v : Z) : bool :=
  let shown := calcPercentage v 100 in
  (shown =? v) || (shown =? v - 1).

(** The queue as a list, and the progress bar. *)
Definition queue_of (w : MainWindow) : list QueueItem :=
  listWidget_queue (queueTab (ui w)).

(** The size of the preview widget. *)
Definition view_size (w : MainWindow) : Z * Z :=
  (viewWidth (graphicsView (ui w)), viewHeight (graphicsView (ui w))).

Module Sample.

Definition stamp (d : double) : Z := int_of_double (dmul d d1000_0).
Definition code (b : bool) : Z := if b then 1 else 0.

Definition retag (tags : list Z) (img : QImage) : QImage :=
  match img with
  | NullImage => NullImage
  | Image w h px => Image w h (tags ++ px)
  end.

Definition decode (path : string) : QImage :=
  if (path =? "/textures/brick.png")%string then Image 512 512 [7]
  else if (path =? "/textures/pebble.png")%string then Image 300 200 [8]
  else if (path =? "/textures/wall.tga")%string then Image 4096 2048 [9]
  else NullImage.

Definition dirOf (path : string) : string :=
  match QString.throughLast "/" path with
  | EmptyString => "."
  | String c rest => String c (QString.beforeFirst "/" rest)
  end.

#[export] Instance engine : Engine := {|
  IntensityMap := QImage;
  QImage_fromFile := fun _ path => decode path;
  QImage_save := fun _ _ _ => true;
  QImage_scaled := fun img w h _ _ =>
    match img, w, h with
    | Image _ _ px, Zpos w, Zpos h => Image w h px
    | _, _, _ => NullImage
    end;
  QFileInfo_absolutePath := dirOf;
  QString_number := fun d => show_int (stamp d);
  IntensityMap_channels := fun img mode r g b a =>
    retag [100; code r; code g; code b; code a] img;
  IntensityMap_default := fun img mode => retag [101] img;
  convertToQImage := fun m => m;
  calculateNormalmap := fun mode r g b a img kernel strength invert tileable keep scale height =>
    (retag [200; code r; code g; code b; code a; stamp strength; code invert;
            code tileable; code keep; scale; stamp height] img,
     retag [201] img);
  calculateSpecmap := fun mode r g b a img scale contrast =>
    retag [300; stamp r; stamp g; stamp b; stamp a; stamp scale; stamp contrast] img;
  BoxBlur_calculate := fun m radius tileable => retag [400; radius; code tileable] m;
  calculateSsaomap := fun normal depth size samples noise =>
    retag [500; samples; noise] normal
|}.

Definition one : double := double_of_int 1.

Definition ui0 : Ui := {|
  normalTab := {|
    doubleSpinBox_strength := one;
    checkBox_invertHeight := false;
    checkBox_tileable := false;
    comboBox_mode_normal := 0;
    checkBox_useRed_normal := true;
    checkBox_useGreen_normal := true;
    checkBox_useBlue_normal := true;
    checkBox_useAlpha_normal := false;
    comboBox_method := 0;
    checkBox_keepLargeDetail := true;
    spinBox_largeDetailScale := QSpinBox.mk 1 100 25;
    doubleSpinBox_largeDetailHeight := one;
    spinBox_normalmapSize := 100 |};
  specTab := {|
    comboBox_mode_spec := 0;
    doubleSpinBox_spec_redMul := one;
    doubleSpinBox_spec_greenMul := one;
    doubleSpinBox_spec_blueMul := one;
    doubleSpinBox_spec_alphaMul := d0_0;
    doubleSpinBox_spec_scale := one;
    doubleSpinBox_spec_contrast := one |};
  displaceTab := {|
    comboBox_mode_displace := 0;
    doubleSpinBox_displace_redMul := one;
    doubleSpinBox_displace_greenMul := one;
    doubleSpinBox_displace_blueMul := one;
    doubleSpinBox_displace_scale := one;
    doubleSpinBox_displace_contrast := one;
    checkBox_displace_blur := true;
    spinBox_displace_blurRadius := 5;
    checkBox_displace_blur_tileable := true |};
  ssaoTab := {|
    doubleSpinBox_ssao_size := one;
    spinBox_ssao_samples := 16;
    spinBox_ssao_noiseTexSize := 4 |};
  queueTab := {|
    checkBox_queue_generateNormal := true;
    checkBox_queue_generateSpec := true;
    checkBox_queue_generateDisplace := true;
    listWidget_queue := [];
    progressBar_Queue := 0 |};
  frame := {|
    statusBar := "Drag images into the empty preview window to load them.";
    tabWidget := 0;
    checkBox_displayChannelIntensity := false;
    radioButton_displayRed := true;
    radioButton_displayGreen := false;
    radioButton_displayBlue := false;
    checkBox_autoUpdate := false;
    doubleSpinBox_autoUpdateThreshold := one;
    label_autoUpdate_lastCalcTime := EmptyString;
    label_autoUpdate_lastCalcTime_styleSheet := EmptyString;
    label_normalmapSize := EmptyString |};
  enabled := mkEnabled false false false false false false false false false
               false false false false;
  graphicsView := mkGraphicsView 800 600 [] (0, 0) Untouched
|}.

(** The window as the constructor leaves it, over the widgets [u]. *)
Definition constructed (u : Ui) (o : World) : MainWindow := {|
  ui := u;
  input := NullImage;
  channelIntensity := NullImage;
  normalmap := NullImage;
  normalmapRawIntensity := NullImage;
  specmap := NullImage;
  displacementmap := NullImage;
  ssaomap := NullImage;
  exportPath := QUrl.empty;
  loadedImagePath := QUrl.empty;
  lastCalctime_normal := 0;
  lastCalctime_specular := 0;
  lastCalctime_displace := 0;
  lastCalctime_ssao := 0;
  stopQueue := false;
  world := o
|}.

Definition world0 : World := mkWorld [] [] [] [] [].

Definition window0 : MainWindow := constructed ui0 world0.

Definition brick : QUrl.t := QUrl.fromLocalFile "/textures/brick.png".
Definition pebble : QUrl.t := QUrl.fromLocalFile "/textures/pebble.png".
Definition wall : QUrl.t := QUrl.fromLocalFile "/textures/wall.tga".
Definition missing : QUrl.t := QUrl.fromLocalFile "/textures/missing.tga".

(** The state in which a run ended, [w] itself when it was cut short. *)
Definition final {A} (w : MainWindow) (o : Outcome A) : MainWindow :=
  match o with
  | Returned _ w' => w'
  | Thrown _ w' => w'
  | TooDeep => w
  end.

(** brick.png loaded, then its specular map computed. *)
Definition loaded : MainWindow :=
  Eval vm_compute in final window0 (load 1 brick window0).
Definition withSpec : MainWindow :=
  Eval vm_compute in final loaded (calcSpec loaded).


Definition two : double := double_of_int 2.

Definition exportTga : QUrl.t := QUrl.fromLocalFile "/out/brick.TGA".

Definition photo_jp : QUrl.t := QUrl.fromLocalFile "/textures/photo.jp".

(** Three files in the queue of [loaded]; while the first one is being
    processed the user clicks stop, and in [requeued] the process button
    after it. *)
Definition threeQueued : MainWindow :=
  Eval vm_compute in
  addImageToQueue wall (addImageToQueue pebble (addImageToQueue brick loaded)).

Definition queued : MainWindow :=
  Eval vm_compute in
  on_world (set_pendingEvents [[Click_stopProcessingQueue]]) threeQueued.

Definition requeued : MainWindow :=
  Eval vm_compute in
  on_world (set_pendingEvents [[Click_stopProcessingQueue; Click_processQueue]])
    threeQueued.

Definition processed : MainWindow :=
  Eval vm_compute in final queued (processQueue 1 5 queued).

Definition reprocessed : MainWindow :=
  Eval vm_compute in final requeued (processQueue 1 5 requeued).

(** The window after photo.jp was dropped on the constructed window. *)
Definition afterDrop : MainWindow :=
  Eval vm_compute in final window0 (loadMultipleDropped 1 [photo_jp] window0).

(** The window after a failed load of missing.tga on top of [withSpec]. *)
Definition afterMissing : MainWindow :=
  Eval vm_compute in final withSpec (load 1 missing withSpec).
Definition missingReported : MainWindow :=
  Eval vm_compute in final window0 (load 1 missing window0).

(** The normal map of brick.png is stored, and missing.tga is queued. *)
Definition staleQueue : MainWindow :=
  Eval vm_compute in addImageToQueue missing (final loaded (calcNormal loaded)).

(** A queue of 97 files. *)
Definition longQueue : MainWindow :=
  Eval vm_compute in
  fold_left (fun w url => addImageToQueue url w) (repeat brick 97) loaded.

(** pebble.png and brick.png dropped together on the constructed window. *)
Definition afterTwoDropped : MainWindow :=
  Eval vm_compute in
  final window0 (loadMultipleDropped 1 [pebble; brick] window0).

(** [loaded] with other specular widgets: alpha 1 and scale 2. *)
Definition rescaled : MainWindow :=
  Eval vm_compute in
  set_ui (set_specTab (mkSpecTab 0 one one one one two one) (ui loaded)) loaded.

End Sample.

(** * Theorems *)

(** ** Properties of the map computations *)

Section Calc.
Context {E : Engine}.

Lemma calcSpec_stores (w : MainWindow) :
  isNull (input w) = false ->
  calcSpec w = Returned tt (set_specmap (calcSpec_generated w) w).
Proof. intros Hin. unfold calcSpec. now rewrite Hin. Qed.

Lemma calcDisplace_stores (w : MainWindow) :
  isNull (input w) = false ->
  calcDisplace w =
  Returned tt
    (set_displacementmap
       (if checkBox_displace_blur (displaceTab (ui w))
        then boxBlurred (calcDisplace_generated w)
               (spinBox_displace_blurRadius (displaceTab (ui w)))
               (checkBox_displace_blur_tileable (displaceTab (ui w)))
        else calcDisplace_generated w) w).
Proof.
  intros Hin. unfold calcDisplace. rewrite Hin. cbn.
  destruct (checkBox_displace_blur (displaceTab (ui w))); reflexivity.
Qed.

(** C6. Without a loaded input image each of calcNormal, calcSpec,
    calcDisplace and calcSsao returns normally and leaves the window,
    and so every stored map, exactly as it was. *)
Theorem calc_without_input_changes_nothing (w : MainWindow) :
  isNull (input w) = true ->
  calcNormal w = Returned tt w /\
  calcSpec w = Returned tt w /\
  calcDisplace w = Returned tt w /\
  calcSsao w = Returned tt w.
Proof.
  intros Hin. unfold calcNormal, calcSpec, calcDisplace, calcSsao.
  rewrite Hin. repeat split.
Qed.

(** C5. Take any window with a loaded input, and a second window with
    the same input whose specular widgets hold the mode, the red, green and
    blue multipliers, the scale and the contrast of the first window's
    displacement widgets and an alpha multiplier of 0; the specular widgets
    of the first window are arbitrary.  The specular map that calcSpec
    stores in the second window is the map that calcDisplace obtains in the
    first before its blur, and calcDisplace stores that map, blurred when
    the blur box is checked. *)
Theorem calcDisplace_before_blur_is_calcSpec_with_alpha_0 (w v : MainWindow) :
  isNull (input w) = false ->
  input v = input w ->
  mode_of_index (comboBox_mode_spec (specTab (ui v))) =
    mode_of_index (comboBox_mode_displace (displaceTab (ui w))) ->
  doubleSpinBox_spec_redMul (specTab (ui v)) =
    doubleSpinBox_displace_redMul (displaceTab (ui w)) ->
  doubleSpinBox_spec_greenMul (specTab (ui v)) =
    doubleSpinBox_displace_greenMul (displaceTab (ui w)) ->
  doubleSpinBox_spec_blueMul (specTab (ui v)) =
    doubleSpinBox_displace_blueMul (displaceTab (ui w)) ->
  doubleSpinBox_spec_alphaMul (specTab (ui v)) = d0_0 ->
  doubleSpinBox_spec_scale (specTab (ui v)) =
    doubleSpinBox_displace_scale (displaceTab (ui w)) ->
  doubleSpinBox_spec_contrast (specTab (ui v)) =
    doubleSpinBox_displace_contrast (displaceTab (ui w)) ->
  exists vs wd,
    calcSpec v = Returned tt vs /\
    calcDisplace w = Returned tt wd /\
    specmap vs = calcDisplace_generated w /\
    displacementmap wd =
      (if checkBox_displace_blur (displaceTab (ui w))
       then boxBlurred (specmap vs)
              (spinBox_displace_blurRadius (displaceTab (ui w)))
              (checkBox_displace_blur_tileable (displaceTab (ui w)))
       else specmap vs).
Proof.
  intros Hin Hv Hmode Hr Hg Hb Ha Hs Hc.
  assert (isNull (input v) = false) as Hin' by (rewrite Hv; exact Hin).
  assert (calcSpec_generated v = calcDisplace_generated w) as Hgen.
  { unfold calcSpec_generated, calcDisplace_generated. cbv zeta.
    now rewrite Hmode, Hr, Hg, Hb, Ha, Hs, Hc, Hv. }
  eexists. eexists. split; [apply (calcSpec_stores v Hin')|].
  split; [apply calcDisplace_stores; exact Hin|].
  change (specmap (set_specmap (calcSpec_generated v) v)) with (calcSpec_generated v).
  rewrite Hgen. split; reflexivity.
Qed.

(** C4, amended. Only the displacement map has a blur stage after its
    generation: calcDisplace stores the generated map when
    checkBox_displace_blur is unchecked and its BoxBlur, with the radius of
    spinBox_displace_blurRadius and the setting of
    checkBox_displace_blur_tileable, when it is checked; calcSpec stores
    the map exactly as the generator returns it, whatever the widgets
    show.  Neither slot changes anything else. *)
Theorem only_calcDisplace_blurs (w : MainWindow) :
  isNull (input w) = false ->
  calcDisplace w =
    Returned tt
      (set_displacementmap
         (if checkBox_displace_blur (displaceTab (ui w))
          then boxBlurred (calcDisplace_generated w)
                 (spinBox_displace_blurRadius (displaceTab (ui w)))
                 (checkBox_displace_blur_tileable (displaceTab (ui w)))
          else calcDisplace_generated w) w) /\
  calcSpec w = Returned tt (set_specmap (calcSpec_generated w) w).
Proof.
  intros Hin. split.
  - unfold calcDisplace. rewrite Hin. cbn.
    destruct (checkBox_displace_blur (displaceTab (ui w))); reflexivity.
  - unfold calcSpec. now rewrite Hin.
Qed.

End Calc.

(** C4, refuted as stated: the specular map has no blur stage.  On the
    sample engine a blurred map differs from the generated one, and
    calcSpec stores the generated one whatever the widgets show. *)
Lemma calcSpec_has_no_optional_blur :
  ~ (has_optional_blur (@calcSpec) (@calcSpec_generated) specmap /\
     has_optional_blur (@calcDisplace) (@calcDisplace_generated) displacementmap).
Proof.
  intros [(enable & radius & tileable & [u Hu] & _ & Hall) _].
  pose (w := set_ui u (set_input (Image 4 4 [1]) Sample.window0)).
  destruct (Hall Sample.engine w eq_refl) as (w' & Hrun & Hstored).
  rewrite (calcSpec_stores w eq_refl) in Hrun.
  injection Hrun as <-.
  cbn [ui set_ui w] in Hstored. rewrite Hu in Hstored.
  cbn in Hstored. discriminate Hstored.
Qed.

Lemma only_calcDisplace_blurs_witness :
  (exists wd,
     @calcDisplace Sample.engine Sample.loaded = Returned tt wd /\
     displacementmap wd =
       @boxBlurred Sample.engine
         (@calcDisplace_generated Sample.engine Sample.loaded) 5 true) /\
  (exists ws,
     @calcSpec Sample.engine Sample.loaded = Returned tt ws /\
     specmap ws = @calcSpec_generated Sample.engine Sample.loaded).
Proof.
  assert (isNull (input Sample.loaded) = false) as Hin by (vm_compute; reflexivity).
  destruct (@only_calcDisplace_blurs Sample.engine Sample.loaded Hin) as (Hd & Hs).
  split; eexists; (split; [eassumption|]); reflexivity.
Defined.

Lemma calc_without_input_changes_nothing_witness :
  isNull (input Sample.window0) = true /\
  @calcSsao Sample.engine Sample.window0 = Returned tt Sample.window0.
Proof.
  assert (isNull (input Sample.window0) = true) as Hin by (vm_compute; reflexivity).
  split; [exact Hin|].
  exact (proj2 (proj2 (proj2
    (@calc_without_input_changes_nothing Sample.engine Sample.window0 Hin)))).
Defined.

Lemma calcDisplace_before_blur_is_calcSpec_with_alpha_0_witness :
  doubleSpinBox_spec_scale (specTab (ui Sample.rescaled)) = Sample.two /\
  doubleSpinBox_spec_alphaMul (specTab (ui Sample.rescaled)) = Sample.one /\
  doubleSpinBox_displace_scale (displaceTab (ui Sample.rescaled)) = Sample.one /\
  exists vs wd,
    @calcSpec Sample.engine Sample.loaded = Returned tt vs /\
    @calcDisplace Sample.engine Sample.rescaled = Returned tt wd /\
    specmap vs = @calcDisplace_generated Sample.engine Sample.rescaled.
Proof.
  split; [vm_compute; reflexivity|].
  split; [vm_compute; reflexivity|].
  split; [vm_compute; reflexivity|].
  destruct (@calcDisplace_before_blur_is_calcSpec_with_alpha_0 Sample.engine
              Sample.rescaled Sample.loaded)
    as (vs & wd & Hs & Hd & Heq & _); try (vm_compute; reflexivity).
  exists vs, wd. auto.
Defined.

(** ** Reasoning about slots *)

Lemma bind_Returned {A B} (c : M A) (k : A -> M B) w b w' :
  bind c k w = Returned b w' ->
  exists a w1, c w = Returned a w1 /\ k a w1 = Returned b w'.
Proof.
  unfold bind. destruct (c w) as [a w1| |]; try discriminate.
  intros Hk. now exists a, w1.
Qed.

Lemma bind_Thrown {A B} (c : M A) (k : A -> M B) w e w' :
  bind c k w = Thrown e w' ->
  c w = Thrown e w' \/ exists a w1, c w = Returned a w1 /\ k a w1 = Thrown e w'.
Proof.
  unfold bind. destruct (c w) as [a w1|e1 w1|]; try discriminate.
  - intros Hk. right. now exists a, w1.
  - intros [= -> ->]. now left.
Qed.

Lemma bind_of_Returned {A B} (c : M A) (k : A -> M B) w a w1 :
  c w = Returned a w1 -> bind c k w = k a w1.
Proof. unfold bind. now intros ->. Qed.

Section Keeps.
Context {X : Type} (mayThrow : bool) (f : MainWindow -> X).

Lemma keeps_ret {A} (a : A) : keeps mayThrow f (ret a).
Proof. intros w. reflexivity. Qed.

Lemma keeps_tooDeep {A} : keeps mayThrow f (@tooDeep A).
Proof. intros w. exact I. Qed.

Lemma keeps_modify (g : MainWindow -> MainWindow) :
  (forall w, f (g w) = f w) -> keeps mayThrow f (modify g).
Proof. intros Hg w. apply Hg. Qed.

Lemma keeps_gets {A} (g : MainWindow -> A) : keeps mayThrow f (gets g).
Proof. intros w. reflexivity. Qed.

Lemma keeps_bind {A B} (c : M A) (k : A -> M B) :
  keeps mayThrow f c -> (forall a, keeps mayThrow f (k a)) ->
  keeps mayThrow f (bind c k).
Proof.
  intros Hc Hk w. unfold bind. specialize (Hc w).
  destruct (c w) as [a w1| |]; auto.
  specialize (Hk a w1). destruct (k a w1); auto. congruence.
Qed.

Lemma keeps_when (b : bool) (c : M unit) :
  keeps mayThrow f c -> keeps mayThrow f (when b c).
Proof. destruct b; cbn; auto using keeps_ret. Qed.

Lemma keeps_dep {A} (c : MainWindow -> M A) :
  (forall v, keeps mayThrow f (c v)) -> keeps mayThrow f (fun w => c w w).
Proof. intros Hc w. apply (Hc w w). Qed.

Lemma keeps_Returned {A} (c : M A) w a w' :
  keeps mayThrow f c -> c w = Returned a w' -> f w' = f w.
Proof. intros Hc Hr. specialize (Hc w). now rewrite Hr in Hc. Qed.

End Keeps.

Lemma keeps_never_throws {A X} (f : MainWindow -> X) (c : M A) w e w' :
  keeps false f c -> c w <> Thrown e w'.
Proof. intros Hc Hr. specialize (Hc w). rewrite Hr in Hc. discriminate. Qed.

Lemma keeps_weaken {A X Y} (b : bool) (f : MainWindow -> X) (g : MainWindow -> Y)
    (p : X -> Y) (c : M A) :
  (forall w, g w = p (f w)) -> keeps false f c -> keeps b g c.
Proof.
  intros Hp Hc w. specialize (Hc w). destruct (c w); auto; try discriminate.
  rewrite !Hp. now f_equal.
Qed.

(** Splits conjunctions only; equalities are left to be computed. *)
Ltac conj_split := repeat match goal with |- _ /\ _ => split end.

Ltac keep_field :=
  intros;
  repeat match goal with
         | |- context [if ?b then _ else _] => destruct b
         end;
  reflexivity.

Section KeptByPreview.
Context {E : Engine}.

Lemma calcNormal_kept : keeps false kept_by_preview calcNormal.
Proof. intros w. unfold calcNormal. destruct (isNull (input w)); reflexivity. Qed.

Lemma calcSpec_kept : keeps false kept_by_preview calcSpec.
Proof. intros w. unfold calcSpec. destruct (isNull (input w)); reflexivity. Qed.

Lemma calcDisplace_kept : keeps false kept_by_preview calcDisplace.
Proof.
  intros w. unfold calcDisplace. destruct (isNull (input w)); [reflexivity|].
  cbn. destruct (checkBox_displace_blur _); reflexivity.
Qed.

Lemma calcSsao_kept : keeps false kept_by_preview calcSsao.
Proof.
  intros w. unfold calcSsao. destruct (isNull (input w)) eqn:Hin; [reflexivity|].
  pose proof (calcNormal_kept w) as Hn.
  unfold bind, when. destruct (isNull (normalmap w)).
  - destruct (calcNormal w) as [[] w1| |]; try discriminate; try exact I.
    cbn in *. exact Hn.
  - reflexivity.
Qed.

Lemma elapsed_kept : keeps false kept_by_preview elapsed.
Proof. intros w. unfold elapsed. destruct (timerReadings (world w)); reflexivity. Qed.

Lemma calcAndPreview_kept status calc store mapType tab pv :
  keeps false kept_by_preview calc ->
  (forall t w, kept_by_preview (store t w) = kept_by_preview w) ->
  (forall t, keeps false kept_by_preview (pv t)) ->
  keeps false kept_by_preview (calcAndPreview status calc store mapType tab pv).
Proof.
  intros Hcalc Hstore Hpv. unfold calcAndPreview.
  apply keeps_bind; [apply keeps_modify; reflexivity|intros _].
  apply keeps_bind; [exact Hcalc|intros _].
  apply keeps_bind; [exact elapsed_kept|intros t].
  apply keeps_bind; [apply keeps_modify; apply Hstore|intros _].
  apply keeps_bind; [apply keeps_modify|intros _].
  { intros w. unfold displayCalcTime. cbv zeta. destruct (dlt _ _); reflexivity. }
  apply keeps_bind; [apply keeps_modify; reflexivity|intros _].
  apply Hpv.
Qed.

Lemma preview_kept depth : forall tab, keeps false kept_by_preview (preview depth tab).
Proof.
  induction depth as [|d IH]; intros tab; [apply keeps_tooDeep|].
  cbn [preview].
  apply keeps_bind; [apply keeps_modify; reflexivity|intros _].
  repeat match goal with
         | |- keeps _ _ (if ?b then _ else _) => destruct b
         end.
  - apply keeps_modify. keep_field.
  - apply keeps_bind; [|intros _; apply keeps_bind;
                         [apply keeps_modify; reflexivity
                         |intros _; apply keeps_modify; reflexivity]].
    apply (keeps_dep _ _ (fun v => when _ _)). intros v. apply keeps_when.
    apply calcAndPreview_kept; [apply calcNormal_kept|reflexivity|exact IH].
  - apply keeps_bind; [|intros _; apply keeps_modify; reflexivity].
    apply (keeps_dep _ _ (fun v => when _ _)). intros v. apply keeps_when.
    apply calcAndPreview_kept; [apply calcSpec_kept|reflexivity|exact IH].
  - apply keeps_bind; [|intros _; apply keeps_modify; reflexivity].
    apply (keeps_dep _ _ (fun v => when _ _)). intros v. apply keeps_when.
    apply calcAndPreview_kept; [apply calcDisplace_kept|reflexivity|exact IH].
  - apply keeps_bind; [|intros _; apply keeps_modify; reflexivity].
    apply (keeps_dep _ _ (fun v => when _ _)). intros v. apply keeps_when.
    apply calcAndPreview_kept; [apply calcSsao_kept|reflexivity|exact IH].
  - apply keeps_ret.
Qed.

End KeptByPreview.

Section KeptByLoad.
Context {E : Engine}.

Lemma calcNormalAndPreview_kept depth :
  keeps false kept_by_preview (calcNormalAndPreview depth).
Proof.
  apply calcAndPreview_kept; [apply calcNormal_kept|reflexivity|apply preview_kept].
Qed.

Lemma calcSpecAndPreview_kept depth :
  keeps false kept_by_preview (calcSpecAndPreview depth).
Proof.
  apply calcAndPreview_kept; [apply calcSpec_kept|reflexivity|apply preview_kept].
Qed.

Lemma calcDisplaceAndPreview_kept depth :
  keeps false kept_by_preview (calcDisplaceAndPreview depth).
Proof.
  apply calcAndPreview_kept; [apply calcDisplace_kept|reflexivity|apply preview_kept].
Qed.

Lemma calcSsaoAndPreview_kept depth :
  keeps false kept_by_preview (calcSsaoAndPreview depth).
Proof.
  apply calcAndPreview_kept; [apply calcSsao_kept|reflexivity|apply preview_kept].
Qed.

Lemma autoUpdate_kept depth : keeps false kept_by_preview (autoUpdate depth).
Proof.
  intros w. unfold autoUpdate.
  destruct (_ || _); [reflexivity|].
  cbv zeta.
  destruct (_ =? 0); [reflexivity|].
  destruct (_ =? 1);
    [apply (keeps_when _ _ _ _ (calcNormalAndPreview_kept depth) w)|].
  destruct (_ =? 2);
    [apply (keeps_when _ _ _ _ (calcSpecAndPreview_kept depth) w)|].
  destruct (_ =? 3);
    [apply (keeps_when _ _ _ _ (calcDisplaceAndPreview_kept depth) w)|].
  destruct (_ =? 4);
    [apply (keeps_when _ _ _ _ (calcSsaoAndPreview_kept depth) w)|].
  reflexivity.
Qed.

Lemma displayChannelIntensity_kept : keeps false kept_by_preview displayChannelIntensity.
Proof.
  intros w. unfold displayChannelIntensity.
  destruct (isNull (input w)); [reflexivity|].
  apply (preview_kept 1 0 (set_channelIntensity _ w)).
Qed.

(** What load's setValue leaves behind. *)
Lemma setValue_Returned depth v w w' :
  spinBox_largeDetailScale_setValue depth v w = Returned tt w' ->
  kept_by_item w' = kept_by_item w /\
  input w' = input w /\
  checkBox_displayChannelIntensity (frame (ui w')) =
    checkBox_displayChannelIntensity (frame (ui w)) /\
  normalTab (ui w') =
    set_spinBox_largeDetailScale
      (QSpinBox.setValue v (spinBox_largeDetailScale (normalTab (ui w))))
      (normalTab (ui w)).
Proof.
  unfold spinBox_largeDetailScale_setValue. cbv zeta.
  destruct (_ =? _).
  - intros [= <-]. repeat split.
  - intros Hr. apply (keeps_Returned _ _ _ _ _ _ (autoUpdate_kept depth)) in Hr.
    unfold kept_by_preview in Hr. cbn in Hr.
    injection Hr as Hin Hn Hs Hd Hss Hq Hau Hth Hdc Htab Hen Hexp Hlp Hstop Hdisk Hdia Hpe.
    unfold kept_by_item. rewrite Hin, Hn, Hq, Hau, Hstop, Hpe, Hdc.
    repeat split.
Qed.

End KeptByLoad.

(** ** Loading *)

Section Load.
Context {E : Engine}.

Lemma preview_0 d w : preview (S d) 0 w = Returned tt (preview_input w).
Proof. reflexivity. Qed.

Lemma displayChannelIntensity_eq w :
  displayChannelIntensity w =
  Returned tt
    (if isNull (input w) then w
     else preview_input (set_channelIntensity (displayChannelIntensity_image w) w)).
Proof.
  unfold displayChannelIntensity. destruct (isNull (input w)); [reflexivity|].
  apply preview_0.
Qed.

Lemma load_finish_eq w :
  load_finish w = Returned true (load_fit (load_show (load_clear w))).
Proof.
  unfold load_finish.
  repeat (unfold bind at 1; cbn [modify]).
  fold (load_clear w). unfold load_show.
  rewrite displayChannelIntensity_eq, (preview_0 0).
  destruct (checkBox_displayChannelIntensity _); reflexivity.
Qed.

Lemma preview_input_facts w :
  kept_by_finish (preview_input w) = kept_by_finish w /\
  four_maps (preview_input w) = four_maps w /\
  channelIntensity (preview_input w) = channelIntensity w /\
  tabWidget (frame (ui (preview_input w))) = tabWidget (frame (ui w)).
Proof.
  unfold preview_input. cbv zeta. destruct (_ && _); repeat split.
Qed.

Lemma load_clear_facts w :
  kept_by_finish (load_clear w) = kept_by_finish w /\
  four_maps (load_clear w) = (NullImage, NullImage, NullImage, NullImage) /\
  channelIntensity (load_clear w) = NullImage /\
  tabWidget (frame (ui (load_clear w))) = 0.
Proof. repeat split. Qed.

Lemma displayChannelIntensity_image_kept w w' :
  kept_by_finish w' = kept_by_finish w ->
  displayChannelIntensity_image w' = displayChannelIntensity_image w.
Proof.
  unfold kept_by_finish, kept_by_item. intros H. injection H; intros.
  unfold displayChannelIntensity_image. cbv zeta.
  repeat match goal with
         | Heq : _ = _ |- _ => rewrite Heq; clear Heq
         end.
  reflexivity.
Qed.

Lemma load_show_facts w :
  kept_by_finish (load_show w) = kept_by_finish w /\
  four_maps (load_show w) = four_maps w /\
  channelIntensity (load_show w) =
    (if checkBox_displayChannelIntensity (frame (ui w)) && negb (isNull (input w))
     then displayChannelIntensity_image w else channelIntensity w) /\
  tabWidget (frame (ui (load_show w))) = tabWidget (frame (ui w)).
Proof.
  unfold load_show.
  destruct (checkBox_displayChannelIntensity (frame (ui w))).
  - destruct (isNull (input w)); [repeat split|].
    destruct (preview_input_facts
                (set_channelIntensity (displayChannelIntensity_image w) w))
      as (H1 & H2 & H3 & H4).
    rewrite H1, H2, H3, H4. repeat split.
  - destruct (preview_input_facts w) as (H1 & H2 & H3 & H4).
    rewrite H1, H2, H3, H4. repeat split.
Qed.

Lemma load_fit_facts w :
  kept_by_finish (load_fit w) = kept_by_finish w /\
  four_maps (load_fit w) = four_maps w /\
  channelIntensity (load_fit w) = channelIntensity w /\
  tabWidget (frame (ui (load_fit w))) = tabWidget (frame (ui w)).
Proof.
  unfold load_fit. cbv zeta. destruct (_ || _); repeat split.
Qed.

Lemma load_finish_Returned w :
  exists w',
    load_finish w = Returned true w' /\
    kept_by_finish w' = kept_by_finish w /\
    four_maps w' = (NullImage, NullImage, NullImage, NullImage) /\
    channelIntensity w' =
      (if checkBox_displayChannelIntensity (frame (ui w)) && negb (isNull (input w))
       then displayChannelIntensity_image w' else NullImage) /\
    tabWidget (frame (ui w')) = 0.
Proof.
  eexists. split; [apply load_finish_eq|].
  destruct (load_clear_facts w) as (C1 & C2 & C3 & C4).
  destruct (load_show_facts (load_clear w)) as (S1 & S2 & S3 & S4).
  destruct (load_fit_facts (load_show (load_clear w))) as (F1 & F2 & F3 & F4).
  assert (kept_by_finish (load_fit (load_show (load_clear w))) = kept_by_finish w)
    as Hk by congruence.
  split; [exact Hk|]. split; [congruence|]. split; [|congruence].
  rewrite F3, S3, C3.
  rewrite (displayChannelIntensity_image_kept _ _ Hk).
  reflexivity.
Qed.

(** The load of a valid URL whose file cannot be decoded. *)
Lemma load_undecodable depth url w :
  QUrl.isValid url = true ->
  isNull (QImage_fromFile (disk (world w)) (QUrl.toLocalFile url)) = true ->
  load depth url w = Returned false (load_report url (load_decode url w)).
Proof. intros Hv Hn. unfold load. rewrite Hv. cbn. now rewrite Hn. Qed.

Lemma load_decodable depth url w :
  QUrl.isValid url = true ->
  isNull (QImage_fromFile (disk (world w)) (QUrl.toLocalFile url)) = false ->
  load depth url w =
  (load_keepLargeDetail depth ;; load_finish) (load_enable url (load_decode url w)).
Proof. intros Hv Hn. unfold load. rewrite Hv. cbn. now rewrite Hn. Qed.

Lemma load_invalid depth url w :
  QUrl.isValid url = false -> load depth url w = Thrown "[load] invalid url!" w.
Proof. intros Hv. unfold load. now rewrite Hv. Qed.

Lemma load_keepLargeDetail_Returned depth w w' :
  load_keepLargeDetail depth w = Returned tt w' ->
  let s := Z.max (width (input w)) (height (input w)) in
  kept_by_item w' = kept_by_item w /\
  input w' = input w /\
  checkBox_displayChannelIntensity (frame (ui w')) =
    checkBox_displayChannelIntensity (frame (ui w)) /\
  checkBox_keepLargeDetail (normalTab (ui w')) = negb (s <? 300) /\
  spinBox_largeDetailScale (normalTab (ui w')) =
    QSpinBox.setValue (if s >? 2300 then 20 else load_linearScale s)
      (spinBox_largeDetailScale (normalTab (ui w))).
Proof.
  unfold load_keepLargeDetail. cbv zeta.
  set (s := Z.max (width (input w)) (height (input w))).
  destruct (s <? 300) eqn:Hs.
  - intros Hr. apply setValue_Returned in Hr.
    destruct Hr as (Hk & Hin & Hdc & Hn). rewrite Hn.
    assert ((s >? 2300) = false) as ->.
    { apply Z.ltb_lt in Hs. rewrite Z.gtb_ltb. apply Z.ltb_ge. lia. }
    split; [exact Hk|]. split; [exact Hin|]. split; [exact Hdc|].
    split; reflexivity.
  - destruct (s >? 2300) eqn:Hb; intros Hr; apply setValue_Returned in Hr;
      destruct Hr as (Hk & Hin & Hdc & Hn); rewrite Hn;
      (split; [exact Hk|]); (split; [exact Hin|]); (split; [exact Hdc|]);
      split; reflexivity.
Qed.

Lemma kept_by_finish_eq w w' :
  kept_by_finish w' = kept_by_finish w ->
  kept_by_item w' = kept_by_item w /\ input w' = input w /\
  normalTab (ui w') = normalTab (ui w) /\ world w' = world w /\
  checkBox_displayChannelIntensity (frame (ui w')) =
    checkBox_displayChannelIntensity (frame (ui w)).
Proof.
  unfold kept_by_finish, kept_by_item. intros H. injection H; intros.
  repeat split; congruence.
Qed.

Lemma load_enable_facts url w :
  let w0 := load_enable url (load_decode url w) in
  input w0 = QImage_fromFile (disk (world w)) (QUrl.toLocalFile url) /\
  kept_by_item w0 = kept_by_item w /\
  normalTab (ui w0) = normalTab (ui w) /\
  world w0 = world w /\
  checkBox_displayChannelIntensity (frame (ui w0)) =
    checkBox_displayChannelIntensity (frame (ui w)).
Proof.
  unfold load_enable, load_decode. cbv zeta.
  destruct (QUrl.isEmpty _); repeat split.
Qed.

(** Everything the theorems below use about a load that returned true. *)
Lemma load_Returned_true depth url w w' :
  load depth url w = Returned true w' ->
  let decoded := QImage_fromFile (disk (world w)) (QUrl.toLocalFile url) in
  let s := Z.max (width decoded) (height decoded) in
  QUrl.isValid url = true /\ isNull decoded = false /\ input w' = decoded /\
  kept_by_item w' = kept_by_item w /\
  checkBox_keepLargeDetail (normalTab (ui w')) = negb (s <? 300) /\
  spinBox_largeDetailScale (normalTab (ui w')) =
    QSpinBox.setValue (if s >? 2300 then 20 else load_linearScale s)
      (spinBox_largeDetailScale (normalTab (ui w))) /\
  (normalmap w' = NullImage /\ specmap w' = NullImage /\
   displacementmap w' = NullImage /\ ssaomap w' = NullImage) /\
  channelIntensity w' =
    (if checkBox_displayChannelIntensity (frame (ui w))
     then displayChannelIntensity_image w' else NullImage).
Proof.
  intros Hr decoded s.
  destruct (QUrl.isValid url) eqn:Hv;
    [|rewrite (load_invalid _ _ _ Hv) in Hr; discriminate].
  destruct (isNull decoded) eqn:Hn;
    [rewrite (load_undecodable _ _ _ Hv Hn) in Hr; discriminate|].
  rewrite (load_decodable _ _ _ Hv Hn) in Hr.
  apply bind_Returned in Hr. destruct Hr as ([] & w1 & Hk & Hf).
  apply load_keepLargeDetail_Returned in Hk. cbv zeta in Hk.
  destruct (load_enable_facts url w) as (Hin0 & Hk0 & Hn0 & _ & Hdc0).
  cbv zeta in Hin0, Hk0, Hn0, Hdc0.
  set (w0 := load_enable url (load_decode url w)) in *.
  destruct Hk as (Hk1 & Hin1 & Hdc1 & Hchk & Hbox).
  destruct (load_finish_Returned w1) as (w2 & Hf2 & Hk2 & Hmaps & Hci & _).
  rewrite Hf2 in Hf. injection Hf as <-.
  apply kept_by_finish_eq in Hk2. destruct Hk2 as (Hk2 & Hin2 & Hn2 & _ & Hdc2).
  unfold four_maps in Hmaps. injection Hmaps as Hm1 Hm2 Hm3 Hm4.
  fold decoded in Hin0. rewrite Hin0 in Hchk, Hbox. fold s in Hchk, Hbox.
  rewrite Hn0 in Hbox.
  split; [reflexivity|]. split; [reflexivity|].
  split; [congruence|]. split; [congruence|].
  split; [rewrite Hn2; exact Hchk|]. split; [rewrite Hn2; exact Hbox|].
  split; [auto|].
  rewrite Hci, Hdc1, Hdc0, Hin1, Hin0, Hn.
  destruct (checkBox_displayChannelIntensity (frame (ui w))); reflexivity.
Qed.

Lemma setValue_never_throws depth v w e w' :
  spinBox_largeDetailScale_setValue depth v w <> Thrown e w'.
Proof.
  unfold spinBox_largeDetailScale_setValue. cbv zeta.
  destruct (_ =? _); [discriminate|].
  apply (keeps_never_throws _ _ _ _ _ (autoUpdate_kept depth)).
Qed.

Lemma load_keepLargeDetail_never_throws depth w e w' :
  load_keepLargeDetail depth w <> Thrown e w'.
Proof.
  unfold load_keepLargeDetail. cbv zeta.
  destruct (_ <? 300); [apply setValue_never_throws|].
  destruct (_ >? 2300); apply setValue_never_throws.
Qed.

Lemma load_valid_never_throws depth url w e w' :
  QUrl.isValid url = true -> load depth url w <> Thrown e w'.
Proof.
  intros Hv Hr.
  destruct (isNull (QImage_fromFile (disk (world w)) (QUrl.toLocalFile url))) eqn:Hn.
  - rewrite (load_undecodable _ _ _ Hv Hn) in Hr. discriminate.
  - rewrite (load_decodable _ _ _ Hv Hn) in Hr.
    apply bind_Thrown in Hr. destruct Hr as [Hk|([] & w1 & _ & Hf)].
    + exact (load_keepLargeDetail_never_throws _ _ _ _ Hk).
    + destruct (load_finish_Returned w1) as (w2 & Hf2 & _).
      rewrite Hf2 in Hf. discriminate.
Qed.

Lemma load_Returned_false depth url w w' :
  load depth url w = Returned false w' ->
  QUrl.isValid url = true /\
  isNull (QImage_fromFile (disk (world w)) (QUrl.toLocalFile url)) = true /\
  w' = load_report url (load_decode url w).
Proof.
  intros Hr.
  destruct (QUrl.isValid url) eqn:Hv;
    [|rewrite (load_invalid _ _ _ Hv) in Hr; discriminate].
  destruct (isNull (QImage_fromFile (disk (world w)) (QUrl.toLocalFile url))) eqn:Hn.
  - rewrite (load_undecodable _ _ _ Hv Hn) in Hr. injection Hr as <-. auto.
  - rewrite (load_decodable _ _ _ Hv Hn) in Hr.
    apply bind_Returned in Hr. destruct Hr as ([] & w1 & _ & Hf).
    destruct (load_finish_Returned w1) as (w2 & Hf2 & _).
    rewrite Hf2 in Hf. discriminate.
Qed.

(** The double computation of line 159 is the exact value of
    -0.037 * s + 100 with its fraction dropped, for every longest side up
    to 2300. *)
Lemma load_linearScale_truncates s :
  0 <= s <= 2300 -> load_linearScale s = (100000 - 37 * s) ÷ 1000.
Proof.
  intros Hs.
  assert (forallb (fun n => load_linearScale (Z.of_nat n)
                            =? (100000 - 37 * Z.of_nat n) ÷ 1000)
            (seq 0 2301) = true) as Hall by (vm_compute; reflexivity).
  rewrite forallb_forall in Hall.
  specialize (Hall (Z.to_nat s)).
  rewrite Z2Nat.id in Hall by lia.
  apply Z.eqb_eq, Hall, in_seq. lia.
Qed.

Lemma load_scale_bounds s : 1 <= s -> 14 <= load_scale s <= 99.
Proof.
  intros Hs. unfold load_scale.
  destruct (s >? 2300) eqn:Hb; [lia|].
  rewrite Z.gtb_ltb in Hb. apply Z.ltb_ge in Hb.
  rewrite Z.quot_div_nonneg by lia.
  split.
  - apply Z.div_le_lower_bound; lia.
  - apply Z.lt_succ_r, Z.div_lt_upper_bound; lia.
Qed.

(** C1, refuted as stated: for the 300 x 200 sample image the scale that
    load sets is 88, while -0.037 * 300 + 100 = 88.9 rounds to 89. *)
Lemma load_scale_is_not_rounded :
  exists w',
    @load Sample.engine 1 Sample.pebble Sample.window0 = Returned true w' /\
    Z.max (width (input w')) (height (input w')) = 300 /\
    QSpinBox.value (spinBox_largeDetailScale (normalTab (ui w'))) = 88 /\
    rounded_linearScale 300 = 89.
Proof. eexists. conj_split; vm_compute; reflexivity. Qed.

(** C1, amended. After a successful load, with s the longest side of the
    loaded image: keep-large-detail is unchecked when s < 300 and checked
    otherwise; the large-detail scale is set, through the spin box, to 20
    when s > 2300 and otherwise, also when s < 300, to -0.037 * s + 100
    with its fraction dropped; a spin box whose range includes 14..99
    shows exactly that value. *)
Theorem load_sets_keepLargeDetail depth url w w' :
  load depth url w = Returned true w' ->
  let s := Z.max (width (input w')) (height (input w')) in
  let box := spinBox_largeDetailScale (normalTab (ui w)) in
  checkBox_keepLargeDetail (normalTab (ui w')) = negb (s <? 300) /\
  load_scale s = (if s >? 2300 then 20 else load_linearScale s) /\
  spinBox_largeDetailScale (normalTab (ui w')) = QSpinBox.setValue (load_scale s) box /\
  (QSpinBox.minimum box <= 14 -> 99 <= QSpinBox.maximum box ->
   QSpinBox.value (spinBox_largeDetailScale (normalTab (ui w'))) = load_scale s).
Proof.
  intros Hr s box.
  apply load_Returned_true in Hr. cbv zeta in Hr.
  destruct Hr as (_ & Hn & Hin & _ & Hchk & Hbox & _).
  rewrite <- Hin in Hchk, Hbox, Hn. fold s in Hchk, Hbox. fold box in Hbox.
  assert (1 <= s) as Hs.
  { unfold s. destruct (input w'); [discriminate|]. cbn. lia. }
  assert (load_scale s = if s >? 2300 then 20 else load_linearScale s) as Heq.
  { unfold load_scale. destruct (s >? 2300) eqn:Hb; [reflexivity|].
    rewrite Z.gtb_ltb in Hb. apply Z.ltb_ge in Hb. symmetry. apply load_linearScale_truncates. lia. }
  rewrite <- Heq in Hbox.
  repeat split; try assumption.
  intros Hlo Hhi. rewrite Hbox. cbn.
  pose proof (load_scale_bounds s Hs). lia.
Qed.

(** C7, refuted as stated: load throws when it is handed an invalid URL,
    such as the empty one. *)
Lemma load_throws_on_invalid_url :
  QUrl.isValid QUrl.empty = false /\
  @load Sample.engine 1 QUrl.empty Sample.window0 =
    Thrown "[load] invalid url!" Sample.window0.
Proof. split; reflexivity. Qed.

(** C7, amended. For a valid URL load never throws, and a file that
    cannot be decoded makes it return false after it has put the error in
    the status bar and shown a dialog whose text names the likely cause,
    the TGA hint exactly for a suffix that is tga in any letter case.  For
    an invalid URL load leaves by the exception "[load] invalid url!". *)
Theorem load_reports_failures depth url w :
  (QUrl.isValid url = false ->
   load depth url w = Thrown "[load] invalid url!" w) /\
  (QUrl.isValid url = true ->
   (forall e w', load depth url w <> Thrown e w') /\
   (isNull (QImage_fromFile (disk (world w)) (QUrl.toLocalFile url)) = true ->
    exists w',
      load depth url w = Returned false w' /\
      statusBar (frame (ui w')) = "Error: Image " +++ QUrl.fileName url +++ " NOT loaded!" /\
      dialogs (world w') =
        (dialogs (world w) ++
         [("Error while loading image",
           "Image not loaded!" +++ nl +++
           (if (QString.toLower (QFileInfo.suffix (QUrl.toLocalFile url)) =? "tga")%string
            then "Only uncompressed TGA files are supported."
            else "Most likely the image format is not supported."))])%list)).
Proof.
  split; [apply load_invalid|].
  intros Hv. split; [intros e w'; apply load_valid_never_throws; exact Hv|].
  intros Hn. eexists. split; [apply load_undecodable; assumption|].
  unfold load_report. cbv zeta.
  destruct (_ =? _)%string; split; reflexivity.
Qed.

(** C10. A valid URL whose file cannot be decoded makes load return false,
    and whenever load returns false the stored input is the null decode
    result, while the channel-intensity, normal, raw-intensity, specular,
    displacement and ambient-occlusion maps are what they were before. *)
Theorem failed_load_drops_input_keeps_maps depth url w :
  (QUrl.isValid url = true ->
   isNull (QImage_fromFile (disk (world w)) (QUrl.toLocalFile url)) = true ->
   exists w', load depth url w = Returned false w') /\
  (forall w',
   load depth url w = Returned false w' ->
   input w' = QImage_fromFile (disk (world w)) (QUrl.toLocalFile url) /\
   isNull (input w') = true /\
   channelIntensity w' = channelIntensity w /\
   normalmap w' = normalmap w /\
   normalmapRawIntensity w' = normalmapRawIntensity w /\
   specmap w' = specmap w /\
   displacementmap w' = displacementmap w /\
   ssaomap w' = ssaomap w).
Proof.
  split.
  - intros Hv Hn. eexists. apply load_undecodable; assumption.
  - intros w' Hr. apply load_Returned_false in Hr. destruct Hr as (_ & Hn & ->).
    split; [reflexivity|]. split; [exact Hn|]. repeat split.
Qed.

End Load.

Lemma failed_load_drops_input_keeps_maps_witness :
  @load Sample.engine 1 Sample.missing Sample.withSpec
    = Returned false Sample.afterMissing /\
  isNull (input Sample.withSpec) = false /\
  isNull (input Sample.afterMissing) = true /\
  specmap Sample.afterMissing = specmap Sample.withSpec.
Proof.
  assert (@load Sample.engine 1 Sample.missing Sample.withSpec
          = Returned false Sample.afterMissing) as Hrun by (vm_compute; reflexivity).
  split; [exact Hrun|]. split; [vm_compute; reflexivity|].
  destruct (proj2 (@failed_load_drops_input_keeps_maps Sample.engine 1 Sample.missing
                     Sample.withSpec) _ Hrun)
    as (_ & Hnull & _ & _ & _ & Hspec & _).
  split; [exact Hnull|exact Hspec].
Defined.

Lemma load_sets_keepLargeDetail_witness :
  @load Sample.engine 1 Sample.brick Sample.window0 = Returned true Sample.loaded /\
  checkBox_keepLargeDetail (normalTab (ui Sample.loaded)) = true /\
  QSpinBox.value (spinBox_largeDetailScale (normalTab (ui Sample.loaded))) = 81.
Proof.
  assert (@load Sample.engine 1 Sample.brick Sample.window0
          = Returned true Sample.loaded) as Hrun by (vm_compute; reflexivity).
  split; [exact Hrun|].
  destruct (load_sets_keepLargeDetail _ _ _ _ Hrun) as (Hchk & _ & _ & Hval).
  split; [exact Hchk|].
  apply Hval; vm_compute; discriminate.
Defined.

Lemma load_reports_failures_witness :
  exists w',
    @load Sample.engine 1 Sample.missing Sample.window0 = Returned false w' /\
    dialogs (world w') =
      [("Error while loading image",
        "Image not loaded!" +++ nl +++ "Only uncompressed TGA files are supported.")].
Proof.
  destruct (@load_reports_failures Sample.engine 1 Sample.missing Sample.window0)
    as [_ Hvalid].
  assert (QUrl.isValid Sample.missing = true) as Hv by (vm_compute; reflexivity).
  destruct (Hvalid Hv) as [_ Hfail].
  assert (isNull (@QImage_fromFile Sample.engine (disk (world Sample.window0))
                    (QUrl.toLocalFile Sample.missing)) = true) as Hn
    by (vm_compute; reflexivity).
  destruct (Hfail Hn) as (w' & Hr & _ & Hd).
  exists w'. split; [exact Hr|]. exact Hd.
Defined.

(** ** Auto-update *)

Section AutoUpdate.
Context {E : Engine}.

Lemma images_eq w w' :
  images w' = images w ->
  input w' = input w /\ forall tab, map_of_tab tab w' = map_of_tab tab w.
Proof.
  unfold images. intros [= Hi Hc Hn Hr Hs Hd Ha]. split; [exact Hi|].
  intros tab. unfold map_of_tab. now rewrite Hn, Hs, Hd, Ha.
Qed.

Lemma preview_computes_images tab w w' :
  images w' = images w -> preview_computes tab w' = preview_computes tab w.
Proof.
  intros H. apply images_eq in H. destruct H as [Hi Hm].
  unfold preview_computes. now rewrite Hi, Hm.
Qed.

(** preview(tab) computes nothing when the tab's map is there. *)
Lemma preview_without_computing d tab w :
  1 <= tab <= 4 -> preview_computes tab w = false ->
  exists w', preview (S d) tab w = Returned tt w' /\ images w' = images w.
Proof.
  intros Htab Hc. unfold preview_computes, map_of_tab in Hc.
  cbn [preview]. unfold bind, modify.
  assert (tab = 1 \/ tab = 2 \/ tab = 3 \/ tab = 4) as Hcases by lia.
  destruct Hcases as [-> | [-> | [-> | ->]]]; cbn in Hc |- *; rewrite Hc; cbn;
    eexists; split; reflexivity.
Qed.

Lemma calc_of_tab_showMessage status tab w :
  calc_of_tab tab (showMessage status w) = map_state (showMessage status) (calc_of_tab tab w).
Proof.
  unfold calc_of_tab.
  repeat match goal with |- context [if ?b then _ else _] => destruct b end.
  - unfold calcNormal. cbn. destruct (isNull (input w)); reflexivity.
  - unfold calcSpec. cbn. destruct (isNull (input w)); reflexivity.
  - unfold calcDisplace. cbn. destruct (isNull (input w)); [reflexivity|].
    cbn. destruct (checkBox_displace_blur _); reflexivity.
  - unfold calcSsao. cbn. destruct (isNull (input w)); [reflexivity|].
    unfold bind, when, modify. cbn.
    destruct (isNull (normalmap w)); [|reflexivity].
    unfold calcNormal. cbn. destruct (isNull (input w)); reflexivity.
Qed.

Lemma calcAndPreview_without_nesting status store mapType d tab w w1 :
  1 <= tab <= 4 ->
  (forall t w, images (store t w) = images w) ->
  calc_of_tab tab w = Returned tt w1 ->
  preview_computes tab w1 = false ->
  exists w',
    calcAndPreview status (calc_of_tab tab) store mapType tab (preview (S d)) w
      = Returned tt w' /\
    images w' = images w1.
Proof.
  intros Htab Hstore Hcalc Hc.
  unfold calcAndPreview. unfold bind at 1. cbn [modify].
  unfold bind at 1. rewrite calc_of_tab_showMessage, Hcalc. cbn [map_state].
  unfold bind at 1.
  set (w2 := showMessage status w1).
  assert (images w2 = images w1) as H2 by reflexivity.
  assert (exists t w3, elapsed w2 = Returned t w3 /\ images w3 = images w2)
    as (t & w3 & -> & H3).
  { unfold elapsed. destruct (timerReadings (world w2)); eexists; eexists; split; reflexivity. }
  unfold bind at 1. cbn [modify].
  unfold bind at 1. cbn [modify].
  unfold bind at 1. cbn [modify].
  set (w4 := on_enabled _ _).
  assert (images w4 = images w1) as H4.
  { unfold w4. transitivity (images (store (int_of_qint64 t) w3)).
    - unfold displayCalcTime. cbv zeta. destruct (dlt _ _); reflexivity.
    - rewrite Hstore. congruence. }
  destruct (preview_without_computing d tab w4 Htab) as (w' & Hp & Hi).
  { rewrite (preview_computes_images _ _ _ H4). exact Hc. }
  exists w'. split; [exact Hp|congruence].
Qed.

Lemma autoUpdate_not_due depth w :
  autoUpdate_due w = false -> autoUpdate depth w = Returned tt w.
Proof.
  unfold autoUpdate_due, autoUpdate, lastCalctime_of_tab. cbv zeta.
  destruct (checkBox_autoUpdate _); [|reflexivity].
  destruct (checkBox_autoUpdate_enabled _); [|reflexivity].
  cbn [negb orb andb].
  set (tab := tabWidget (frame (ui w))).
  destruct (tab =? 0) eqn:H0; [reflexivity|].
  destruct (tab =? 1) eqn:H1.
  { apply Z.eqb_eq in H1. rewrite H1. cbn. now intros ->. }
  destruct (tab =? 2) eqn:H2.
  { apply Z.eqb_eq in H2. rewrite H2. cbn. now intros ->. }
  destruct (tab =? 3) eqn:H3.
  { apply Z.eqb_eq in H3. rewrite H3. cbn. now intros ->. }
  destruct (tab =? 4) eqn:H4.
  { apply Z.eqb_eq in H4. rewrite H4. cbn. now intros ->. }
  reflexivity.
Qed.



Lemma slots_of_unconnected depth p :
  connected p = false -> slots_of depth p = ret tt.
Proof. intros H. unfold slots_of. now rewrite H. Qed.

Lemma slots_of_connected depth p :
  connected p = true ->
  slots_of depth p = autoUpdate depth \/
  slots_of depth p = (autoUpdate depth ;; modify normalmapSizeChanged).
Proof. destruct p; cbn; intros H; auto; discriminate H. Qed.

(** The two earlier models of a single widget are instances of [edit]. *)
Lemma edit_spec_scale_is_edit depth v w :
  edit depth (Edit_doubleSpinBox_spec_scale v) w = edit_spec_scale depth v w.
Proof.
  unfold edit, edit_spec_scale, emits, double_differs, slots_of. cbn [connected negb].
  cbv zeta. destruct (SFcompare v _) as [[| |]|]; reflexivity.
Qed.

Lemma setValue_is_edit depth v w :
  edit depth (Edit_spinBox_largeDetailScale v) w =
  spinBox_largeDetailScale_setValue depth v w.
Proof.
  unfold edit, spinBox_largeDetailScale_setValue, emits, slots_of.
  cbn [connected negb]. cbv zeta. destruct (_ =? _); reflexivity.
Qed.




End AutoUpdate.



(** ** Saving *)

Section Strings.

Lemma append_assoc (a b c : string) : (a +++ b) +++ c = a +++ (b +++ c).
Proof. induction a as [|x a IH]; cbn; [reflexivity|now rewrite IH]. Qed.

Lemma afterLast_app c s t :
  QString.afterLast c (s +++ t) =
  match QString.afterLast c t with
  | Some r => Some r
  | None => option_map (fun r => r +++ t) (QString.afterLast c s)
  end.
Proof.
  induction s as [|a s IH]; cbn.
  - destruct (QString.afterLast c t); reflexivity.
  - rewrite IH. destruct (QString.afterLast c t); [reflexivity|].
    destruct (QString.afterLast c s); cbn; [reflexivity|].
    destruct (Ascii.eqb a c); reflexivity.
Qed.

(** What follows the last [c] holds no [c]. *)
Lemma afterLast_afterLast c s r :
  QString.afterLast c s = Some r -> QString.afterLast c r = None.
Proof.
  revert r. induction s as [|a s IH]; cbn; [discriminate|].
  intros r. destruct (QString.afterLast c s) as [r'|] eqn:Hs.
  - intros [= <-]. now apply IH.
  - destruct (Ascii.eqb a c); [|discriminate]. now intros [= <-].
Qed.

Lemma beforeFirst_free c d s :
  QString.afterLast d s = None \/ c = d ->
  QString.afterLast d (QString.beforeFirst c s) = None.
Proof.
  induction s as [|a s IH]; cbn; [reflexivity|].
  intros H. destruct (Ascii.eqb a c) eqn:Hac; [reflexivity|]. cbn.
  assert (QString.afterLast d s = None \/ c = d) as H'.
  { destruct H as [H|H]; [|now right]. left.
    destruct (QString.afterLast d s); [discriminate|reflexivity]. }
  rewrite (IH H').
  destruct H as [H| ->].
  - destruct (QString.afterLast d s); [discriminate|].
    destruct (Ascii.eqb a d); [discriminate|reflexivity].
  - now rewrite Hac.
Qed.

Lemma fileName_free path : QString.afterLast "/" (QFileInfo.fileName path) = None.
Proof.
  unfold QFileInfo.fileName.
  destruct (QString.afterLast "/" path) eqn:H; [|exact H].
  now apply afterLast_afterLast in H.
Qed.

Lemma baseName_free path :
  QString.afterLast "/" (QFileInfo.baseName path) = None /\
  QString.afterLast "." (QFileInfo.baseName path) = None.
Proof.
  unfold QFileInfo.baseName. split; apply beforeFirst_free.
  - left. apply fileName_free.
  - now right.
Qed.

(** A name put together as save does, around a non-empty kind that ends
    in a dot, has the suffix png. *)
Lemma suffix_of_png_name dir path kind :
  QString.afterLast "/" (kind +++ "png") = None ->
  QString.afterLast "." (kind +++ "png") = Some "png" ->
  QFileInfo.suffix (dir +++ "/" +++ QFileInfo.baseName path +++ kind +++ "png") = "png".
Proof.
  intros Hslash Hdot.
  destruct (baseName_free path) as [Hb1 Hb2].
  set (base := QFileInfo.baseName path) in *.
  assert (QString.afterLast "/" (base +++ kind +++ "png") = None) as Hrest.
  { rewrite afterLast_app, Hslash, Hb1. reflexivity. }
  unfold QFileInfo.suffix, QFileInfo.fileName.
  rewrite afterLast_app.
  change ("/" +++ base +++ kind +++ "png")
    with (String "/" (base +++ kind +++ "png")).
  cbn [QString.afterLast]. rewrite Hrest. cbn.
  rewrite afterLast_app, Hdot. reflexivity.
Qed.

End Strings.

Section Save.
Context {E : Engine}.

Lemma save_map_Returned map generate name title failed saved w :
  exists w',
    save_map map generate name title failed saved w = Returned tt w' /\
    (disk (world w') = disk (world w) \/
     disk (world w') = (disk (world w) ++ [(name, map w)])%list) /\
    console (world w') = console (world w) /\
    kept_by_item w' = kept_by_item w /\
    images w' = images w /\
    queueTab (ui w') = queueTab (ui w).
Proof.
  unfold save_map. destruct (_ && _).
  - unfold bind, QImage_save_to, modify. destruct (QImage_save _ _ _); cbn;
      eexists; (split; [reflexivity|]); repeat split; auto.
  - exists w. repeat split; auto.
Qed.

Lemma save_Returned url w :
  QUrl.isValid url = true ->
  let path := QUrl.toLocalFile url in
  exists w',
    save url w = Returned tt w' /\
    (forall name img,
       In (name, img) (disk (world w')) ->
       In (name, img) (disk (world w)) \/
       name = save_name path "_normal." \/
       name = save_name path "_spec." \/
       name = save_name path "_displace.") /\
    console (world w') = console (world w) /\
    kept_by_item w' = kept_by_item w /\
    images w' = images w.
Proof.
  intros Hv path. unfold save. rewrite Hv. cbn [negb]. cbv zeta. fold path.
  destruct (save_map_Returned normalmap checkBox_queue_generateNormal
              (save_name path "_normal.") "Error while saving Normalmap"
              "Normalmap not saved!" "Normalmap saved as " w)
    as (w1 & H1 & Hd1 & Hc1 & Hk1 & Hi1 & Hq1).
  destruct (save_map_Returned specmap checkBox_queue_generateSpec
              (save_name path "_spec.") "Error while saving Specularmap"
              "Specularmap not saved!" "Specularmap saved as " w1)
    as (w2 & H2 & Hd2 & Hc2 & Hk2 & Hi2 & Hq2).
  destruct (save_map_Returned displacementmap checkBox_queue_generateDisplace
              (save_name path "_displace.") "Error while saving Displacementmap"
              "Displacementmap not saved!" "Displacementmap saved as " w2)
    as (w3 & H3 & Hd3 & Hc3 & Hk3 & Hi3 & Hq3).
  rewrite (bind_of_Returned _ _ _ _ _ H1), (bind_of_Returned _ _ _ _ _ H2),
    (bind_of_Returned _ _ _ _ _ H3).
  eexists. split; [reflexivity|].
  set (wf := on_enabled _ _).
  assert (world wf = world w3) as Hw by reflexivity.
  assert (kept_by_item wf = kept_by_item w3) as Hkf by reflexivity.
  assert (images wf = images w3) as Hif by reflexivity.
  rewrite Hw. split; [|split; [congruence|split; congruence]].
  intros name img Hin.
  assert (In (name, img) (disk (world w2)) \/ name = save_name path "_displace.") as G3.
  { destruct Hd3 as [Hd3 | Hd3]; rewrite Hd3 in Hin; [now left|].
    apply in_app_or in Hin. destruct Hin as [Hin|[Heq|[]]]; [now left|].
    right. now injection Heq as <- _. }
  destruct G3 as [G3|G3]; [|tauto].
  assert (In (name, img) (disk (world w1)) \/ name = save_name path "_spec.") as G2.
  { destruct Hd2 as [Hd2 | Hd2]; rewrite Hd2 in G3; [now left|].
    apply in_app_or in G3. destruct G3 as [G3|[Heq|[]]]; [now left|].
    right. now injection Heq as <- _. }
  destruct G2 as [G2|G2]; [|tauto].
  destruct Hd1 as [Hd1 | Hd1]; rewrite Hd1 in G2; [now left|].
  apply in_app_or in G2. destruct G2 as [G2|[Heq|[]]]; [now left|].
  right; left. now injection Heq as <- _.
Qed.

Lemma save_map_disk map generate name title failed saved w :
  exists w',
    save_map map generate name title failed saved w = Returned tt w' /\
    disk (world w') =
      save_attempt (map w) (generate (queueTab (ui w))) name (disk (world w)) /\
    images w' = images w /\
    queueTab (ui w') = queueTab (ui w).
Proof.
  unfold save_map, save_attempt.
  destruct (negb (isNull (map w)) && generate (queueTab (ui w))); cbn [andb].
  - unfold bind, QImage_save_to, modify. destruct (QImage_save _ _ _); cbn;
      eexists; (split; [reflexivity|]); conj_split; reflexivity.
  - exists w. conj_split; reflexivity.
Qed.

(** What save leaves on the disk. *)
Lemma save_disk url w :
  QUrl.isValid url = true ->
  let path := QUrl.toLocalFile url in
  let q := queueTab (ui w) in
  exists w',
    save url w = Returned tt w' /\
    disk (world w') =
      save_attempt (displacementmap w) (checkBox_queue_generateDisplace q)
        (save_name path "_displace.")
        (save_attempt (specmap w) (checkBox_queue_generateSpec q)
           (save_name path "_spec.")
           (save_attempt (normalmap w) (checkBox_queue_generateNormal q)
              (save_name path "_normal.") (disk (world w)))).
Proof.
  intros Hv path q. unfold save. rewrite Hv. cbn [negb]. cbv zeta. fold path.
  destruct (save_map_disk normalmap checkBox_queue_generateNormal
              (save_name path "_normal.") "Error while saving Normalmap"
              "Normalmap not saved!" "Normalmap saved as " w)
    as (w1 & H1 & Hd1 & Hi1 & Hq1).
  destruct (save_map_disk specmap checkBox_queue_generateSpec
              (save_name path "_spec.") "Error while saving Specularmap"
              "Specularmap not saved!" "Specularmap saved as " w1)
    as (w2 & H2 & Hd2 & Hi2 & Hq2).
  destruct (save_map_disk displacementmap checkBox_queue_generateDisplace
              (save_name path "_displace.") "Error while saving Displacementmap"
              "Displacementmap not saved!" "Displacementmap saved as " w2)
    as (w3 & H3 & Hd3 & Hi3 & Hq3).
  rewrite (bind_of_Returned _ _ _ _ _ H1), (bind_of_Returned _ _ _ _ _ H2),
    (bind_of_Returned _ _ _ _ _ H3).
  eexists. split; [reflexivity|].
  set (wf := on_enabled _ _).
  change (disk (world wf)) with (disk (world w3)).
  assert (specmap w1 = specmap w) as Hs1
    by (unfold images in Hi1; injection Hi1; intros; assumption).
  assert (displacementmap w2 = displacementmap w) as Hm2.
  { unfold images in Hi1, Hi2. injection Hi1; injection Hi2; intros. congruence. }
  rewrite Hd3, Hd2, Hd1, Hq2, Hq1, Hs1, Hm2. reflexivity.
Qed.

(** C8. A save to a valid URL whose suffix is tga in any letter case
    returns and writes its map files with the suffix png: for each of the
    normal, specular and displacement map, in this order, that is stored,
    has its box checked and can be written, the file named by the
    directory, a slash, the base name and _normal.png, _spec.png or
    _displace.png is put on the disk with that map as its content; nothing
    else is written and no stored image changes.  The substitution is made
    by save itself, after the maps were generated. *)
Theorem save_writes_png_instead_of_tga url w :
  QUrl.isValid url = true ->
  QString.toLower (QFileInfo.suffix (QUrl.toLocalFile url)) = "tga" ->
  let path := QUrl.toLocalFile url in
  let stem := QFileInfo_absolutePath path +++ "/" +++ QFileInfo.baseName path in
  let q := queueTab (ui w) in
  save_suffix path = "png" /\
  exists w',
    save url w = Returned tt w' /\
    images w' = images w /\
    disk (world w') =
      save_attempt (displacementmap w) (checkBox_queue_generateDisplace q)
        (stem +++ "_displace.png")
        (save_attempt (specmap w) (checkBox_queue_generateSpec q)
           (stem +++ "_spec.png")
           (save_attempt (normalmap w) (checkBox_queue_generateNormal q)
              (stem +++ "_normal.png") (disk (world w)))) /\
    forall name img,
      In (name, img) (disk (world w')) ->
      In (name, img) (disk (world w)) \/
      (QFileInfo.suffix name = "png" /\
       (name = stem +++ "_normal.png" \/ name = stem +++ "_spec.png" \/
        name = stem +++ "_displace.png")).
Proof.
  intros Hv Htga path stem q.
  assert (save_suffix path = "png") as Hsuf.
  { unfold save_suffix. fold path in Htga. rewrite Htga. reflexivity. }
  assert (forall kind, save_name path kind = stem +++ kind +++ "png") as Hname.
  { intros kind. unfold save_name, stem. rewrite Hsuf. now rewrite !append_assoc. }
  split; [exact Hsuf|].
  destruct (save_Returned url w Hv) as (w' & Hr & Hdisk & _ & _ & Himg).
  destruct (save_disk url w Hv) as (w'' & Hr' & Hexact).
  rewrite Hr in Hr'. injection Hr' as <-.
  exists w'. split; [exact Hr|]. split; [exact Himg|]. split.
  - fold path q in Hexact. rewrite !Hname in Hexact. exact Hexact.
  - intros name img Hin. destruct (Hdisk name img Hin) as [H|H]; [now left|right].
    fold path in H. unfold save_name in H. rewrite Hsuf in H.
    destruct H as [-> | [-> | ->]]; (split; [apply suffix_of_png_name; reflexivity|]).
    + left. unfold stem. now rewrite !append_assoc.
    + right; left. unfold stem. now rewrite !append_assoc.
    + right; right. unfold stem. now rewrite !append_assoc.
Qed.

End Save.

Lemma save_writes_png_instead_of_tga_witness :
  save_suffix (QUrl.toLocalFile Sample.exportTga) = "png" /\
  exists w',
    @save Sample.engine Sample.exportTga Sample.withSpec = Returned tt w' /\
    disk (world w') = [("/out/brick_spec.png", specmap Sample.withSpec)].
Proof.
  destruct (@save_writes_png_instead_of_tga Sample.engine Sample.exportTga
              Sample.withSpec)
    as (Hsuf & w' & Hrun & _ & Hexact & _); try (vm_compute; reflexivity).
  split; [exact Hsuf|]. exists w'. split; [exact Hrun|].
  rewrite Hexact. vm_compute. reflexivity.
Defined.

(** ** Dropping several files *)

(** C2, the failing input.  photo.jp has the suffix jp, which is none of
    the eight supported formats but occurs inside the text that line 94
    searches; loadMultipleDropped puts the URL into the queue and shows no
    notice about unsupported formats (the only dialog is the one of the
    failed load). *)
Lemma loadMultipleDropped_accepts_part_of_a_suffix :
  QString.toLower (QFileInfo.suffix (QUrl.fileName Sample.photo_jp)) = "jp" /\
  ~ In "jp" ["png"; "jpg"; "jpeg"; "tiff"; "ppm"; "bmp"; "xpm"; "tga"] /\
  @loadMultipleDropped Sample.engine 1 [Sample.photo_jp] Sample.window0
    = Returned tt Sample.afterDrop /\
  map getUrl (listWidget_queue (queueTab (ui Sample.afterDrop))) = [Sample.photo_jp] /\
  map fst (dialogs (world Sample.afterDrop)) = ["Error while loading image"].
Proof.
  split; [vm_compute; reflexivity|].
  split.
  { intros Hin. cbn in Hin.
    repeat (destruct Hin as [Hin|Hin]; [discriminate Hin|]). exact Hin. }
  conj_split; vm_compute; reflexivity.
Qed.

(** ** The queue *)

Section FlagBlind.
Context {E : Engine}.

Lemma flag_blind_ret {A} (a : A) : flag_blind (ret a).
Proof. intros b w. reflexivity. Qed.

Lemma flag_blind_tooDeep {A} : flag_blind (@tooDeep A).
Proof. intros b w. reflexivity. Qed.

Lemma flag_blind_modify (g : MainWindow -> MainWindow) :
  (forall b w, g (set_stopQueue b w) = set_stopQueue b (g w)) ->
  flag_blind (modify g).
Proof. intros Hg b w. unfold modify. cbn. now rewrite Hg. Qed.

Lemma flag_blind_gets {A} (g : MainWindow -> A) :
  (forall b w, g (set_stopQueue b w) = g w) -> flag_blind (gets g).
Proof. intros Hg b w. unfold gets. cbn. now rewrite Hg. Qed.

Lemma flag_blind_bind {A B} (c : M A) (k : A -> M B) :
  flag_blind c -> (forall a, flag_blind (k a)) -> flag_blind (bind c k).
Proof.
  intros Hc Hk b w. unfold bind. rewrite Hc.
  destruct (c w) as [a w1| |]; cbn; [apply Hk|reflexivity|reflexivity].
Qed.

Lemma flag_blind_when (t : bool) (c : M unit) : flag_blind c -> flag_blind (when t c).
Proof. destruct t; cbn; auto using flag_blind_ret. Qed.

(** A slot that first reads something other than the flag. *)
Lemma flag_blind_reading {A X} (r : MainWindow -> X) (c : X -> M A) :
  (forall b w, r (set_stopQueue b w) = r w) ->
  (forall x, flag_blind (c x)) ->
  flag_blind (fun w => c (r w) w).
Proof. intros Hr Hc b w. rewrite Hr. apply Hc. Qed.

Lemma calcNormal_flag_blind : flag_blind calcNormal.
Proof.
  intros b w. unfold calcNormal.
  change (input (set_stopQueue b w)) with (input w).
  destruct (isNull (input w)); reflexivity.
Qed.

Lemma calcSpec_flag_blind : flag_blind calcSpec.
Proof.
  intros b w. unfold calcSpec.
  change (input (set_stopQueue b w)) with (input w).
  destruct (isNull (input w)); reflexivity.
Qed.

Lemma calcDisplace_flag_blind : flag_blind calcDisplace.
Proof.
  intros b w. unfold calcDisplace.
  change (input (set_stopQueue b w)) with (input w).
  destruct (isNull (input w)); [reflexivity|].
  cbv zeta.
  change (checkBox_displace_blur (displaceTab (ui (set_displacementmap _ (set_stopQueue b w)))))
    with (checkBox_displace_blur (displaceTab (ui w))).
  change (checkBox_displace_blur (displaceTab (ui (set_displacementmap _ w))))
    with (checkBox_displace_blur (displaceTab (ui w))).
  destruct (checkBox_displace_blur (displaceTab (ui w))); reflexivity.
Qed.

Lemma calcSsao_flag_blind : flag_blind calcSsao.
Proof.
  intros b w. unfold calcSsao.
  change (input (set_stopQueue b w)) with (input w).
  destruct (isNull (input w)); [reflexivity|].
  change (isNull (normalmap (set_stopQueue b w))) with (isNull (normalmap w)).
  apply flag_blind_bind.
  - apply flag_blind_when, calcNormal_flag_blind.
  - intros _. apply flag_blind_modify. reflexivity.
Qed.

Lemma elapsed_flag_blind : flag_blind elapsed.
Proof.
  intros b w. unfold elapsed.
  change (timerReadings (world (set_stopQueue b w))) with (timerReadings (world w)).
  destruct (timerReadings (world w)); reflexivity.
Qed.

Lemma displayCalcTime_set_stopQueue t mapType b w :
  displayCalcTime t mapType (set_stopQueue b w)
  = set_stopQueue b (displayCalcTime t mapType w).
Proof.
  unfold displayCalcTime. cbv zeta.
  set (c := dlt _ _).
  match goal with |- _ = set_stopQueue b (if ?c' then _ else _) => change c' with c end.
  destruct c; reflexivity.
Qed.

Lemma calcAndPreview_flag_blind status calc store mapType tab pv :
  flag_blind calc ->
  (forall t b w, store t (set_stopQueue b w) = set_stopQueue b (store t w)) ->
  (forall t, flag_blind (pv t)) ->
  flag_blind (calcAndPreview status calc store mapType tab pv).
Proof.
  intros Hcalc Hstore Hpv. unfold calcAndPreview.
  apply flag_blind_bind; [apply flag_blind_modify; reflexivity|intros _].
  apply flag_blind_bind; [exact Hcalc|intros _].
  apply flag_blind_bind; [exact elapsed_flag_blind|intros t].
  apply flag_blind_bind; [apply flag_blind_modify; apply Hstore|intros _].
  apply flag_blind_bind;
    [apply flag_blind_modify; apply displayCalcTime_set_stopQueue|intros _].
  apply flag_blind_bind; [apply flag_blind_modify; reflexivity|intros _].
  apply Hpv.
Qed.

Lemma preview_flag_blind depth : forall tab, flag_blind (preview depth tab).
Proof.
  induction depth as [|d IH]; intros tab; [apply flag_blind_tooDeep|].
  cbn [preview].
  apply flag_blind_bind; [apply flag_blind_modify; reflexivity|intros _].
  destruct (tab =? 0).
  { apply flag_blind_modify. intros b w.
    change (checkBox_displayChannelIntensity (frame (ui (set_stopQueue b w)))
            && negb (isNull (input (set_stopQueue b w))))
      with (checkBox_displayChannelIntensity (frame (ui w)) && negb (isNull (input w))).
    destruct (_ && _); reflexivity. }
  destruct (tab =? 1).
  { apply flag_blind_bind;
      [|intros _; apply flag_blind_bind;
                    [apply flag_blind_modify; reflexivity
                    |intros _; apply flag_blind_modify; reflexivity]].
    apply (flag_blind_reading
             (fun w => negb (isNull (input w)) && isNull (normalmap w))
             (fun t => when t _)); [reflexivity|].
    intros t. apply flag_blind_when.
    apply calcAndPreview_flag_blind;
      [apply calcNormal_flag_blind|reflexivity|exact IH]. }
  destruct (tab =? 2).
  { apply flag_blind_bind; [|intros _; apply flag_blind_modify; reflexivity].
    apply (flag_blind_reading
             (fun w => negb (isNull (input w)) && isNull (specmap w))
             (fun t => when t _)); [reflexivity|].
    intros t. apply flag_blind_when.
    apply calcAndPreview_flag_blind;
      [apply calcSpec_flag_blind|reflexivity|exact IH]. }
  destruct (tab =? 3).
  { apply flag_blind_bind; [|intros _; apply flag_blind_modify; reflexivity].
    apply (flag_blind_reading
             (fun w => negb (isNull (input w)) && isNull (displacementmap w))
             (fun t => when t _)); [reflexivity|].
    intros t. apply flag_blind_when.
    apply calcAndPreview_flag_blind;
      [apply calcDisplace_flag_blind|reflexivity|exact IH]. }
  destruct (tab =? 4).
  { apply flag_blind_bind; [|intros _; apply flag_blind_modify; reflexivity].
    apply (flag_blind_reading
             (fun w => negb (isNull (input w)) && isNull (ssaomap w))
             (fun t => when t _)); [reflexivity|].
    intros t. apply flag_blind_when.
    apply calcAndPreview_flag_blind;
      [apply calcSsao_flag_blind|reflexivity|exact IH]. }
  apply flag_blind_ret.
Qed.

Lemma autoUpdate_flag_blind depth : flag_blind (autoUpdate depth).
Proof.
  intros b w. unfold autoUpdate. cbv zeta.
  change (frame (ui (set_stopQueue b w))) with (frame (ui w)).
  change (enabled (ui (set_stopQueue b w))) with (enabled (ui w)).
  change (lastCalctime_normal (set_stopQueue b w)) with (lastCalctime_normal w).
  change (lastCalctime_specular (set_stopQueue b w)) with (lastCalctime_specular w).
  change (lastCalctime_displace (set_stopQueue b w)) with (lastCalctime_displace w).
  change (lastCalctime_ssao (set_stopQueue b w)) with (lastCalctime_ssao w).
  destruct (_ || _); [reflexivity|].
  destruct (_ =? 0); [reflexivity|].
  destruct (_ =? 1).
  { apply flag_blind_when. apply calcAndPreview_flag_blind;
      [apply calcNormal_flag_blind|reflexivity|apply preview_flag_blind]. }
  destruct (_ =? 2).
  { apply flag_blind_when. apply calcAndPreview_flag_blind;
      [apply calcSpec_flag_blind|reflexivity|apply preview_flag_blind]. }
  destruct (_ =? 3).
  { apply flag_blind_when. apply calcAndPreview_flag_blind;
      [apply calcDisplace_flag_blind|reflexivity|apply preview_flag_blind]. }
  destruct (_ =? 4).
  { apply flag_blind_when. apply calcAndPreview_flag_blind;
      [apply calcSsao_flag_blind|reflexivity|apply preview_flag_blind]. }
  reflexivity.
Qed.

Lemma on_normalTab_set_stopQueue f b w :
  on_normalTab f (set_stopQueue b w) = set_stopQueue b (on_normalTab f w).
Proof. reflexivity. Qed.

Lemma setValue_flag_blind depth v :
  flag_blind (spinBox_largeDetailScale_setValue depth v).
Proof.
  intros b w. unfold spinBox_largeDetailScale_setValue. cbv zeta.
  change (normalTab (ui (set_stopQueue b w))) with (normalTab (ui w)).
  rewrite on_normalTab_set_stopQueue.
  destruct (_ =? _); [reflexivity|].
  apply (autoUpdate_flag_blind depth b).
Qed.

Lemma load_keepLargeDetail_flag_blind depth : flag_blind (load_keepLargeDetail depth).
Proof.
  intros b w. unfold load_keepLargeDetail. cbv zeta.
  change (input (set_stopQueue b w)) with (input w).
  rewrite !on_normalTab_set_stopQueue.
  destruct (_ <? 300); [apply (setValue_flag_blind depth _ b)|].
  destruct (_ >? 2300); apply (setValue_flag_blind depth _ b).
Qed.

Lemma preview_input_set_stopQueue b w :
  preview_input (set_stopQueue b w) = set_stopQueue b (preview_input w).
Proof.
  unfold preview_input. cbv zeta.
  set (c := _ && _).
  match goal with |- _ = set_stopQueue b (if ?c' then _ else _) => change c' with c end.
  destruct c; reflexivity.
Qed.

Lemma load_show_set_stopQueue b w :
  load_show (set_stopQueue b w) = set_stopQueue b (load_show w).
Proof.
  unfold load_show.
  change (frame (ui (set_stopQueue b w))) with (frame (ui w)).
  change (input (set_stopQueue b w)) with (input w).
  destruct (checkBox_displayChannelIntensity (frame (ui w))).
  - destruct (isNull (input w)); [reflexivity|].
    apply (preview_input_set_stopQueue b (set_channelIntensity _ w)).
  - apply preview_input_set_stopQueue.
Qed.

Lemma load_fit_set_stopQueue b w :
  load_fit (set_stopQueue b w) = set_stopQueue b (load_fit w).
Proof.
  unfold load_fit. cbv zeta.
  set (c := _ || _).
  match goal with
  | |- _ = set_stopQueue b (clearMessage (if ?c' then _ else _)) => change c' with c
  end.
  destruct c; reflexivity.
Qed.

Lemma load_finish_flag_blind : flag_blind load_finish.
Proof.
  intros b w. rewrite !load_finish_eq. cbn [map_state]. f_equal.
  change (load_clear (set_stopQueue b w)) with (set_stopQueue b (load_clear w)).
  now rewrite load_show_set_stopQueue, load_fit_set_stopQueue.
Qed.

Lemma load_flag_blind depth url : flag_blind (load depth url).
Proof.
  intros b w. unfold load. destruct (negb (QUrl.isValid url)); [reflexivity|].
  cbv zeta.
  change (load_decode url (set_stopQueue b w)) with (set_stopQueue b (load_decode url w)).
  change (input (set_stopQueue b (load_decode url w))) with (input (load_decode url w)).
  destruct (isNull (input (load_decode url w))); [reflexivity|].
  assert (load_enable url (set_stopQueue b (load_decode url w))
          = set_stopQueue b (load_enable url (load_decode url w))) as ->.
  { unfold load_enable. cbv zeta.
    change (exportPath (set_stopQueue b (load_decode url w)))
      with (exportPath (load_decode url w)).
    destruct (QUrl.isEmpty _); reflexivity. }
  apply (flag_blind_bind _ _ (load_keepLargeDetail_flag_blind depth)
           (fun _ => load_finish_flag_blind)).
Qed.

Lemma save_map_flag_blind map generate name title failed saved :
  (forall b w, map (set_stopQueue b w) = map w) ->
  flag_blind (save_map map generate name title failed saved).
Proof.
  intros Hmap b w. unfold save_map. rewrite Hmap.
  change (queueTab (ui (set_stopQueue b w))) with (queueTab (ui w)).
  destruct (_ && _); [|reflexivity].
  apply flag_blind_bind.
  - intros b' w'. unfold QImage_save_to.
    change (disk (world (set_stopQueue b' w'))) with (disk (world w')).
    destruct (QImage_save _ _ _); reflexivity.
  - intros ok. destruct (negb ok); apply flag_blind_modify; reflexivity.
Qed.

Lemma save_flag_blind url : flag_blind (save url).
Proof.
  intros b w. unfold save. destruct (negb (QUrl.isValid url)); [reflexivity|].
  cbv zeta.
  apply flag_blind_bind; [apply save_map_flag_blind; reflexivity|intros _].
  apply flag_blind_bind; [apply save_map_flag_blind; reflexivity|intros _].
  apply flag_blind_bind; [apply save_map_flag_blind; reflexivity|intros _].
  apply flag_blind_bind; [apply flag_blind_modify; reflexivity|intros _].
  apply flag_blind_modify; reflexivity.
Qed.

Lemma processQueue_item_flag_blind depth percentageBase i :
  flag_blind (processQueue_item depth percentageBase i).
Proof.
  intros b w. unfold processQueue_item.
  change (queueTab (ui (set_stopQueue b w))) with (queueTab (ui w)).
  destruct (nth_error _ i) as [item|]; [|reflexivity].
  apply flag_blind_bind; [apply flag_blind_modify; reflexivity|intros _].
  apply flag_blind_bind; [apply flag_blind_modify; reflexivity|intros _].
  apply flag_blind_bind; [apply load_flag_blind|intros _].
  apply flag_blind_bind.
  { apply (flag_blind_reading
             (fun w => checkBox_queue_generateNormal (queueTab (ui w)))
             (fun t => when t calcNormal)); [reflexivity|].
    intros t. apply flag_blind_when, calcNormal_flag_blind. }
  intros _. apply flag_blind_bind.
  { apply (flag_blind_reading
             (fun w => checkBox_queue_generateSpec (queueTab (ui w)))
             (fun t => when t calcSpec)); [reflexivity|].
    intros t. apply flag_blind_when, calcSpec_flag_blind. }
  intros _. apply flag_blind_bind.
  { apply (flag_blind_reading
             (fun w => checkBox_queue_generateDisplace (queueTab (ui w)))
             (fun t => when t calcDisplace)); [reflexivity|].
    intros t. apply flag_blind_when, calcDisplace_flag_blind. }
  intros _.
  apply flag_blind_bind; [apply flag_blind_gets; reflexivity|intros exportUrl].
  apply flag_blind_bind; [apply flag_blind_modify; reflexivity|intros _].
  apply save_flag_blind.
Qed.

End FlagBlind.

Section Queue.
Context {E : Engine}.

Lemma load_keeps_item depth url : keeps true kept_by_item (load depth url).
Proof.
  intros w. destruct (load depth url w) as [[|] w'| |] eqn:Hr; auto.
  - apply load_Returned_true in Hr. cbv zeta in Hr. tauto.
  - apply load_Returned_false in Hr. destruct Hr as (_ & _ & ->). reflexivity.
Qed.

Lemma calc_keeps_item (c : M unit) :
  keeps false kept_by_preview c -> keeps true kept_by_item c.
Proof.
  apply (keeps_weaken true kept_by_preview kept_by_item
           (fun t => match t with
                     | (_, (_, _, _, _, q), (a, _, _, _), _, (_, _, s), (_, _, p)) =>
                         (listWidget_queue q, s, p, a)
                     end)).
  reflexivity.
Qed.

Lemma save_keeps_item url : keeps true kept_by_item (save url).
Proof.
  intros w. destruct (QUrl.isValid url) eqn:Hv.
  - destruct (save_Returned url w Hv) as (w' & -> & _ & _ & Hk & _). exact Hk.
  - unfold save. rewrite Hv. reflexivity.
Qed.

Lemma processQueue_item_keeps depth percentageBase i :
  keeps true kept_by_item (processQueue_item depth percentageBase i).
Proof.
  intros w. unfold processQueue_item.
  destruct (nth_error _ i) as [item|]; [|reflexivity].
  revert w. change (keeps true kept_by_item
    (modify (showMessage ("Processing Queue Item: " +++ text item)) ;;
     modify (on_queueTab (set_progressBar_Queue
       (int_of_double (dmul percentageBase (double_of_int (Z.of_nat i + 1)))))) ;;
     _ <- load depth (getUrl item) ;;
     (fun w => when (checkBox_queue_generateNormal (queueTab (ui w))) calcNormal w) ;;
     (fun w => when (checkBox_queue_generateSpec (queueTab (ui w))) calcSpec w) ;;
     (fun w => when (checkBox_queue_generateDisplace (queueTab (ui w))) calcDisplace w) ;;
     exportUrl <- gets (fun w =>
       QUrl.fromLocalFile (QUrl.toLocalFile (exportPath w) +++ "/" +++ text item)) ;;
     modify (cout ("[Queue] Image " +++ show_int (Z.of_nat i + 1) +++ " exported: "
                   +++ QUrl.toLocalFile exportUrl)) ;;
     save exportUrl)).
  apply keeps_bind; [apply keeps_modify; reflexivity|intros _].
  apply keeps_bind; [apply keeps_modify; reflexivity|intros _].
  apply keeps_bind; [apply load_keeps_item|intros _].
  apply keeps_bind.
  { apply (keeps_dep _ _ (fun v => when _ _)). intros v.
    apply keeps_when, calc_keeps_item, calcNormal_kept. }
  intros _. apply keeps_bind.
  { apply (keeps_dep _ _ (fun v => when _ _)). intros v.
    apply keeps_when, calc_keeps_item, calcSpec_kept. }
  intros _. apply keeps_bind.
  { apply (keeps_dep _ _ (fun v => when _ _)). intros v.
    apply keeps_when, calc_keeps_item, calcDisplace_kept. }
  intros _. apply keeps_bind; [apply keeps_gets|intros exportUrl].
  apply keeps_bind; [apply keeps_modify; reflexivity|intros _].
  apply save_keeps_item.
Qed.

Lemma kept_by_item_eq w w' :
  kept_by_item w' = kept_by_item w ->
  listWidget_queue (queueTab (ui w')) = listWidget_queue (queueTab (ui w)) /\
  stopQueue w' = stopQueue w /\
  pendingEvents (world w') = pendingEvents (world w) /\
  checkBox_autoUpdate (frame (ui w')) = checkBox_autoUpdate (frame (ui w)).
Proof. unfold kept_by_item. intros [= Hq Hs Hp Ha]. auto. Qed.

Lemma prints_ret {A} (a : A) : prints 0 (ret a).
Proof. intros w _. exists a, w. rewrite Nat.add_0_r. repeat split. Qed.

Lemma prints_modify n (g : MainWindow -> MainWindow) :
  (forall w, List.length (console (world (g w)))
             = (List.length (console (world w)) + n)%nat) ->
  (forall w, kept_by_item (g w) = kept_by_item w) ->
  prints n (modify g).
Proof. intros Hc Hk w _. exists tt, (g w). auto. Qed.

Lemma prints_gets {A} (g : MainWindow -> A) : prints 0 (gets g).
Proof. intros w _. exists (g w), w. rewrite Nat.add_0_r. repeat split. Qed.

Lemma prints_bind {A B} n m (c : M A) (k : A -> M B) :
  prints n c -> (forall a, prints m (k a)) -> prints (n + m) (bind c k).
Proof.
  intros Hc Hk w Hoff.
  destruct (Hc w Hoff) as (a & w1 & Hr & Hl & Hi).
  assert (checkBox_autoUpdate (frame (ui w1)) = false) as Hoff1.
  { apply kept_by_item_eq in Hi. destruct Hi as (_ & _ & _ & Hi). congruence. }
  destruct (Hk a w1 Hoff1) as (b & w2 & Hr2 & Hl2 & Hi2).
  exists b, w2. rewrite (bind_of_Returned _ _ _ _ _ Hr).
  split; [exact Hr2|]. split; [lia|congruence].
Qed.

Lemma prints_when (t : bool) (c : M unit) : prints 0 c -> prints 0 (when t c).
Proof. destruct t; cbn; auto using prints_ret. Qed.

Lemma prints_dep {A} n (c : MainWindow -> M A) :
  (forall v, prints n (c v)) -> prints n (fun w => c w w).
Proof. intros Hc w. apply (Hc w w). Qed.

(** A computation that returns and keeps the world and the item state. *)
Lemma prints_of_kept {A} (c : M A) :
  (forall w, exists a w', c w = Returned a w' /\ world w' = world w
                          /\ kept_by_item w' = kept_by_item w) ->
  prints 0 c.
Proof.
  intros Hc w _. destruct (Hc w) as (a & w' & Hr & Hw & Hk).
  exists a, w'. rewrite Hw, Nat.add_0_r. auto.
Qed.

Lemma calcNormal_prints : prints 0 calcNormal.
Proof.
  apply prints_of_kept. intros w. unfold calcNormal.
  destruct (isNull (input w)); eexists; eexists; repeat split.
Qed.

Lemma calcSpec_prints : prints 0 calcSpec.
Proof.
  apply prints_of_kept. intros w. unfold calcSpec.
  destruct (isNull (input w)); eexists; eexists; repeat split.
Qed.

Lemma calcDisplace_prints : prints 0 calcDisplace.
Proof.
  apply prints_of_kept. intros w. unfold calcDisplace.
  destruct (isNull (input w)); [eexists; eexists; repeat split|].
  cbv zeta. destruct (checkBox_displace_blur _); eexists; eexists; repeat split.
Qed.

Lemma setValue_prints depth v : prints 0 (spinBox_largeDetailScale_setValue depth v).
Proof.
  intros w Hoff. unfold spinBox_largeDetailScale_setValue. cbv zeta.
  set (w1 := on_normalTab _ w).
  assert (autoUpdate depth w1 = Returned tt w1) as Hau.
  { apply autoUpdate_not_due. unfold autoUpdate_due. cbv zeta.
    change (frame (ui w1)) with (frame (ui w)). now rewrite Hoff. }
  exists tt, w1. rewrite Nat.add_0_r.
  destruct (_ =? _); [|rewrite Hau]; repeat split.
Qed.

Lemma load_keepLargeDetail_prints depth : prints 0 (load_keepLargeDetail depth).
Proof.
  intros w Hoff. unfold load_keepLargeDetail. cbv zeta.
  destruct (_ <? 300); [|destruct (_ >? 2300)];
    (edestruct (setValue_prints depth) as (a & w' & Hr & Hl & Hk);
     [|exists a, w'; split; [exact Hr|split; [exact Hl|exact Hk]]]; exact Hoff).
Qed.

Lemma load_finish_prints : prints 0 load_finish.
Proof.
  apply prints_of_kept. intros w.
  destruct (load_finish_Returned w) as (w' & Hr & Hk & _).
  apply kept_by_finish_eq in Hk. destruct Hk as (Hk & _ & _ & Hw & _).
  exists true, w'. auto.
Qed.

Lemma load_prints depth url : QUrl.isValid url = true -> prints 0 (load depth url).
Proof.
  intros Hv w Hoff.
  destruct (isNull (QImage_fromFile (disk (world w)) (QUrl.toLocalFile url))) eqn:Hn.
  - rewrite (load_undecodable _ _ _ Hv Hn). eexists. eexists.
    split; [reflexivity|]. rewrite Nat.add_0_r. split; reflexivity.
  - rewrite (load_decodable _ _ _ Hv Hn).
    destruct (load_enable_facts url w) as (_ & Hk0 & _ & Hw0 & _).
    cbv zeta in Hk0, Hw0.
    set (w0 := load_enable url (load_decode url w)) in *.
    assert (checkBox_autoUpdate (frame (ui w0)) = false) as Hoff0.
    { apply kept_by_item_eq in Hk0. destruct Hk0 as (_ & _ & _ & Hk0). congruence. }
    destruct (prints_bind 0 0 _ _ (load_keepLargeDetail_prints depth)
                (fun _ => load_finish_prints) w0 Hoff0)
      as (a & w' & Hr & Hl & Hk).
    exists a, w'. split; [exact Hr|]. rewrite Hl, Hw0. split; [lia|congruence].
Qed.

Lemma save_prints url : prints 0 (save url).
Proof.
  intros w _. rewrite Nat.add_0_r. destruct (QUrl.isValid url) eqn:Hv.
  - destruct (save_Returned url w Hv) as (w' & Hr & _ & Hc & Hk & _).
    exists tt, w'. rewrite Hc. auto.
  - exists tt, w. unfold save. rewrite Hv. repeat split.
Qed.

Lemma processQueue_item_prints depth percentageBase i w item :
  nth_error (listWidget_queue (queueTab (ui w))) i = Some item ->
  QUrl.isValid (getUrl item) = true ->
  checkBox_autoUpdate (frame (ui w)) = false ->
  exists w',
    processQueue_item depth percentageBase i w = Returned tt w' /\
    List.length (console (world w')) = S (List.length (console (world w))) /\
    kept_by_item w' = kept_by_item w.
Proof.
  intros Hnth Hv Hoff. unfold processQueue_item. rewrite Hnth.
  assert (prints (0 + (0 + (0 + (0 + (0 + (0 + (0 + (1 + 0))))))))
    (modify (showMessage ("Processing Queue Item: " +++ text item)) ;;
     modify (on_queueTab (set_progressBar_Queue
       (int_of_double (dmul percentageBase (double_of_int (Z.of_nat i + 1)))))) ;;
     _ <- load depth (getUrl item) ;;
     (fun w => when (checkBox_queue_generateNormal (queueTab (ui w))) calcNormal w) ;;
     (fun w => when (checkBox_queue_generateSpec (queueTab (ui w))) calcSpec w) ;;
     (fun w => when (checkBox_queue_generateDisplace (queueTab (ui w))) calcDisplace w) ;;
     exportUrl <- gets (fun w =>
       QUrl.fromLocalFile (QUrl.toLocalFile (exportPath w) +++ "/" +++ text item)) ;;
     modify (cout ("[Queue] Image " +++ show_int (Z.of_nat i + 1) +++ " exported: "
                   +++ QUrl.toLocalFile exportUrl)) ;;
     save exportUrl)) as Hbody.
  { apply prints_bind; [apply prints_modify; intros; [symmetry; apply Nat.add_0_r|reflexivity]|intros _].
    apply prints_bind; [apply prints_modify; intros; [symmetry; apply Nat.add_0_r|reflexivity]|intros _].
    apply prints_bind; [apply load_prints; exact Hv|intros _].
    apply prints_bind.
    { apply (prints_dep _ (fun v => when _ _)). intros v.
      apply prints_when, calcNormal_prints. }
    intros _. apply prints_bind.
    { apply (prints_dep _ (fun v => when _ _)). intros v.
      apply prints_when, calcSpec_prints. }
    intros _. apply prints_bind.
    { apply (prints_dep _ (fun v => when _ _)). intros v.
      apply prints_when, calcDisplace_prints. }
    intros _. apply prints_bind; [apply prints_gets|intros exportUrl].
    apply prints_bind; [|intros _; apply save_prints].
    apply prints_modify; intros w0; [|reflexivity].
    unfold cout, on_world. cbn [world set_world console set_console].
    rewrite length_app. reflexivity. }
  destruct (Hbody w Hoff) as ([] & w' & Hr & Hl & Hk).
  exists w'. split; [exact Hr|]. split; [|exact Hk].
  rewrite Hl. cbn. lia.
Qed.

Lemma bind_at {A B} (c c' : M A) (k : A -> M B) w :
  c w = c' w -> bind c k w = bind c' k w.
Proof. unfold bind. now intros ->. Qed.

Lemma processQueue_end_Returned w :
  exists w', processQueue_end w = Returned tt w' /\ stopQueue w' = false /\
             world w' = world w.
Proof. eexists. split; [reflexivity|]. split; reflexivity. Qed.

(** X18. The stop flag is read at the head of the loop only.  One queue
    item, from its status message to its save, neither reads nor writes
    the flag: whatever the flag is, the item does the same.  When the flag
    is set at the head of the loop no further item is started.  A run that
    gets past the two early returns and returns has reset the flag and
    disabled the stop button; this holds also for a run that is started by
    a click on the process button while the flag is set: it takes no item
    and resets the flag. *)
Theorem stop_flag_is_read_at_the_loop_head_only depth :
  (forall percentageBase i, flag_blind (processQueue_item depth percentageBase i)) /\
  (forall processQueue percentageBase n i w,
     stopQueue w = true ->
     processQueue_loop depth processQueue percentageBase n i w = Returned tt w) /\
  (forall fuel w w',
     (count w <> 0)%nat -> QUrl.isValid (exportPath w) = true ->
     processQueue depth fuel w = Returned tt w' ->
     stopQueue w' = false /\
     pushButton_stopProcessingQueue_enabled (enabled (ui w')) = false) /\
  (forall fuel w,
     (count w <> 0)%nat -> QUrl.isValid (exportPath w) = true ->
     stopQueue w = true ->
     exists w',
       processQueue depth (S fuel) w = Returned tt w' /\
       stopQueue w' = false /\
       images w' = images w /\ world w' = world w /\
       queueTab (ui w') = queueTab (ui w)).
Proof.
  conj_split.
  - intros pb i. apply processQueue_item_flag_blind.
  - intros pq pb n i w Hstop. destruct n; cbn [processQueue_loop];
      rewrite Hstop, andb_false_r; reflexivity.
  - intros fuel w w' Hcount Hexp Hr. destruct fuel as [|fuel]; [discriminate Hr|].
    cbn [processQueue] in Hr. unfold processQueue_body in Hr.
    assert ((count w =? 0)%nat = false) as Hc by (apply Nat.eqb_neq; exact Hcount).
    rewrite Hc, Hexp in Hr. cbn [negb] in Hr. cbv zeta in Hr.
    apply bind_Returned in Hr. destruct Hr as ([] & w1 & _ & Hend).
    unfold processQueue_end in Hend. injection Hend as <-. split; reflexivity.
  - intros fuel w Hcount Hexp Hstop.
    cbn [processQueue]. unfold processQueue_body.
    assert ((count w =? 0)%nat = false) as Hc by (apply Nat.eqb_neq; exact Hcount).
    rewrite Hc, Hexp. cbn [negb]. cbv zeta.
    set (w0 := on_enabled _ w).
    assert (processQueue_loop depth (processQueue depth fuel) (percentageBase_of w0)
              fuel 0 w0 = Returned tt w0) as Hloop.
    { destruct fuel; cbn [processQueue_loop];
        change (stopQueue w0) with (stopQueue w);
        rewrite Hstop, andb_false_r; reflexivity. }
    rewrite (bind_of_Returned _ _ _ _ _ Hloop).
    eexists. split; [reflexivity|]. conj_split; reflexivity.
Qed.

End Queue.

(** C9, the failing input.  Three files are queued; while the first one
    is processed the user clicks the stop button and then the process
    button.  processEvents delivers both clicks after the save of the
    first item: the stop click sets the flag, the processQueue that the
    second click starts finds the flag set, takes no item and resets it at
    line 468, and the loop of the first processQueue goes on with the
    second and the third file.  With the stop click alone the run ends
    after the first file. *)
Lemma stop_click_is_lost_to_a_processQueue_click :
  map text (queue_of Sample.queued) = ["brick.png"; "pebble.png"; "wall.tga"] /\
  queue_of Sample.requeued = queue_of Sample.queued /\
  pendingEvents (world Sample.queued) = [[Click_stopProcessingQueue]] /\
  pendingEvents (world Sample.requeued)
    = [[Click_stopProcessingQueue; Click_processQueue]] /\
  @processQueue Sample.engine 1 5 Sample.queued = Returned tt Sample.processed /\
  console (world Sample.processed)
    = ["[Queue] Image 1 exported: /textures//brick.png"] /\
  @processQueue Sample.engine 1 5 Sample.requeued = Returned tt Sample.reprocessed /\
  console (world Sample.reprocessed)
    = ["[Queue] Image 1 exported: /textures//brick.png";
       "[Queue] Image 2 exported: /textures///pebble.png";
       "[Queue] Image 3 exported: /textures////wall.tga"] /\
  map fst (disk (world Sample.reprocessed))
    = ["/textures/brick_normal.png"; "/textures/brick_spec.png";
       "/textures/brick_displace.png"; "/textures/pebble_normal.png";
       "/textures/pebble_spec.png"; "/textures/pebble_displace.png";
       "/textures/wall_normal.png"; "/textures/wall_spec.png";
       "/textures/wall_displace.png"].
Proof. conj_split; vm_compute; reflexivity. Qed.

Lemma stop_flag_is_read_at_the_loop_head_only_witness :
  (exists w',
     @processQueue Sample.engine 1 5 (set_stopQueue true Sample.threeQueued)
       = Returned tt w' /\
     stopQueue w' = false /\ world w' = world Sample.threeQueued) /\
  stopQueue Sample.reprocessed = false.
Proof.
  destruct (@stop_flag_is_read_at_the_loop_head_only Sample.engine 1)
    as (_ & _ & Hreset & Hnested).
  split.
  - destruct (Hnested 4%nat (set_stopQueue true Sample.threeQueued))
      as (w' & Hr & Hs & _ & Hw & _); try (vm_compute; reflexivity).
    + vm_compute. discriminate.
    + exists w'. split; [exact Hr|]. split; [exact Hs|exact Hw].
  - refine (proj1 (Hreset 5%nat Sample.requeued Sample.reprocessed _ _ _));
      vm_compute; try reflexivity. discriminate.
Defined.

(** * Further properties of the slots *)

(** ** What load leaves alone and what it records *)

Section LoadMore.
Context {E : Engine}.

Lemma preview_keeps_load depth tab : keeps true kept_by_load (preview depth tab).
Proof.
  apply (keeps_weaken true kept_by_preview kept_by_load
           (fun t => match t with
                     | (_, (_, sp, di, ss, q), _, _, (_, _, st), (dk, _, pe)) =>
                         (q, (sp, di, ss), st, dk, pe)
                     end)); [reflexivity|apply preview_kept].
Qed.

Lemma autoUpdate_keeps_load depth : keeps true kept_by_load (autoUpdate depth).
Proof.
  apply (keeps_weaken true kept_by_preview kept_by_load
           (fun t => match t with
                     | (_, (_, sp, di, ss, q), _, _, (_, _, st), (dk, _, pe)) =>
                         (q, (sp, di, ss), st, dk, pe)
                     end)); [reflexivity|apply autoUpdate_kept].
Qed.

Lemma setValue_keeps_load depth v :
  keeps true kept_by_load (spinBox_largeDetailScale_setValue depth v).
Proof.
  intros w. unfold spinBox_largeDetailScale_setValue. cbv zeta.
  destruct (_ =? _); [reflexivity|].
  match goal with
  | |- match autoUpdate ?d ?x with _ => _ end => exact (autoUpdate_keeps_load d x)
  end.
Qed.

Lemma load_keepLargeDetail_keeps_load depth :
  keeps true kept_by_load (load_keepLargeDetail depth).
Proof.
  intros w. unfold load_keepLargeDetail. cbv zeta.
  destruct (_ <? 300); [|destruct (_ >? 2300)];
    match goal with
    | |- match spinBox_largeDetailScale_setValue ?d ?v ?x with _ => _ end =>
        exact (setValue_keeps_load d v x)
    end.
Qed.

(** What the three stages of load_finish do to the paths, the status
    bar and the parts that load never writes. *)
Lemma preview_input_more w :
  kept_by_load (preview_input w) = kept_by_load w /\
  (exportPath (preview_input w), loadedImagePath (preview_input w))
    = (exportPath w, loadedImagePath w).
Proof. unfold preview_input. cbv zeta. destruct (_ && _); split; reflexivity. Qed.

Lemma load_show_more w :
  kept_by_load (load_show w) = kept_by_load w /\
  (exportPath (load_show w), loadedImagePath (load_show w))
    = (exportPath w, loadedImagePath w).
Proof.
  unfold load_show. destruct (checkBox_displayChannelIntensity _).
  - destruct (isNull (input w)); [split; reflexivity|].
    apply (preview_input_more (set_channelIntensity _ w)).
  - apply preview_input_more.
Qed.

Lemma load_fit_more w :
  kept_by_load (load_fit w) = kept_by_load w /\
  (exportPath (load_fit w), loadedImagePath (load_fit w))
    = (exportPath w, loadedImagePath w) /\
  statusBar (frame (ui (load_fit w))) = EmptyString.
Proof. unfold load_fit. cbv zeta. destruct (_ || _); conj_split; reflexivity. Qed.

Lemma load_finish_more w :
  exists w',
    load_finish w = Returned true w' /\
    kept_by_load w' = kept_by_load w /\
    (exportPath w', loadedImagePath w') = (exportPath w, loadedImagePath w) /\
    statusBar (frame (ui w')) = EmptyString /\
    tabWidget (frame (ui w')) = 0.
Proof.
  eexists. split; [apply load_finish_eq|].
  destruct (load_show_more (load_clear w)) as (S1 & S2).
  destruct (load_fit_more (load_show (load_clear w))) as (F1 & F2 & F3).
  destruct (load_fit_facts (load_show (load_clear w))) as (_ & _ & _ & F4).
  destruct (load_show_facts (load_clear w)) as (_ & _ & _ & S4).
  split; [rewrite F1, S1; reflexivity|].
  split; [rewrite F2, S2; reflexivity|].
  split; [exact F3|]. rewrite F4, S4. reflexivity.
Qed.

Lemma load_keeps_load depth url : keeps true kept_by_load (load depth url).
Proof.
  intros w. unfold load. destruct (negb (QUrl.isValid url)); [reflexivity|].
  cbv zeta.
  destruct (isNull (input (load_decode url w))); [reflexivity|].
  set (w0 := load_enable url (load_decode url w)).
  assert (kept_by_load w0 = kept_by_load w) as H0.
  { unfold w0, load_enable. cbv zeta. destruct (QUrl.isEmpty _); reflexivity. }
  rewrite <- H0.
  apply (keeps_bind true kept_by_load _ _ (load_keepLargeDetail_keeps_load depth)).
  intros _ w1. destruct (load_finish_more w1) as (w2 & -> & Hk & _). exact Hk.
Qed.

Lemma kept_by_preview_paths w w' :
  kept_by_preview w' = kept_by_preview w ->
  (exportPath w', loadedImagePath w') = (exportPath w, loadedImagePath w).
Proof. unfold kept_by_preview. intros H. injection H; intros. congruence. Qed.

Lemma load_keepLargeDetail_paths depth w w' :
  load_keepLargeDetail depth w = Returned tt w' ->
  (exportPath w', loadedImagePath w') = (exportPath w, loadedImagePath w).
Proof.
  unfold load_keepLargeDetail, spinBox_largeDetailScale_setValue. cbv zeta.
  intros Hr.
  repeat match type of Hr with
         | (if ?c then _ else _) = _ => destruct c
         end;
    first [ injection Hr as <-; reflexivity
          | apply (keeps_Returned _ _ _ _ _ _ (autoUpdate_kept depth)) in Hr;
            apply kept_by_preview_paths in Hr; exact Hr ].
Qed.

(** X1. What a load leaves alone.  However load ends, it has written no
    file and has not touched the queue tab, the parameters of the
    specular, displacement and ambient-occlusion tabs, the stop flag or the
    pending user input. *)
Theorem load_writes_no_file_and_keeps_queue depth url w :
  match load depth url w with
  | Returned _ w' | Thrown _ w' =>
      disk (world w') = disk (world w) /\
      queueTab (ui w') = queueTab (ui w) /\
      specTab (ui w') = specTab (ui w) /\
      displaceTab (ui w') = displaceTab (ui w) /\
      ssaoTab (ui w') = ssaoTab (ui w) /\
      stopQueue w' = stopQueue w /\
      pendingEvents (world w') = pendingEvents (world w)
  | TooDeep => True
  end.
Proof.
  pose proof (load_keeps_load depth url w) as Hk.
  destruct (load depth url w) as [r w'|e w'|] eqn:Hr; [| |exact I].
  - unfold kept_by_load in Hk. injection Hk; intros. conj_split; assumption.
  - destruct (QUrl.isValid url) eqn:Hv.
    + exfalso. exact (load_valid_never_throws _ _ _ _ _ Hv Hr).
    + rewrite (load_invalid _ _ _ Hv) in Hr. injection Hr as _ <-.
      conj_split; reflexivity.
Qed.

(** X2. The bookkeeping of a successful load.  The export path is set to
    the directory of the first image that is loaded and is kept by every
    later load; the loaded image path is the URL; the input tab is in
    front and the status bar is empty. *)
Theorem load_records_paths depth url w w' :
  load depth url w = Returned true w' ->
  exportPath w' =
    (if QUrl.isEmpty (exportPath w) then QUrl.adjusted_RemoveFilename url
     else exportPath w) /\
  loadedImagePath w' = url /\
  tabWidget (frame (ui w')) = 0 /\
  statusBar (frame (ui w')) = EmptyString.
Proof.
  intros Hr.
  destruct (QUrl.isValid url) eqn:Hv;
    [|rewrite (load_invalid _ _ _ Hv) in Hr; discriminate].
  destruct (isNull (QImage_fromFile (disk (world w)) (QUrl.toLocalFile url))) eqn:Hn;
    [rewrite (load_undecodable _ _ _ Hv Hn) in Hr; discriminate|].
  rewrite (load_decodable _ _ _ Hv Hn) in Hr.
  apply bind_Returned in Hr. destruct Hr as ([] & w1 & Hk & Hf).
  apply load_keepLargeDetail_paths in Hk.
  destruct (load_finish_more w1) as (w2 & Hf2 & _ & Hp & Hs & Ht).
  rewrite Hf2 in Hf. injection Hf as <-.
  rewrite Hk in Hp. injection Hp as Hx Hl.
  split; [|split; [exact Hl|split; [exact Ht|exact Hs]]].
  rewrite Hx. unfold load_enable, load_decode. cbv zeta.
  change (exportPath (set_input _ (showMessage _ w))) with (exportPath w).
  destruct (QUrl.isEmpty (exportPath w)); reflexivity.
Qed.

End LoadMore.

Lemma load_records_paths_witness :
  @load Sample.engine 1 Sample.pebble Sample.loaded
    = Returned true (Sample.final Sample.loaded
                       (@load Sample.engine 1 Sample.pebble Sample.loaded)) /\
  QUrl.path (exportPath (Sample.final Sample.loaded
                           (@load Sample.engine 1 Sample.pebble Sample.loaded)))
    = "/textures/".
Proof.
  assert (@load Sample.engine 1 Sample.pebble Sample.loaded
          = Returned true (Sample.final Sample.loaded
                             (@load Sample.engine 1 Sample.pebble Sample.loaded)))
    as Hrun by (vm_compute; reflexivity).
  split; [exact Hrun|].
  destruct (load_records_paths _ _ _ _ Hrun) as (Hx & _).
  rewrite Hx. vm_compute. reflexivity.
Defined.

(** ** Dropped files *)

Section Dropped.
Context {E : Engine}.

Lemma setValue_keeps_dialogs depth v :
  keeps true (fun w => dialogs (world w)) (spinBox_largeDetailScale_setValue depth v).
Proof.
  intros w. unfold spinBox_largeDetailScale_setValue. cbv zeta.
  destruct (_ =? _); [reflexivity|].
  match goal with
  | |- match autoUpdate ?d ?x with _ => _ end =>
      exact (keeps_weaken true kept_by_preview (fun w => dialogs (world w))
               (fun t => match t with (_, _, _, _, _, (_, dg, _)) => dg end)
               (autoUpdate d) (fun _ => eq_refl) (autoUpdate_kept d) x)
  end.
Qed.

Lemma load_keepLargeDetail_keeps_dialogs depth :
  keeps true (fun w => dialogs (world w)) (load_keepLargeDetail depth).
Proof.
  intros w. unfold load_keepLargeDetail. cbv zeta.
  destruct (_ <? 300); [|destruct (_ >? 2300)];
    match goal with
    | |- match spinBox_largeDetailScale_setValue ?d ?v ?x with _ => _ end =>
        exact (setValue_keeps_dialogs d v x)
    end.
Qed.

Lemma load_report_dialogs url w :
  exists text,
    dialogs (world (load_report url w))
    = (dialogs (world w) ++ [("Error while loading image", text)])%list.
Proof. unfold load_report. cbv zeta. eexists. reflexivity. Qed.

Lemma load_dialogs depth url w r w' :
  load depth url w = Returned r w' ->
  forall d, In d (dialogs (world w')) ->
            In d (dialogs (world w)) \/ fst d = "Error while loading image".
Proof.
  intros Hr d Hin. destruct r.
  - left.
    destruct (QUrl.isValid url) eqn:Hv;
      [|rewrite (load_invalid _ _ _ Hv) in Hr; discriminate].
    destruct (isNull (QImage_fromFile (disk (world w)) (QUrl.toLocalFile url))) eqn:Hn;
      [rewrite (load_undecodable _ _ _ Hv Hn) in Hr; discriminate|].
    rewrite (load_decodable _ _ _ Hv Hn) in Hr.
    apply bind_Returned in Hr. destruct Hr as ([] & w1 & Hk & Hf).
    destruct (load_finish_Returned w1) as (w2 & Hf2 & Hk2 & _).
    rewrite Hf2 in Hf. injection Hf as <-.
    apply kept_by_finish_eq in Hk2. destruct Hk2 as (_ & _ & _ & Hw2 & _).
    rewrite Hw2 in Hin.
    apply (keeps_Returned _ _ _ _ _ _ (load_keepLargeDetail_keeps_dialogs depth)) in Hk.
    cbv beta in Hk. rewrite Hk in Hin.
    destruct (load_enable_facts url w) as (_ & _ & _ & Hw0 & _). cbv zeta in Hw0.
    rewrite Hw0 in Hin. exact Hin.
  - apply load_Returned_false in Hr. destruct Hr as (_ & _ & ->).
    destruct (load_report_dialogs url (load_decode url w)) as (text & Hd).
    rewrite Hd in Hin.
    apply in_app_or in Hin. destruct Hin as [Hin|[<-|[]]]; [left; exact Hin|right; reflexivity].
Qed.

Lemma addImageToQueue_facts url w :
  listWidget_queue (queueTab (ui (addImageToQueue url w)))
    = (listWidget_queue (queueTab (ui w)) ++ [queueItem_of url])%list /\
  world (addImageToQueue url w) = world w /\
  images (addImageToQueue url w) = images w.
Proof. conj_split; reflexivity. Qed.

(** X3. A single dropped file is queued exactly when it could be loaded. *)
Theorem loadSingleDropped_queues_what_it_loaded depth url w w' :
  loadSingleDropped depth url w = Returned tt w' ->
  (isNull (input w') = false /\
   listWidget_queue (queueTab (ui w'))
     = (listWidget_queue (queueTab (ui w)) ++ [queueItem_of url])%list) \/
  (isNull (input w') = true /\
   listWidget_queue (queueTab (ui w')) = listWidget_queue (queueTab (ui w))).
Proof.
  unfold loadSingleDropped. intros Hr.
  apply bind_Returned in Hr. destruct Hr as (ok & w1 & Hload & Hadd).
  destruct ok; cbn [when] in Hadd.
  - left. injection Hadd as <-.
    apply load_Returned_true in Hload. cbv zeta in Hload.
    destruct Hload as (_ & Hn & Hin & Hk & _).
    apply kept_by_item_eq in Hk. destruct Hk as (Hq & _).
    destruct (addImageToQueue_facts url w1) as (Hq' & _ & Hi).
    rewrite Hq', Hq. split; [|reflexivity].
    apply images_eq in Hi. destruct Hi as (Hi & _). rewrite Hi, Hin. exact Hn.
  - right. injection Hadd as <-.
    apply load_Returned_false in Hload. destruct Hload as (_ & Hn & ->).
    split; [exact Hn|reflexivity].
Qed.

(** What the loop of loadMultipleDropped has done when it returns. *)
Lemma loadMultipleDropped_loop_Returned depth urls :
  forall contained loaded w r w',
    loadMultipleDropped_loop depth urls contained loaded w = Returned r w' ->
    listWidget_queue (queueTab (ui w'))
      = (listWidget_queue (queueTab (ui w))
         ++ map queueItem_of (filter suffix_accepted urls))%list /\
    r = contained || existsb (fun u => negb (suffix_accepted u)) urls /\
    forall d, In d (dialogs (world w')) ->
              In d (dialogs (world w)) \/ fst d = "Error while loading image".
Proof.
  induction urls as [|url rest IH]; intros contained loaded w r w' Hr;
    cbn [loadMultipleDropped_loop filter existsb] in Hr |- *.
  - injection Hr as <- <-. rewrite app_nil_r, orb_false_r. auto.
  - destruct (suffix_accepted url) eqn:Hacc; cbn [negb orb map].
    + apply bind_Returned in Hr. destruct Hr as ([] & w1 & Hadd & Hr).
      injection Hadd as <-.
      apply bind_Returned in Hr. destruct Hr as ([] & w2 & Hload & Hr).
      apply IH in Hr. destruct Hr as (Hq & Hres & Hd).
      destruct (addImageToQueue_facts url w) as (Hq1 & Hw1 & _).
      assert (listWidget_queue (queueTab (ui w2))
                = listWidget_queue (queueTab (ui (addImageToQueue url w)))
              /\ forall d, In d (dialogs (world w2)) ->
                           In d (dialogs (world w)) \/
                           fst d = "Error while loading image") as [Hq2 Hd2].
      { destruct (negb loaded).
        - apply bind_Returned in Hload. destruct Hload as (ok & w3 & Hload & Hret).
          injection Hret as <-. split.
          + pose proof (load_keeps_item depth url (addImageToQueue url w)) as Hk.
            rewrite Hload in Hk. apply kept_by_item_eq in Hk. tauto.
          + intros d Hin. apply (load_dialogs _ _ _ _ _ Hload) in Hin.
            rewrite Hw1 in Hin. exact Hin.
        - injection Hload as <-. split; [reflexivity|].
          intros d Hin. rewrite Hw1 in Hin. now left. }
      rewrite Hq, Hq2, Hq1, <- app_assoc. split; [reflexivity|].
      split; [exact Hres|].
      intros d Hin. destruct (Hd d Hin) as [H|H]; [apply Hd2; exact H|now right].
    + apply IH in Hr. destruct Hr as (Hq & Hres & Hd).
      split; [exact Hq|]. split; [|exact Hd].
      rewrite Hres. now rewrite orb_true_r.
Qed.

(** X4. What loadMultipleDropped has done when it returns.  The queue has
    grown by the URLs that pass the test of line 94, in their order; the
    not-all-loaded notice is the last dialog exactly when some URL failed
    the test, and otherwise the only dialogs that were added report a
    failed load. *)
Theorem loadMultipleDropped_queues_accepted depth urls w w' :
  loadMultipleDropped depth urls w = Returned tt w' ->
  listWidget_queue (queueTab (ui w'))
    = (listWidget_queue (queueTab (ui w))
       ++ map queueItem_of (filter suffix_accepted urls))%list /\
  (existsb (fun u => negb (suffix_accepted u)) urls = true ->
   exists shown text,
     dialogs (world w') = (shown ++ [(notAllLoaded_title, text)])%list) /\
  (existsb (fun u => negb (suffix_accepted u)) urls = false ->
   forall d, In d (dialogs (world w')) ->
             In d (dialogs (world w)) \/ fst d = "Error while loading image").
Proof.
  unfold loadMultipleDropped. intros Hr.
  apply bind_Returned in Hr. destruct Hr as (contained & w1 & Hloop & Hnote).
  apply loadMultipleDropped_loop_Returned in Hloop.
  destruct Hloop as (Hq & Hres & Hd). cbn [orb] in Hres. subst contained.
  destruct (existsb _ urls); cbn [when] in Hnote; injection Hnote as <-.
  - split; [exact Hq|]. split; [|discriminate].
    intros _. eexists. eexists. reflexivity.
  - split; [exact Hq|]. split; [discriminate|]. intros _. exact Hd.
Qed.

(** X5. Each of the eight formats of the file dialog passes the test of
    line 94 in any letter case, and so does a name without suffix. *)
Theorem supported_suffix_is_accepted url :
  In (QString.toLower (QFileInfo.suffix (QUrl.fileName url)))
     (EmptyString :: supported_formats) ->
  suffix_accepted url = true.
Proof.
  unfold suffix_accepted. cbv zeta. intros Hin.
  cbn [supported_formats In] in Hin.
  repeat (destruct Hin as [<-|Hin]; [vm_compute; reflexivity|]).
  destruct Hin.
Qed.

(** X6. The first URL that passes the test of line 94 is loaded at once,
    so an invalid one, such as the empty URL that an empty command-line
    argument gives, makes loadMultipleDropped leave by load's exception
    after it has put the URL into the queue. *)
Theorem loadMultipleDropped_throws_on_invalid_url depth skipped url rest w :
  Forall (fun u => suffix_accepted u = false) skipped ->
  suffix_accepted url = true ->
  QUrl.isValid url = false ->
  loadMultipleDropped depth (skipped ++ url :: rest) w
  = Thrown "[load] invalid url!" (addImageToQueue url w).
Proof.
  intros Hskip Hacc Hv. unfold loadMultipleDropped.
  assert (forall contained,
            loadMultipleDropped_loop depth (skipped ++ url :: rest) contained false w
            = Thrown "[load] invalid url!" (addImageToQueue url w)) as Hloop.
  { induction Hskip as [|u skipped Hu _ IH]; intros contained;
      cbn [app loadMultipleDropped_loop].
    - rewrite Hacc. cbn [negb]. unfold bind at 1. cbn [modify].
      unfold bind at 1. unfold bind at 1.
      now rewrite (load_invalid _ _ _ Hv).
    - rewrite Hu. apply IH. }
  unfold bind. now rewrite Hloop.
Qed.

End Dropped.

Lemma supported_suffix_is_accepted_witness :
  suffix_accepted (QUrl.fromLocalFile "/textures/Wall.TGA") = true.
Proof.
  apply supported_suffix_is_accepted. vm_compute. do 8 right. left. reflexivity.
Defined.

Lemma loadSingleDropped_queues_what_it_loaded_witness :
  exists w',
    @loadSingleDropped Sample.engine 1 Sample.brick Sample.window0 = Returned tt w' /\
    map getUrl (listWidget_queue (queueTab (ui w'))) = [Sample.brick].
Proof.
  eexists. split; [vm_compute; reflexivity|].
  match goal with
  | |- map getUrl (listWidget_queue (queueTab (ui ?x))) = _ =>
      assert (@loadSingleDropped Sample.engine 1 Sample.brick Sample.window0
              = Returned tt x) as Hrun by (vm_compute; reflexivity);
      destruct (loadSingleDropped_queues_what_it_loaded _ _ _ _ Hrun)
        as [[_ Hq]|[Hnull _]]; [rewrite Hq; reflexivity|vm_compute in Hnull; discriminate]
  end.
Defined.

Lemma loadMultipleDropped_queues_accepted_witness :
  map getUrl (listWidget_queue (queueTab (ui Sample.afterDrop))) = [Sample.photo_jp].
Proof.
  assert (@loadMultipleDropped Sample.engine 1 [Sample.photo_jp] Sample.window0
          = Returned tt Sample.afterDrop) as Hrun by (vm_compute; reflexivity).
  destruct (loadMultipleDropped_queues_accepted _ _ _ _ Hrun) as (Hq & _).
  rewrite Hq. vm_compute. reflexivity.
Defined.

Lemma loadMultipleDropped_throws_on_invalid_url_witness :
  @openWithArguments Sample.engine 1 ["NormalmapGenerator"; EmptyString] Sample.window0
  = Thrown "[load] invalid url!" (addImageToQueue QUrl.empty Sample.window0).
Proof.
  unfold openWithArguments. cbn [List.length Nat.ltb Nat.leb tl map].
  change (QUrl.fromLocalFile EmptyString) with QUrl.empty.
  apply (@loadMultipleDropped_throws_on_invalid_url Sample.engine 1 [] QUrl.empty []);
    [constructor|vm_compute; reflexivity|vm_compute; reflexivity].
Defined.

(** ** Preview and the calc...AndPreview slots *)

Section PreviewMore.
Context {E : Engine}.

(** calc...AndPreview up to its call of preview. *)
Lemma calcAndPreview_until_preview status calc store mapType tab pv w w1 :
  (forall t w, images (store t w) = images w) ->
  (forall t w, kept_by_preview (store t w) = kept_by_preview w) ->
  keeps false kept_by_preview calc ->
  calc (showMessage status w) = Returned tt w1 ->
  exists w2,
    calcAndPreview status calc store mapType tab pv w = pv tab w2 /\
    images w2 = images w1 /\
    kept_by_preview w2 = kept_by_preview w.
Proof.
  intros Hsi Hsk Hcalc Hr.
  unfold calcAndPreview. unfold bind at 1. cbn [modify].
  unfold bind at 1. rewrite Hr. unfold bind at 1.
  assert (kept_by_preview w1 = kept_by_preview w) as Hk1.
  { apply (keeps_Returned _ _ _ _ _ _ Hcalc) in Hr. exact Hr. }
  assert (exists t w3, elapsed w1 = Returned t w3 /\ images w3 = images w1
                       /\ kept_by_preview w3 = kept_by_preview w1)
    as (t & w3 & -> & H3 & K3).
  { unfold elapsed. destruct (timerReadings (world w1));
      eexists; eexists; conj_split; reflexivity. }
  unfold bind at 1. cbn [modify].
  unfold bind at 1. cbn [modify].
  unfold bind at 1. cbn [modify].
  eexists. split; [reflexivity|].
  set (w4 := store (int_of_qint64 t) w3).
  assert (images (displayCalcTime (int_of_qint64 t) mapType w4) = images w4
          /\ kept_by_preview (displayCalcTime (int_of_qint64 t) mapType w4) = kept_by_preview w4)
    as [H5 K5].
  { unfold displayCalcTime. cbv zeta. destruct (dlt _ _); split; reflexivity. }
  split.
  - transitivity (images (displayCalcTime (int_of_qint64 t) mapType w4)); [reflexivity|].
    rewrite H5. unfold w4. rewrite Hsi. exact H3.
  - transitivity (kept_by_preview (displayCalcTime (int_of_qint64 t) mapType w4)); [reflexivity|].
    rewrite K5. unfold w4. rewrite Hsk. congruence.
Qed.

Lemma calcAndPreview_of_tab_unfold depth tab w :
  1 <= tab <= 4 ->
  exists status store mapType,
    calcAndPreview_of_tab depth tab w
    = calcAndPreview status (calc_of_tab tab) store mapType tab (preview depth) w /\
    (forall t w, images (store t w) = images w) /\
    (forall t w, kept_by_preview (store t w) = kept_by_preview w).
Proof.
  intros Htab.
  assert (tab = 1 \/ tab = 2 \/ tab = 3 \/ tab = 4) as Hcases by lia.
  destruct Hcases as [-> | [-> | [-> | ->]]];
    eexists; eexists; eexists; (split; [reflexivity|split; reflexivity]).
Qed.

Lemma calc_of_tab_kept tab : keeps false kept_by_preview (calc_of_tab tab).
Proof.
  unfold calc_of_tab.
  destruct (tab =? 1); [apply calcNormal_kept|].
  destruct (tab =? 2); [apply calcSpec_kept|].
  destruct (tab =? 3); [apply calcDisplace_kept|apply calcSsao_kept].
Qed.

(** preview(tab) when the tab's map is missing: the calc...AndPreview
    slot of the tab runs first. *)
Lemma preview_computing d tab w :
  1 <= tab <= 4 -> preview_computes tab w = true ->
  exists k,
    preview (S d) tab w = bind (calcAndPreview_of_tab d tab) k (scene_clear w).
Proof.
  intros Htab Hc.
  assert (preview_computes tab (scene_clear w) = true) as Hc'
    by (rewrite <- Hc; reflexivity).
  unfold preview_computes, map_of_tab in Hc'.
  cbn [preview]. unfold bind at 1. cbn [modify].
  assert (tab = 1 \/ tab = 2 \/ tab = 3 \/ tab = 4) as Hcases by lia.
  destruct Hcases as [-> | [-> | [-> | ->]]]; cbn [Z.eqb Pos.eqb] in Hc' |- *;
    eexists; unfold bind at 1; cbv beta; rewrite Hc'; reflexivity.
Qed.

(** The map that the calc slot of tabs 1 to 3 stores depends on the input
    and the widgets only. *)
Lemma calc_of_tab_stable tab w w' w1 w1' :
  1 <= tab <= 3 ->
  kept_by_preview w' = kept_by_preview w ->
  isNull (input w) = false ->
  calc_of_tab tab w = Returned tt w1 ->
  calc_of_tab tab w' = Returned tt w1' ->
  map_of_tab tab w1' = map_of_tab tab w1.
Proof.
  intros Htab Hk Hnull. unfold kept_by_preview in Hk.
  injection Hk as Hin Hn Hs Hd _ _ _ _ _ _ _ _ _ _ _ _ _.
  assert (tab = 1 \/ tab = 2 \/ tab = 3) as Hcases by lia.
  unfold calc_of_tab, map_of_tab.
  destruct Hcases as [-> | [-> | ->]]; cbn [Z.eqb Pos.eqb]; intros H1 H2.
  - unfold calcNormal in H1, H2. rewrite Hin, Hn in H2. rewrite Hnull in H1, H2.
    cbv zeta in H1, H2. injection H1 as <-. injection H2 as <-. reflexivity.
  - unfold calcSpec, calcSpec_generated in H1, H2. rewrite Hin, Hs in H2.
    rewrite Hnull in H1, H2.
    cbv zeta in H1, H2. injection H1 as <-. injection H2 as <-. reflexivity.
  - rewrite (calcDisplace_stores w Hnull) in H1.
    rewrite (calcDisplace_stores w') in H2 by (rewrite Hin; exact Hnull).
    injection H1 as <-. injection H2 as <-.
    unfold calcDisplace_generated. rewrite Hin, Hd. reflexivity.
Qed.

Lemma calc_of_tab_returns tab w :
  1 <= tab <= 3 -> exists w1, calc_of_tab tab w = Returned tt w1.
Proof.
  intros Htab. assert (tab = 1 \/ tab = 2 \/ tab = 3) as Hcases by lia.
  unfold calc_of_tab.
  destruct Hcases as [-> | [-> | ->]]; cbn [Z.eqb Pos.eqb].
  - unfold calcNormal. destruct (isNull (input w)); eexists; reflexivity.
  - unfold calcSpec. destruct (isNull (input w)); eexists; reflexivity.
  - destruct (isNull (input w)) eqn:Hn.
    + unfold calcDisplace. rewrite Hn. eexists; reflexivity.
    + rewrite (calcDisplace_stores w Hn). eexists; reflexivity.
Qed.

Lemma kept_by_preview_input w w' :
  kept_by_preview w' = kept_by_preview w -> input w' = input w.
Proof. unfold kept_by_preview. intros H. injection H; intros. assumption. Qed.

(** X7. A generator that returns a null map for a loaded image sends the
    normal, specular or displacement tab into a recursion without end:
    preview(tab) finds the map missing and calls the tab's
    calc...AndPreview slot, which computes the same null map and calls
    preview(tab) again, so the slot returns at no call depth.  When the
    computed map is there, the slot returns without any nested call and
    the stored images are those that the calc slot left. *)
Theorem calcAndPreview_needs_a_map tab w w1 :
  1 <= tab <= 3 ->
  isNull (input w) = false ->
  calc_of_tab tab w = Returned tt w1 ->
  (isNull (map_of_tab tab w1) = true ->
   forall depth, calcAndPreview_of_tab depth tab w = TooDeep) /\
  (isNull (map_of_tab tab w1) = false ->
   forall d, exists w',
     calcAndPreview_of_tab (S d) tab w = Returned tt w' /\ images w' = images w1).
Proof.
  intros Htab Hin Hcalc. split.
  - intros Hnull depth. revert w w1 Hin Hcalc Hnull.
    induction depth as [|d IH]; intros w w1 Hin Hcalc Hnull.
    + destruct (calcAndPreview_of_tab_unfold 0 tab w) as (st & store & mt & -> & Hsi & Hsk);
        [lia|].
      destruct (calcAndPreview_until_preview st (calc_of_tab tab) store mt tab
                  (preview 0) w (showMessage st w1) Hsi Hsk (calc_of_tab_kept tab))
        as (w2 & -> & _); [|reflexivity].
      rewrite calc_of_tab_showMessage, Hcalc. reflexivity.
    + destruct (calcAndPreview_of_tab_unfold (S d) tab w)
        as (st & store & mt & -> & Hsi & Hsk); [lia|].
      destruct (calcAndPreview_until_preview st (calc_of_tab tab) store mt tab
                  (preview (S d)) w (showMessage st w1) Hsi Hsk (calc_of_tab_kept tab))
        as (w2 & -> & Hi2 & Hk2).
      { rewrite calc_of_tab_showMessage, Hcalc. reflexivity. }
      assert (images w2 = images w1) as Hi by (rewrite Hi2; reflexivity).
      assert (input w2 = input w) as Hin2 by (apply kept_by_preview_input; exact Hk2).
      assert (preview_computes tab w2 = true) as Hc.
      { unfold preview_computes. apply images_eq in Hi. destruct Hi as (_ & Hm).
        rewrite Hin2, Hm, Hin, Hnull. reflexivity. }
      destruct (preview_computing d tab w2) as (k & ->); [lia|exact Hc|].
      destruct (calc_of_tab_returns tab (scene_clear w2) Htab) as (w3 & Hcalc3).
      assert (calcAndPreview_of_tab d tab (scene_clear w2) = TooDeep) as Hdeep.
      { apply (IH (scene_clear w2) w3); [rewrite <- Hin, <- Hin2; reflexivity|exact Hcalc3|].
        rewrite (calc_of_tab_stable tab w (scene_clear w2) w1 w3 Htab); auto. }
      unfold bind. rewrite Hdeep. reflexivity.
  - intros Hmap d.
    destruct (calcAndPreview_of_tab_unfold (S d) tab w)
      as (st & store & mt & -> & Hsi & _); [lia|].
    apply calcAndPreview_without_nesting; [lia|exact Hsi|exact Hcalc|].
    unfold preview_computes. rewrite Hmap. apply andb_false_r.
Qed.

(** X8. A tab whose map is there is shown without any computation: the
    stored images and the outside world stay as they are and the scene
    holds that map alone; a tab index outside 0..4 only clears the scene. *)
Theorem preview_shows_the_stored_map d tab w :
  (1 <= tab <= 4 -> preview_computes tab w = false ->
   exists w',
     preview (S d) tab w = Returned tt w' /\
     images w' = images w /\ world w' = world w /\
     scene (graphicsView (ui w')) = [map_of_tab tab w]) /\
  (tab < 0 \/ 4 < tab -> preview (S d) tab w = Returned tt (scene_clear w)).
Proof.
  split.
  - intros Htab Hc.
    assert (preview_computes tab (scene_clear w) = false) as Hc'
      by (rewrite <- Hc; reflexivity).
    unfold preview_computes, map_of_tab in Hc'.
    cbn [preview]. unfold bind at 1. cbn [modify].
    assert (tab = 1 \/ tab = 2 \/ tab = 3 \/ tab = 4) as Hcases by lia.
    destruct Hcases as [-> | [-> | [-> | ->]]]; cbn [Z.eqb Pos.eqb] in Hc' |- *;
      unfold bind at 1; cbv beta; rewrite Hc'; cbn [when ret];
      eexists; (split; [reflexivity|conj_split; reflexivity]).
  - intros Hout. cbn [preview]. unfold bind at 1. cbn [modify].
    assert ((tab =? 0) = false /\ (tab =? 1) = false /\ (tab =? 2) = false /\
            (tab =? 3) = false /\ (tab =? 4) = false) as (H0 & H1 & H2 & H3 & H4)
      by (conj_split; apply Z.eqb_neq; lia).
    rewrite H0, H1, H2, H3, H4. reflexivity.
Qed.

End PreviewMore.

Lemma calcAndPreview_needs_a_map_witness :
  exists w',
    @calcAndPreview_of_tab Sample.engine 1 2 Sample.loaded = Returned tt w' /\
    specmap w' = specmap Sample.withSpec.
Proof.
  assert (@calc_of_tab Sample.engine 2 Sample.loaded = Returned tt Sample.withSpec)
    as Hcalc by (vm_compute; reflexivity).
  destruct (@calcAndPreview_needs_a_map Sample.engine 2 Sample.loaded Sample.withSpec)
    as (_ & Hreturns); [lia|vm_compute; reflexivity|exact Hcalc|].
  destruct (Hreturns eq_refl 0%nat) as (w' & Hr & Hi).
  exists w'. split; [exact Hr|].
  unfold images in Hi. injection Hi as _ _ _ _ Hs _ _. exact Hs.
Defined.

Lemma preview_shows_the_stored_map_witness :
  exists w',
    @preview Sample.engine 1 2 Sample.withSpec = Returned tt w' /\
    scene (graphicsView (ui w')) = [specmap Sample.withSpec].
Proof.
  destruct (@preview_shows_the_stored_map Sample.engine 0 2 Sample.withSpec)
    as (Hshow & _).
  destruct Hshow as (w' & Hr & _ & _ & Hs); [lia|vm_compute; reflexivity|].
  exists w'. split; [exact Hr|exact Hs].
Defined.

(** ** More about saving *)

Section SaveMore.
Context {E : Engine}.

(** The text after the last [c] holds no [d] when the whole text holds
    none. *)
Lemma afterLast_keeps_free c d s r :
  QString.afterLast d s = None -> QString.afterLast c s = Some r ->
  QString.afterLast d r = None.
Proof.
  revert r. induction s as [|a s IH]; cbn; [discriminate|].
  intros r Hd Hc.
  destruct (QString.afterLast d s) as [x|] eqn:Hds; [discriminate|].
  destruct (QString.afterLast c s) as [y|] eqn:Hcs.
  - injection Hc as <-. now apply IH.
  - destruct (Ascii.eqb a c); [|discriminate]. injection Hc as <-. exact Hds.
Qed.

Lemma suffix_free path :
  QString.afterLast "/" (QFileInfo.suffix path) = None /\
  QString.afterLast "." (QFileInfo.suffix path) = None.
Proof.
  unfold QFileInfo.suffix.
  destruct (QString.afterLast "." (QFileInfo.fileName path)) as [r|] eqn:Hr;
    [|split; reflexivity].
  split.
  - exact (afterLast_keeps_free _ _ _ _ (fileName_free path) Hr).
  - exact (afterLast_afterLast _ _ _ Hr).
Qed.

(** A name put together as save does has the suffix it was given, when
    that suffix holds neither a dot nor a slash. *)
Lemma suffix_of_save_name dir path kind sfx :
  QString.afterLast "/" kind = None ->
  QString.afterLast "." kind = Some EmptyString ->
  QString.afterLast "/" sfx = None ->
  QString.afterLast "." sfx = None ->
  QFileInfo.suffix (dir +++ "/" +++ QFileInfo.baseName path +++ kind +++ sfx) = sfx.
Proof.
  intros Hks Hkd Hss Hsd.
  destruct (baseName_free path) as [Hb1 Hb2].
  set (base := QFileInfo.baseName path) in *.
  assert (QString.afterLast "/" (base +++ kind +++ sfx) = None) as Hrest.
  { rewrite !afterLast_app, Hss, Hks, Hb1. reflexivity. }
  unfold QFileInfo.suffix, QFileInfo.fileName.
  rewrite afterLast_app.
  change ("/" +++ base +++ kind +++ sfx) with (String "/" (base +++ kind +++ sfx)).
  cbn [QString.afterLast]. rewrite Hrest. cbn [Ascii.eqb Bool.eqb].
  rewrite !afterLast_app, Hsd, Hkd. reflexivity.
Qed.

Lemma save_exportPath url w w' :
  QUrl.isValid url = true ->
  save url w = Returned tt w' ->
  exportPath w' = QUrl.adjusted_RemoveFilename url.
Proof.
  intros Hv. unfold save. rewrite Hv. cbn [negb]. cbv zeta.
  intros Hr.
  apply bind_Returned in Hr. destruct Hr as ([] & w1 & _ & Hr).
  apply bind_Returned in Hr. destruct Hr as ([] & w2 & _ & Hr).
  apply bind_Returned in Hr. destruct Hr as ([] & w3 & _ & Hr).
  injection Hr as <-. reflexivity.
Qed.

(** X9. A suffix other than tga is kept as it was typed, the empty one
    included: every file that save writes carries the suffix of the chosen
    path, so a path without suffix gives names that end in a dot, and the
    export path becomes the URL without its file name. *)
Theorem save_keeps_any_other_suffix url w :
  QUrl.isValid url = true ->
  QString.toLower (QFileInfo.suffix (QUrl.toLocalFile url)) <> "tga" ->
  exists w',
    save url w = Returned tt w' /\
    images w' = images w /\
    exportPath w' = QUrl.adjusted_RemoveFilename url /\
    (forall name img,
       In (name, img) (disk (world w')) ->
       In (name, img) (disk (world w)) \/
       QFileInfo.suffix name = QFileInfo.suffix (QUrl.toLocalFile url)).
Proof.
  intros Hv Hsfx.
  destruct (save_Returned url w Hv) as (w' & Hr & Hdisk & _ & _ & Himg).
  exists w'. split; [exact Hr|]. split; [exact Himg|].
  split; [exact (save_exportPath _ _ _ Hv Hr)|].
  intros name img Hin. destruct (Hdisk name img Hin) as [H|H]; [now left|right].
  set (path := QUrl.toLocalFile url) in *.
  assert (save_suffix path = QFileInfo.suffix path) as Hkeep.
  { unfold save_suffix. cbv zeta.
    destruct (String.eqb_spec (QString.toLower (QFileInfo.suffix path)) "tga");
      [contradiction|reflexivity]. }
  destruct (suffix_free path) as [Hs1 Hs2].
  unfold save_name in H. rewrite Hkeep in H.
  destruct H as [-> | [-> | ->]]; apply suffix_of_save_name; auto.
Qed.

End SaveMore.

Lemma save_keeps_any_other_suffix_witness :
  exists w',
    @save Sample.engine (QUrl.fromLocalFile "/out/brick") Sample.withSpec
      = Returned tt w' /\
    map fst (disk (world w')) = ["/out/brick_spec."].
Proof.
  destruct (@save_keeps_any_other_suffix Sample.engine
              (QUrl.fromLocalFile "/out/brick") Sample.withSpec)
    as (w' & Hr & _ & _); [vm_compute; reflexivity|vm_compute; discriminate|].
  exists w'. split; [exact Hr|].
  assert (@save Sample.engine (QUrl.fromLocalFile "/out/brick") Sample.withSpec
          = Returned tt (Sample.final Sample.withSpec
               (@save Sample.engine (QUrl.fromLocalFile "/out/brick") Sample.withSpec)))
    as Hrun by (vm_compute; reflexivity).
  rewrite Hrun in Hr. injection Hr as <-. vm_compute. reflexivity.
Defined.

(** ** More about the queue *)

Section QueueMore.
Context {E : Engine}.

Lemma bind_modify {B} (g : MainWindow -> MainWindow) (k : unit -> M B) w :
  bind (modify g) k w = k tt (g w).
Proof. reflexivity. Qed.

Lemma bind_gets {A B} (g : MainWindow -> A) (k : A -> M B) w :
  bind (gets g) k w = k (g w) w.
Proof. reflexivity. Qed.

Lemma save_map_writes map generate name title failed saved w :
  isNull (map w) = false -> generate (queueTab (ui w)) = true ->
  QImage_save (disk (world w)) (map w) name = true ->
  exists w',
    save_map map generate name title failed saved w = Returned tt w' /\
    disk (world w') = (disk (world w) ++ [(name, map w)])%list.
Proof.
  intros Hn Hg Hs. unfold save_map. rewrite Hn, Hg. cbn [negb andb].
  unfold bind, QImage_save_to. rewrite Hs. cbn [negb modify].
  eexists. split; reflexivity.
Qed.

Lemma save_writes_normalmap url w :
  QUrl.isValid url = true ->
  isNull (normalmap w) = false ->
  checkBox_queue_generateNormal (queueTab (ui w)) = true ->
  QImage_save (disk (world w)) (normalmap w)
    (save_name (QUrl.toLocalFile url) "_normal.") = true ->
  exists w',
    save url w = Returned tt w' /\
    In (save_name (QUrl.toLocalFile url) "_normal.", normalmap w) (disk (world w')) /\
    images w' = images w.
Proof.
  intros Hv Hn Hg Hs. unfold save. rewrite Hv. cbn [negb]. cbv zeta.
  set (path := QUrl.toLocalFile url) in *.
  destruct (save_map_writes normalmap checkBox_queue_generateNormal
              (save_name path "_normal.") "Error while saving Normalmap"
              "Normalmap not saved!" "Normalmap saved as " w Hn Hg Hs)
    as (w1 & H1 & Hd1).
  destruct (save_map_Returned normalmap checkBox_queue_generateNormal
              (save_name path "_normal.") "Error while saving Normalmap"
              "Normalmap not saved!" "Normalmap saved as " w)
    as (w1' & H1' & _ & _ & _ & Hi1 & _).
  rewrite H1 in H1'. injection H1' as <-.
  destruct (save_map_Returned specmap checkBox_queue_generateSpec
              (save_name path "_spec.") "Error while saving Specularmap"
              "Specularmap not saved!" "Specularmap saved as " w1)
    as (w2 & H2 & Hd2 & _ & _ & Hi2 & _).
  destruct (save_map_Returned displacementmap checkBox_queue_generateDisplace
              (save_name path "_displace.") "Error while saving Displacementmap"
              "Displacementmap not saved!" "Displacementmap saved as " w2)
    as (w3 & H3 & Hd3 & _ & _ & Hi3 & _).
  rewrite (bind_of_Returned _ _ _ _ _ H1), (bind_of_Returned _ _ _ _ _ H2),
    (bind_of_Returned _ _ _ _ _ H3).
  eexists. split; [reflexivity|].
  set (wf := on_enabled _ _).
  assert (world wf = world w3) as Hw by reflexivity.
  assert (images wf = images w3) as Hif by reflexivity.
  rewrite Hw. split; [|congruence].
  assert (In (save_name path "_normal.", normalmap w) (disk (world w1))) as G1
    by (rewrite Hd1; apply in_or_app; right; left; reflexivity).
  assert (In (save_name path "_normal.", normalmap w) (disk (world w2))) as G2
    by (destruct Hd2 as [-> | ->]; [exact G1|apply in_or_app; left; exact G1]).
  destruct Hd3 as [-> | ->]; [exact G2|apply in_or_app; left; exact G2].
Qed.

Lemma slash_name_not_empty a b : QString.isEmpty (a +++ "/" +++ b) = false.
Proof. destruct a; reflexivity. Qed.

Lemma fromLocalFile_valid p :
  QString.isEmpty p = false ->
  QUrl.isValid (QUrl.fromLocalFile p) = true /\
  QUrl.toLocalFile (QUrl.fromLocalFile p) = p.
Proof. intros Hp. unfold QUrl.fromLocalFile. rewrite Hp. split; reflexivity. Qed.

Lemma calc_in_queue_without_input (box : MainWindow -> bool) (calc : M unit) w :
  calc w = Returned tt w ->
  (fun w => when (box w) calc w) w = Returned tt w.
Proof. intros Hc. cbv beta. destruct (box w); [exact Hc|reflexivity]. Qed.

(** X10. The queue does not look at what load returns.  An item whose file
    cannot be decoded is processed with a null input: no map is computed
    for it, and the normal map that was stored before, if its box is
    checked and the file can be written, is saved under the name of this
    item. *)
Theorem undecodable_item_saves_the_previous_normalmap
    depth percentageBase i w item :
  nth_error (listWidget_queue (queueTab (ui w))) i = Some item ->
  QUrl.isValid (getUrl item) = true ->
  isNull (QImage_fromFile (disk (world w)) (QUrl.toLocalFile (getUrl item))) = true ->
  isNull (normalmap w) = false ->
  checkBox_queue_generateNormal (queueTab (ui w)) = true ->
  let name :=
    save_name (QUrl.toLocalFile (exportPath w) +++ "/" +++ text item) "_normal." in
  QImage_save (disk (world w)) (normalmap w) name = true ->
  exists w',
    processQueue_item depth percentageBase i w = Returned tt w' /\
    isNull (input w') = true /\
    normalmap w' = normalmap w /\
    In (name, normalmap w) (disk (world w')).
Proof.
  intros Hnth Hv Hdec Hmap Hbox name Hsave.
  unfold processQueue_item. rewrite Hnth.
  rewrite !bind_modify.
  set (w2 := on_queueTab _ (showMessage _ w)).
  assert (load depth (getUrl item) w2
          = Returned false (load_report (getUrl item) (load_decode (getUrl item) w2)))
    as Hload by (apply load_undecodable; [exact Hv|exact Hdec]).
  rewrite (bind_of_Returned _ _ _ _ _ Hload).
  set (w3 := load_report (getUrl item) (load_decode (getUrl item) w2)).
  assert (isNull (input w3) = true) as Hin3.
  { unfold w3, load_report. cbv zeta. exact Hdec. }
  assert (calcNormal w3 = Returned tt w3 /\ calcSpec w3 = Returned tt w3
          /\ calcDisplace w3 = Returned tt w3) as (Hc1 & Hc2 & Hc3).
  { unfold calcNormal, calcSpec, calcDisplace. rewrite Hin3. conj_split; reflexivity. }
  rewrite (bind_of_Returned _ _ _ _ _
             (calc_in_queue_without_input
                (fun w => checkBox_queue_generateNormal (queueTab (ui w))) calcNormal w3 Hc1)).
  rewrite (bind_of_Returned _ _ _ _ _
             (calc_in_queue_without_input
                (fun w => checkBox_queue_generateSpec (queueTab (ui w))) calcSpec w3 Hc2)).
  rewrite (bind_of_Returned _ _ _ _ _
             (calc_in_queue_without_input
                (fun w => checkBox_queue_generateDisplace (queueTab (ui w))) calcDisplace w3 Hc3)).
  rewrite bind_gets, bind_modify.
  assert (exportPath w3 = exportPath w) as Hx.
  { unfold w3, load_report. cbv zeta. reflexivity. }
  rewrite Hx.
  set (p := QUrl.toLocalFile (exportPath w) +++ "/" +++ text item) in *.
  destruct (fromLocalFile_valid p (slash_name_not_empty _ _)) as (Hvalid & Hlocal).
  set (w5 := cout _ w3).
  assert (normalmap w5 = normalmap w /\ disk (world w5) = disk (world w)
          /\ queueTab (ui w5) = queueTab (ui w2) /\ input w5 = input w3) as (Hn5 & Hd5 & Hq5 & Hi5).
  { unfold w5, w3, load_report. cbv zeta. conj_split; reflexivity. }
  destruct (save_writes_normalmap (QUrl.fromLocalFile p) w5) as (w' & Hr & Hin & Himg).
  - exact Hvalid.
  - rewrite Hn5. exact Hmap.
  - rewrite Hq5. exact Hbox.
  - rewrite Hlocal, Hn5, Hd5. exact Hsave.
  - exists w'. split; [exact Hr|].
    apply images_eq in Himg. destruct Himg as (Hi & Hm).
    split; [rewrite Hi, Hi5; exact Hin3|].
    split; [exact (eq_trans (Hm 1%Z) Hn5)|].
    rewrite Hlocal, Hn5 in Hin. exact Hin.
Qed.

Lemma keeps_project {A X Y} (b : bool) (f : MainWindow -> X) (g : MainWindow -> Y)
    (p : X -> Y) (c : M A) :
  (forall w, g w = p (f w)) -> keeps b f c -> keeps b g c.
Proof.
  intros Hp Hc w. specialize (Hc w). destruct (c w); auto.
  rewrite !Hp. now f_equal.
Qed.

Lemma save_map_keeps_queueTab map generate name title failed saved :
  keeps true (fun w => queueTab (ui w)) (save_map map generate name title failed saved).
Proof.
  intros w.
  destruct (save_map_Returned map generate name title failed saved w)
    as (w' & -> & _ & _ & _ & _ & Hq).
  exact Hq.
Qed.

Lemma save_keeps_queueTab url : keeps true (fun w => queueTab (ui w)) (save url).
Proof.
  intros w. unfold save. destruct (negb (QUrl.isValid url)); [reflexivity|].
  cbv zeta.
  refine (keeps_bind true (fun w => queueTab (ui w)) _ _ _ _ w);
    [apply save_map_keeps_queueTab|intros _].
  apply keeps_bind; [apply save_map_keeps_queueTab|intros _].
  apply keeps_bind; [apply save_map_keeps_queueTab|intros _].
  apply keeps_bind; [apply keeps_modify; reflexivity|intros _].
  apply keeps_modify; reflexivity.
Qed.

Lemma load_keeps_queueTab depth url :
  keeps true (fun w => queueTab (ui w)) (load depth url).
Proof.
  apply (keeps_project true kept_by_load (fun w => queueTab (ui w))
           (fun t => match t with (q, _, _, _, _) => q end));
    [reflexivity|apply load_keeps_load].
Qed.

Lemma calc_keeps_queueTab (c : M unit) :
  keeps false kept_by_preview c -> keeps true (fun w => queueTab (ui w)) c.
Proof.
  apply (keeps_weaken true kept_by_preview (fun w => queueTab (ui w))
           (fun t => match t with (_, (_, _, _, _, q), _, _, _, _) => q end)).
  reflexivity.
Qed.

(** The progress bar keeps the value that the item gave it. *)
Lemma processQueue_item_progress depth percentageBase i w item w' :
  nth_error (listWidget_queue (queueTab (ui w))) i = Some item ->
  processQueue_item depth percentageBase i w = Returned tt w' ->
  progressBar_Queue (queueTab (ui w')) =
  int_of_double (dmul percentageBase (double_of_int (Z.of_nat i + 1))).
Proof.
  intros Hnth. unfold processQueue_item. rewrite Hnth. rewrite !bind_modify.
  set (w2 := on_queueTab _ (showMessage _ w)). intros Hr.
  refine (eq_trans
            (f_equal progressBar_Queue
               (keeps_Returned true (fun w => queueTab (ui w)) _ w2 tt w' _ Hr)) _);
    [|reflexivity].
  apply keeps_bind; [apply load_keeps_queueTab|intros _].
  apply keeps_bind.
  { apply (keeps_dep _ _ (fun v => when _ _)). intros v.
    apply keeps_when, calc_keeps_queueTab, calcNormal_kept. }
  intros _. apply keeps_bind.
  { apply (keeps_dep _ _ (fun v => when _ _)). intros v.
    apply keeps_when, calc_keeps_queueTab, calcSpec_kept. }
  intros _. apply keeps_bind.
  { apply (keeps_dep _ _ (fun v => when _ _)). intros v.
    apply keeps_when, calc_keeps_queueTab, calcDisplace_kept. }
  intros _. apply keeps_bind; [apply keeps_gets|intros exportUrl].
  apply keeps_bind; [apply keeps_modify; reflexivity|intros _].
  apply save_keeps_queueTab.
Qed.

Lemma progress_table :
  forallb (fun n => forallb (progress_within_one n) (seq 0 n)) (seq 1 200) = true.
Proof. vm_compute. reflexivity. Qed.

Lemma progress_within_one_spec n i :
  (i < n <= 200)%nat ->
  let exact := 100 * (Z.of_nat i + 1) / Z.of_nat n in
  exact - 1 <= progress_shown n i <= exact.
Proof.
  intros Hn. pose proof progress_table as Ht.
  rewrite forallb_forall in Ht. specialize (Ht n).
  rewrite forallb_forall in Ht.
  assert (progress_within_one n i = true) as Hok.
  { apply Ht; apply in_seq; lia. }
  unfold progress_within_one in Hok. cbv zeta in *.
  apply andb_prop in Hok. destruct Hok as [Hlo Hhi].
  apply Z.leb_le in Hlo. apply Z.leb_le in Hhi. split; assumption.
Qed.

(** X11. The progress bar of the queue.  When item [i] (counted from 0) of
    a queue of up to 200 valid items has been processed, the bar shows the
    whole percentage of the items started so far, or one less: the value
    is the truncated product of two doubles.  After the last item the bar
    can therefore be left at 99. *)
Theorem queue_progress_is_within_one_percent depth i w item :
  nth_error (listWidget_queue (queueTab (ui w))) i = Some item ->
  QUrl.isValid (getUrl item) = true ->
  checkBox_autoUpdate (frame (ui w)) = false ->
  (count w <= 200)%nat ->
  exists w',
    processQueue_item depth (percentageBase_of w) i w = Returned tt w' /\
    progressBar_Queue (queueTab (ui w')) = progress_shown (count w) i /\
    let exact := 100 * (Z.of_nat i + 1) / Z.of_nat (count w) in
    exact - 1 <= progressBar_Queue (queueTab (ui w')) <= exact.
Proof.
  intros Hnth Hv Hoff Hcount.
  destruct (processQueue_item_prints depth (percentageBase_of w) i w item Hnth Hv Hoff)
    as (w' & Hr & _).
  exists w'. split; [exact Hr|].
  pose proof (processQueue_item_progress depth (percentageBase_of w) i w item w' Hnth Hr)
    as Hp.
  assert (progressBar_Queue (queueTab (ui w')) = progress_shown (count w) i) as Hs
    by exact Hp.
  split; [exact Hs|]. rewrite Hs.
  apply progress_within_one_spec. split; [|exact Hcount].
  unfold count. apply nth_error_Some. rewrite Hnth. discriminate.
Qed.

Lemma queue_and_pending_of_item {A} (c : M A) :
  keeps true kept_by_item c -> keeps true queue_and_pending c.
Proof.
  apply (keeps_project true kept_by_item queue_and_pending
           (fun t => match t with (q, _, p, _) => (q, p) end)).
  reflexivity.
Qed.

Lemma queue_and_pending_of_calc (c : M unit) :
  keeps false kept_by_preview c -> keeps true queue_and_pending c.
Proof. intros Hc. apply queue_and_pending_of_item, calc_keeps_item, Hc. Qed.

Lemma slots_of_keeps_queue depth p : keeps true queue_and_pending (slots_of depth p).
Proof.
  destruct (connected p) eqn:Hc.
  - destruct (slots_of_connected depth p Hc) as [-> | ->].
    + apply queue_and_pending_of_calc, autoUpdate_kept.
    + apply keeps_bind; [apply queue_and_pending_of_calc, autoUpdate_kept|intros _].
      apply keeps_modify. reflexivity.
  - rewrite (slots_of_unconnected depth p Hc). apply keeps_ret.
Qed.

Lemma edit_keeps_queue depth p : keeps true queue_and_pending (edit depth p).
Proof.
  intros w. unfold edit. cbv zeta.
  assert (queue_and_pending (edited p w) = queue_and_pending w) as He
    by (destruct p; reflexivity).
  destruct (emits p w); [|exact He].
  pose proof (slots_of_keeps_queue depth p (edited p w)) as Hk.
  destruct (slots_of depth p (edited p w)); auto. congruence.
Qed.

Lemma preview_current_keeps_queue depth :
  keeps true queue_and_pending (preview_current depth).
Proof.
  intros w. unfold preview_current.
  exact (queue_and_pending_of_calc _ (preview_kept depth (tabWidget (frame (ui w)))) w).
Qed.

Lemma quiet_of_keeps {A} (c : M A) : keeps true queue_and_pending c -> quiet c.
Proof.
  intros Hk w Hp. specialize (Hk w). destruct (c w) as [a w'| |]; auto.
  unfold queue_and_pending in Hk. injection Hk as Hq Hpe.
  split; [exact Hq|]. rewrite Hpe. exact Hp.
Qed.

Lemma quiet_bind {A B} (c : M A) (k : A -> M B) :
  quiet c -> (forall a, quiet (k a)) -> quiet (bind c k).
Proof.
  intros Hc Hk w Hp. unfold bind. specialize (Hc w Hp).
  destruct (c w) as [a w1| |]; auto. destruct Hc as [Hq1 Hp1].
  specialize (Hk a w1 Hp1). destruct (k a w1) as [b w2| |]; auto.
  destruct Hk as [Hq2 Hp2]. split; [congruence|exact Hp2].
Qed.

Lemma if_enabled_keeps {X} (f : MainWindow -> X) on (c : M unit) :
  keeps true f c -> keeps true f (if_enabled on c).
Proof.
  intros Hc w. unfold if_enabled. destruct (on _); [apply Hc|reflexivity].
Qed.

(** Every action of the user but a drop, an opened file and a click on
    the remove button leaves the queue and the coming actions alone, when
    the slot behind the process button does. *)
Lemma dispatch_quiet depth processQueue e :
  quiet processQueue -> changes_queue e = false ->
  quiet (dispatch depth processQueue e).
Proof.
  intros Hpq He.
  destruct e; try discriminate He; cbn [dispatch]; try exact Hpq;
    apply quiet_of_keeps.
  - apply if_enabled_keeps, queue_and_pending_of_item, save_keeps_item.
  - apply keeps_modify. reflexivity.
  - apply keeps_modify. reflexivity.
  - apply keeps_modify. reflexivity.
  - apply keeps_modify. reflexivity.
  - apply if_enabled_keeps, queue_and_pending_of_calc, calcNormalAndPreview_kept.
  - apply if_enabled_keeps, queue_and_pending_of_calc, calcSpecAndPreview_kept.
  - apply if_enabled_keeps, queue_and_pending_of_calc, calcDisplaceAndPreview_kept.
  - apply if_enabled_keeps, queue_and_pending_of_calc, calcSsaoAndPreview_kept.
  - apply keeps_bind; [apply queue_and_pending_of_calc, preview_kept|intros _].
    apply keeps_modify. reflexivity.
  - apply if_enabled_keeps.
    apply keeps_bind; [apply keeps_modify; reflexivity|intros _].
    apply keeps_bind.
    + apply preview_current_keeps_queue.
    + intros _. apply queue_and_pending_of_calc, displayChannelIntensity_kept.
  - apply keeps_bind; [apply keeps_modify; reflexivity|intros _].
    apply queue_and_pending_of_calc, displayChannelIntensity_kept.
  - intros w. destruct (parameter_enabled p w); [apply edit_keeps_queue|reflexivity].
  - apply if_enabled_keeps, keeps_modify. reflexivity.
  - apply if_enabled_keeps, keeps_modify. reflexivity.
  - apply if_enabled_keeps, keeps_modify. reflexivity.
  - apply keeps_modify. reflexivity.
  - intros w. destruct (nth_error _ i) as [item|]; [|reflexivity].
    unfold queueItemDoubleClicked.
    refine (keeps_bind true queue_and_pending _ _ _ _ w);
      [apply queue_and_pending_of_item, load_keeps_item|intros _; apply keeps_ret].
  - apply keeps_modify. reflexivity.
  - apply keeps_modify. reflexivity.
  - apply keeps_modify. reflexivity.
Qed.

Lemma deliver_quiet depth processQueue :
  quiet processQueue ->
  forall batch,
    Forall (fun e => changes_queue e = false) batch ->
    quiet (deliver depth processQueue batch).
Proof.
  intros Hpq. induction batch as [|e rest IH]; intros Hall; cbn [deliver].
  - apply quiet_of_keeps, keeps_ret.
  - inversion Hall as [|? ? He Hrest]; subst.
    apply quiet_bind; [apply dispatch_quiet; assumption|intros _; apply IH, Hrest].
Qed.

Lemma processEvents_quiet depth processQueue :
  quiet processQueue -> quiet (processEvents depth processQueue).
Proof.
  intros Hpq w Hp. unfold processEvents.
  destruct (pendingEvents (world w)) as [|batch later] eqn:Hpend.
  - split; [reflexivity|]. rewrite Hpend. exact Hp.
  - unfold leave_queue in Hp. inversion Hp as [|? ? Hbatch Hlater]; subst.
    apply (deliver_quiet depth processQueue Hpq batch Hbatch
             (on_world (set_pendingEvents later) w)).
    exact Hlater.
Qed.

Lemma processQueue_loop_quiet depth processQueue percentageBase :
  quiet processQueue ->
  forall n i, quiet (processQueue_loop depth processQueue percentageBase n i).
Proof.
  intros Hpq. induction n as [|n IH]; intros i w Hp; cbn [processQueue_loop];
    (destruct (_ && _); [|split; [reflexivity|exact Hp]]); [exact I|].
  refine (quiet_bind _ _ _ _ w Hp).
  - apply quiet_of_keeps, queue_and_pending_of_item, processQueue_item_keeps.
  - intros _. apply quiet_bind; [apply processEvents_quiet, Hpq|intros _; apply IH].
Qed.

Lemma processQueue_quiet depth : forall fuel, quiet (processQueue depth fuel).
Proof.
  induction fuel as [|fuel IH]; intros w Hp; cbn [processQueue]; [exact I|].
  unfold processQueue_body.
  destruct (count w =? 0)%nat; [split; [reflexivity|exact Hp]|].
  destruct (negb _); [split; [reflexivity|exact Hp]|]. cbv zeta.
  set (w0 := on_enabled _ w).
  change (listWidget_queue (queueTab (ui w)))
    with (listWidget_queue (queueTab (ui w0))).
  refine (quiet_bind _ _ _ _ w0 Hp).
  - apply processQueue_loop_quiet, IH.
  - intros _. apply quiet_of_keeps. unfold processQueue_end.
    apply keeps_bind; [apply keeps_modify; reflexivity|intros _].
    apply keeps_bind; [apply keeps_modify; reflexivity|intros _].
    apply keeps_modify. reflexivity.
Qed.

(** With nothing done by the user every item of the queue is processed
    and the loop returns. *)
Lemma processQueue_loop_undisturbed depth processQueue percentageBase :
  forall n i w,
    pendingEvents (world w) = [] ->
    Forall (fun item => QUrl.isValid (getUrl item) = true) (queue_of w) ->
    checkBox_autoUpdate (frame (ui w)) = false ->
    (count w - i <= n)%nat ->
    exists w', processQueue_loop depth processQueue percentageBase n i w = Returned tt w'.
Proof.
  induction n as [|n IH]; intros i w Hpend Hvalid Hoff Hn; cbn [processQueue_loop].
  - assert ((i <? count w)%nat = false) as -> by (apply Nat.ltb_ge; lia).
    exists w. reflexivity.
  - destruct ((i <? count w)%nat && negb (stopQueue w)) eqn:Hcond;
      [|exists w; reflexivity].
    apply andb_prop in Hcond. destruct Hcond as [Hlt _]. apply Nat.ltb_lt in Hlt.
    destruct (nth_error (listWidget_queue (queueTab (ui w))) i) as [item|] eqn:Hnth.
    2:{ apply nth_error_None in Hnth. unfold count in Hlt. lia. }
    assert (QUrl.isValid (getUrl item) = true) as Hv.
    { unfold queue_of in Hvalid. rewrite Forall_forall in Hvalid. apply Hvalid.
      eapply nth_error_In. exact Hnth. }
    destruct (processQueue_item_prints depth percentageBase i w item Hnth Hv Hoff)
      as (w1 & Hr1 & _ & Hk1).
    apply kept_by_item_eq in Hk1. destruct Hk1 as (Hq1 & _ & Hp1 & Ha1).
    rewrite (bind_of_Returned _ _ _ _ _ Hr1).
    assert (processEvents depth processQueue w1 = Returned tt w1) as Hpe
      by (unfold processEvents; rewrite Hp1, Hpend; reflexivity).
    rewrite (bind_of_Returned _ _ _ _ _ Hpe).
    apply IH.
    + rewrite Hp1. exact Hpend.
    + unfold queue_of. rewrite Hq1. exact Hvalid.
    + rewrite Ha1. exact Hoff.
    + unfold count in *. rewrite Hq1. lia.
Qed.

(** X12. processQueue itself takes nothing out of the queue and puts
    nothing into it.  Take a run during which the user drops no file,
    opens none and does not click the remove button, whatever else is
    clicked or changed, the process button included: whenever the run
    returns, the list of queued items is the one it started with, so the
    next click on the button processes every item again.  When the user
    does nothing at all, the URLs in the queue are valid and auto-update is
    unchecked, the run returns as soon as it is allowed more iterations
    than the queue has items. *)
Theorem processQueue_leaves_the_queue_as_it_was depth fuel w :
  (leave_queue (pendingEvents (world w)) ->
   forall w', processQueue depth fuel w = Returned tt w' -> queue_of w' = queue_of w) /\
  (pendingEvents (world w) = [] ->
   Forall (fun item => QUrl.isValid (getUrl item) = true) (queue_of w) ->
   checkBox_autoUpdate (frame (ui w)) = false ->
   (count w < fuel)%nat ->
   exists w', processQueue depth fuel w = Returned tt w' /\ queue_of w' = queue_of w).
Proof.
  assert (leave_queue (pendingEvents (world w)) ->
          forall w', processQueue depth fuel w = Returned tt w' ->
                     queue_of w' = queue_of w) as Hkeep.
  { intros Hp w' Hr. pose proof (processQueue_quiet depth fuel w Hp) as Hq.
    rewrite Hr in Hq. exact (proj1 Hq). }
  split; [exact Hkeep|]. intros Hpend Hvalid Hoff Hfuel.
  assert (exists w', processQueue depth fuel w = Returned tt w') as (w' & Hr).
  { destruct fuel as [|fuel]; [lia|]. cbn [processQueue]. unfold processQueue_body.
    destruct (count w =? 0)%nat; [exists w; reflexivity|].
    destruct (negb _); [eexists; reflexivity|]. cbv zeta.
    set (w0 := on_enabled _ w).
    destruct (processQueue_loop_undisturbed depth (processQueue depth fuel)
                (percentageBase_of w0) fuel 0 w0) as (w1 & Hr1);
      [exact Hpend|exact Hvalid|exact Hoff|change (count w0) with (count w); lia|].
    rewrite (bind_of_Returned _ _ _ _ _ Hr1).
    destruct (processQueue_end_Returned w1) as (w2 & Hr2 & _).
    exists w2. exact Hr2. }
  exists w'. split; [exact Hr|]. apply Hkeep; [|exact Hr].
  rewrite Hpend. constructor.
Qed.

End QueueMore.

Lemma undecodable_item_saves_the_previous_normalmap_witness :
  exists w',
    @processQueue_item Sample.engine 1 d100_0 0 Sample.staleQueue = Returned tt w' /\
    isNull (input w') = true /\
    normalmap w' = normalmap Sample.staleQueue /\
    In ("/textures/missing_normal.png", normalmap Sample.staleQueue) (disk (world w')).
Proof.
  apply (@undecodable_item_saves_the_previous_normalmap Sample.engine 1 d100_0 0
           Sample.staleQueue (queueItem_of Sample.missing));
    vm_compute; reflexivity.
Defined.

Lemma processQueue_leaves_the_queue_as_it_was_witness :
  (exists w',
     @processQueue Sample.engine 1 5 Sample.requeued = Returned tt w' /\
     map text (queue_of w') = ["brick.png"; "pebble.png"; "wall.tga"]) /\
  (exists w',
     @processQueue Sample.engine 1 5 Sample.threeQueued = Returned tt w' /\
     queue_of w' = queue_of Sample.threeQueued).
Proof.
  destruct (@processQueue_leaves_the_queue_as_it_was Sample.engine 1 5 Sample.requeued)
    as (Hkeep & _).
  destruct (@processQueue_leaves_the_queue_as_it_was Sample.engine 1 5
              Sample.threeQueued) as (_ & Hreturns).
  split.
  - exists Sample.reprocessed.
    assert (@processQueue Sample.engine 1 5 Sample.requeued
            = Returned tt Sample.reprocessed) as Hr by (vm_compute; reflexivity).
    split; [exact Hr|]. rewrite (Hkeep (ltac:(vm_compute; repeat constructor)) _ Hr).
    vm_compute. reflexivity.
  - apply Hreturns.
    + vm_compute. reflexivity.
    + vm_compute. repeat constructor.
    + vm_compute. reflexivity.
    + vm_compute. lia.
Defined.

Lemma queue_progress_is_within_one_percent_witness :
  exists w',
    @processQueue_item Sample.engine 1 (percentageBase_of Sample.longQueue) 96
      Sample.longQueue = Returned tt w' /\
    progressBar_Queue (queueTab (ui w')) = 99.
Proof.
  destruct (@queue_progress_is_within_one_percent Sample.engine 1 96 Sample.longQueue
              (queueItem_of Sample.brick)) as (w' & Hr & Hshown & _);
    try (vm_compute; reflexivity).
  - vm_compute. lia.
  - exists w'. split; [exact Hr|]. rewrite Hshown. vm_compute. reflexivity.
Defined.


(** ** More about the map computations *)

Section CalcMore.
Context {E : Engine}.

Lemma size_table : forallb size_within_one (map Z.of_nat (seq 0 4097)) = true.
Proof. vm_compute. reflexivity. Qed.

Lemma size_within_one_spec v :
  0 <= v <= 4096 -> calcPercentage v 100 = v \/ calcPercentage v 100 = v - 1.
Proof.
  intros Hv. pose proof size_table as Ht. rewrite forallb_forall in Ht.
  assert (size_within_one v = true) as Hok.
  { apply Ht. apply in_map_iff. exists (Z.to_nat v). split; [lia|].
    apply in_seq. lia. }
  unfold size_within_one in Hok. cbv zeta in Hok.
  apply orb_prop in Hok. destruct Hok as [Hok|Hok]; apply Z.eqb_eq in Hok; auto.
Qed.

(** X13. The size label at 100 percent.  The label of the normal map size
    always goes through calcPercentage, whose double arithmetic can lose a
    pixel: with the size spin box at 100 and an input of up to 4096 x 4096
    pixels the label shows each side of the input or one pixel less. *)
Theorem size_label_at_100_percent w wd ht px :
  input w = Image wd ht px ->
  Zpos wd <= 4096 -> Zpos ht <= 4096 ->
  spinBox_normalmapSize (normalTab (ui w)) = 100 ->
  exists a b,
    label_normalmapSize (frame (ui (normalmapSizeChanged w))) =
      ((show_int a +++ " x ") +++ show_int b) +++ " px" /\
    (a = Zpos wd \/ a = Zpos wd - 1) /\
    (b = Zpos ht \/ b = Zpos ht - 1).
Proof.
  intros Hin Hw Hh Hsize.
  exists (calcPercentage (Zpos wd) 100), (calcPercentage (Zpos ht) 100).
  split.
  - unfold normalmapSizeChanged. cbv zeta. rewrite Hin, Hsize. reflexivity.
  - split; apply size_within_one_spec; lia.
Qed.

(** X14. calcSsao works from the stored normal map.  With an input loaded
    and a normal map stored, the ambient occlusion map depends on the
    stored normal map, the stored intensity map and the three SSAO widgets
    only: neither the input nor the widgets of the normal tab are read, and
    the normal map is not computed again.  After a change of the normal
    map parameters the ambient occlusion map is still that of the old
    normal map. *)
Theorem calcSsao_works_from_the_stored_normalmap w v :
  isNull (input w) = false -> isNull (input v) = false ->
  isNull (normalmap w) = false ->
  normalmap v = normalmap w ->
  normalmapRawIntensity v = normalmapRawIntensity w ->
  ssaoTab (ui v) = ssaoTab (ui w) ->
  exists w' v',
    calcSsao w = Returned tt w' /\ calcSsao v = Returned tt v' /\
    ssaomap v' = ssaomap w' /\
    normalmap w' = normalmap w /\ normalmap v' = normalmap v /\
    (specmap w', displacementmap w') = (specmap w, displacementmap w).
Proof.
  intros Hw Hv Hn Hnv Hrv Hsv.
  assert (isNull (normalmap v) = false) as Hn' by (rewrite Hnv; exact Hn).
  unfold calcSsao. rewrite Hw, Hv. unfold bind, when. rewrite Hn, Hn'.
  cbn [ret modify]. cbv zeta.
  eexists. eexists. split; [reflexivity|]. split; [reflexivity|].
  split.
  - change (calculateSsaomap (normalmap v)
              (QImage_scaled (normalmapRawIntensity v) (width (normalmap v))
                 (height (normalmap v)) IgnoreAspectRatio FastTransformation)
              (float_of_double (doubleSpinBox_ssao_size (ssaoTab (ui v))))
              (unsigned_of_int (spinBox_ssao_samples (ssaoTab (ui v))))
              (unsigned_of_int (spinBox_ssao_noiseTexSize (ssaoTab (ui v)))) =
            calculateSsaomap (normalmap w)
              (QImage_scaled (normalmapRawIntensity w) (width (normalmap w))
                 (height (normalmap w)) IgnoreAspectRatio FastTransformation)
              (float_of_double (doubleSpinBox_ssao_size (ssaoTab (ui w))))
              (unsigned_of_int (spinBox_ssao_samples (ssaoTab (ui w))))
              (unsigned_of_int (spinBox_ssao_noiseTexSize (ssaoTab (ui w))))).
    rewrite Hnv, Hrv, Hsv. reflexivity.
  - conj_split; reflexivity.
Qed.

(** X15. What computing and showing never touch.  None of the four map
    computations, their ...AndPreview slots, preview, displayChannelIntensity
    and autoUpdate throws, and whenever one of them returns it has written
    no file, opened no dialog, changed no parameter widget, neither the
    queue nor the stop flag, and left the input image, the export path and
    the path of the loaded image as they were. *)
Theorem computing_and_showing_keep_input_widgets_and_files depth tab :
  keeps false kept_by_preview calcNormal /\
  keeps false kept_by_preview calcSpec /\
  keeps false kept_by_preview calcDisplace /\
  keeps false kept_by_preview calcSsao /\
  keeps false kept_by_preview (calcNormalAndPreview depth) /\
  keeps false kept_by_preview (calcSpecAndPreview depth) /\
  keeps false kept_by_preview (calcDisplaceAndPreview depth) /\
  keeps false kept_by_preview (calcSsaoAndPreview depth) /\
  keeps false kept_by_preview (preview depth tab) /\
  keeps false kept_by_preview displayChannelIntensity /\
  keeps false kept_by_preview (autoUpdate depth).
Proof.
  conj_split.
  - apply calcNormal_kept.
  - apply calcSpec_kept.
  - apply calcDisplace_kept.
  - apply calcSsao_kept.
  - apply calcNormalAndPreview_kept.
  - apply calcSpecAndPreview_kept.
  - apply calcDisplaceAndPreview_kept.
  - apply calcSsaoAndPreview_kept.
  - apply preview_kept.
  - apply displayChannelIntensity_kept.
  - apply autoUpdate_kept.
Qed.

End CalcMore.

Lemma size_label_at_100_percent_witness :
  exists a b,
    label_normalmapSize
      (frame (ui (normalmapSizeChanged (set_input (Image 29 512 [7]) Sample.loaded)))) =
      ((show_int a +++ " x ") +++ show_int b) +++ " px" /\
    (a = 29 \/ a = 28) /\ (b = 512 \/ b = 511).
Proof.
  apply (size_label_at_100_percent (set_input (Image 29 512 [7]) Sample.loaded)
           29 512 [7]); vm_compute; try reflexivity; discriminate.
Defined.

Lemma calcSsao_works_from_the_stored_normalmap_witness :
  exists w' v',
    @calcSsao Sample.engine Sample.staleQueue = Returned tt w' /\
    @calcSsao Sample.engine
      (on_normalTab (set_checkBox_keepLargeDetail false) Sample.staleQueue)
      = Returned tt v' /\
    ssaomap v' = ssaomap w' /\
    normalmap w' = normalmap Sample.staleQueue /\
    normalmap v' =
      normalmap (on_normalTab (set_checkBox_keepLargeDetail false) Sample.staleQueue) /\
    (specmap w', displacementmap w') =
      (specmap Sample.staleQueue, displacementmap Sample.staleQueue).
Proof.
  apply (@calcSsao_works_from_the_stored_normalmap Sample.engine Sample.staleQueue
           (on_normalTab (set_checkBox_keepLargeDetail false) Sample.staleQueue));
    vm_compute; reflexivity.
Defined.

(** ** What a load shows *)

Section ViewMore.
Context {E : Engine}.

Lemma calcNormal_view : keeps false view_size calcNormal.
Proof. intros w. unfold calcNormal. destruct (isNull (input w)); reflexivity. Qed.

Lemma calcSpec_view : keeps false view_size calcSpec.
Proof. intros w. unfold calcSpec. destruct (isNull (input w)); reflexivity. Qed.

Lemma calcDisplace_view : keeps false view_size calcDisplace.
Proof.
  intros w. unfold calcDisplace. destruct (isNull (input w)); [reflexivity|].
  cbn. destruct (checkBox_displace_blur _); reflexivity.
Qed.

Lemma calcSsao_view : keeps false view_size calcSsao.
Proof.
  intros w. unfold calcSsao. destruct (isNull (input w)) eqn:Hin; [reflexivity|].
  pose proof (calcNormal_view w) as Hn.
  unfold bind, when. destruct (isNull (normalmap w)).
  - destruct (calcNormal w) as [[] w1| |]; try discriminate; try exact I.
    cbn in *. exact Hn.
  - reflexivity.
Qed.

Lemma elapsed_view : keeps false view_size elapsed.
Proof. intros w. unfold elapsed. destruct (timerReadings (world w)); reflexivity. Qed.

Lemma calcAndPreview_view status calc store mapType tab pv :
  keeps false view_size calc ->
  (forall t w, view_size (store t w) = view_size w) ->
  (forall t, keeps false view_size (pv t)) ->
  keeps false view_size (calcAndPreview status calc store mapType tab pv).
Proof.
  intros Hcalc Hstore Hpv. unfold calcAndPreview.
  apply keeps_bind; [apply keeps_modify; reflexivity|intros _].
  apply keeps_bind; [exact Hcalc|intros _].
  apply keeps_bind; [exact elapsed_view|intros t].
  apply keeps_bind; [apply keeps_modify; apply Hstore|intros _].
  apply keeps_bind; [apply keeps_modify|intros _].
  { intros w. unfold displayCalcTime. cbv zeta. destruct (dlt _ _); reflexivity. }
  apply keeps_bind; [apply keeps_modify; reflexivity|intros _].
  apply Hpv.
Qed.

Lemma preview_view depth : forall tab, keeps false view_size (preview depth tab).
Proof.
  induction depth as [|d IH]; intros tab; [apply keeps_tooDeep|].
  cbn [preview].
  apply keeps_bind; [apply keeps_modify; reflexivity|intros _].
  repeat match goal with
         | |- keeps _ _ (if ?b then _ else _) => destruct b
         end.
  - apply keeps_modify. keep_field.
  - apply keeps_bind; [|intros _; apply keeps_bind;
                         [apply keeps_modify; reflexivity
                         |intros _; apply keeps_modify; reflexivity]].
    apply (keeps_dep _ _ (fun v => when _ _)). intros v. apply keeps_when.
    apply calcAndPreview_view; [apply calcNormal_view|reflexivity|exact IH].
  - apply keeps_bind; [|intros _; apply keeps_modify; reflexivity].
    apply (keeps_dep _ _ (fun v => when _ _)). intros v. apply keeps_when.
    apply calcAndPreview_view; [apply calcSpec_view|reflexivity|exact IH].
  - apply keeps_bind; [|intros _; apply keeps_modify; reflexivity].
    apply (keeps_dep _ _ (fun v => when _ _)). intros v. apply keeps_when.
    apply calcAndPreview_view; [apply calcDisplace_view|reflexivity|exact IH].
  - apply keeps_bind; [|intros _; apply keeps_modify; reflexivity].
    apply (keeps_dep _ _ (fun v => when _ _)). intros v. apply keeps_when.
    apply calcAndPreview_view; [apply calcSsao_view|reflexivity|exact IH].
  - apply keeps_ret.
Qed.

Lemma calcNormalAndPreview_view depth :
  keeps false view_size (calcNormalAndPreview depth).
Proof.
  apply calcAndPreview_view; [apply calcNormal_view|reflexivity|apply preview_view].
Qed.

Lemma calcSpecAndPreview_view depth :
  keeps false view_size (calcSpecAndPreview depth).
Proof.
  apply calcAndPreview_view; [apply calcSpec_view|reflexivity|apply preview_view].
Qed.

Lemma calcDisplaceAndPreview_view depth :
  keeps false view_size (calcDisplaceAndPreview depth).
Proof.
  apply calcAndPreview_view; [apply calcDisplace_view|reflexivity|apply preview_view].
Qed.

Lemma calcSsaoAndPreview_view depth :
  keeps false view_size (calcSsaoAndPreview depth).
Proof.
  apply calcAndPreview_view; [apply calcSsao_view|reflexivity|apply preview_view].
Qed.

Lemma autoUpdate_view depth : keeps false view_size (autoUpdate depth).
Proof.
  intros w. unfold autoUpdate.
  destruct (_ || _); [reflexivity|].
  cbv zeta.
  destruct (_ =? 0); [reflexivity|].
  destruct (_ =? 1);
    [apply (keeps_when _ _ _ _ (calcNormalAndPreview_view depth) w)|].
  destruct (_ =? 2);
    [apply (keeps_when _ _ _ _ (calcSpecAndPreview_view depth) w)|].
  destruct (_ =? 3);
    [apply (keeps_when _ _ _ _ (calcDisplaceAndPreview_view depth) w)|].
  destruct (_ =? 4);
    [apply (keeps_when _ _ _ _ (calcSsaoAndPreview_view depth) w)|].
  reflexivity.
Qed.

Lemma setValue_view depth v :
  keeps false view_size (spinBox_largeDetailScale_setValue depth v).
Proof.
  intros w. unfold spinBox_largeDetailScale_setValue. cbv zeta.
  destruct (_ =? _); [reflexivity|].
  match goal with
  | |- match autoUpdate ?d ?x with _ => _ end => exact (autoUpdate_view d x)
  end.
Qed.

Lemma load_keepLargeDetail_view depth :
  keeps false view_size (load_keepLargeDetail depth).
Proof.
  intros w. unfold load_keepLargeDetail. cbv zeta.
  destruct (_ <? 300); [|destruct (_ >? 2300)];
    match goal with
    | |- match spinBox_largeDetailScale_setValue ?d ?v ?x with _ => _ end =>
        exact (setValue_view d v x)
    end.
Qed.

(** What preview(0) and the three stages of load_finish do to the view. *)
Lemma preview_input_view w :
  scene (graphicsView (ui (preview_input w))) =
    [if checkBox_displayChannelIntensity (frame (ui w)) && negb (isNull (input w))
     then channelIntensity w else input w] /\
  transform (graphicsView (ui (preview_input w))) = transform (graphicsView (ui w)) /\
  view_size (preview_input w) = view_size w /\
  input (preview_input w) = input w /\
  channelIntensity (preview_input w) = channelIntensity w.
Proof.
  unfold preview_input. cbv zeta.
  change (checkBox_displayChannelIntensity (frame (ui (scene_clear w))))
    with (checkBox_displayChannelIntensity (frame (ui w))).
  change (input (scene_clear w)) with (input w).
  change (channelIntensity (scene_clear w)) with (channelIntensity w).
  destruct (_ && _); conj_split; reflexivity.
Qed.

Lemma load_show_view w :
  isNull (input w) = false ->
  scene (graphicsView (ui (load_show w))) =
    [if checkBox_displayChannelIntensity (frame (ui w))
     then channelIntensity (load_show w) else input w] /\
  view_size (load_show w) = view_size w /\
  input (load_show w) = input w.
Proof.
  intros Hin. unfold load_show.
  destruct (checkBox_displayChannelIntensity (frame (ui w))) eqn:Hbox.
  - rewrite Hin.
    destruct (preview_input_view
                (set_channelIntensity (displayChannelIntensity_image w) w))
      as (Hs & _ & Hv & Hi & Hc).
    rewrite Hs, Hv, Hi, Hc.
    change (checkBox_displayChannelIntensity
              (frame (ui (set_channelIntensity (displayChannelIntensity_image w) w))))
      with (checkBox_displayChannelIntensity (frame (ui w))).
    change (input (set_channelIntensity (displayChannelIntensity_image w) w))
      with (input w).
    rewrite Hbox, Hin. conj_split; reflexivity.
  - destruct (preview_input_view w) as (Hs & _ & Hv & Hi & _).
    rewrite Hs, Hv, Hi, Hbox. conj_split; reflexivity.
Qed.

Lemma load_fit_view w :
  scene (graphicsView (ui (load_fit w))) = scene (graphicsView (ui w)) /\
  transform (graphicsView (ui (load_fit w))) =
    (if (width (input w) <? fst (view_size w)) || (height (input w) <? snd (view_size w))
     then Identity
     else FitKeepAspectRatio (width (input w)) (height (input w))) /\
  sceneRect (graphicsView (ui (load_fit w))) = (width (input w), height (input w)) /\
  input (load_fit w) = input w /\
  channelIntensity (load_fit w) = channelIntensity w.
Proof.
  unfold load_fit. cbv zeta.
  change (input (fitInView w)) with (input w).
  change (viewWidth (graphicsView (ui (fitInView w)))) with (fst (view_size w)).
  change (viewHeight (graphicsView (ui (fitInView w)))) with (snd (view_size w)).
  destruct (_ || _); conj_split; reflexivity.
Qed.

Lemma load_clear_view w :
  view_size (load_clear w) = view_size w /\
  input (load_clear w) = input w /\
  checkBox_displayChannelIntensity (frame (ui (load_clear w))) =
    checkBox_displayChannelIntensity (frame (ui w)).
Proof. conj_split; reflexivity. Qed.

Lemma load_enable_view url w :
  view_size (load_enable url (load_decode url w)) = view_size w.
Proof.
  unfold load_enable, load_decode. cbv zeta.
  destruct (QUrl.isEmpty _); reflexivity.
Qed.

(** X16. What a successful load shows.  The scene holds one pixmap: the
    input image, or its channel image when the channel box is checked.
    The scene rectangle is the size of the input.  The view is fitted to
    the image only when the image is at least as wide and as high as the
    preview widget; an image that is smaller on one side alone is shown
    unscaled, whatever its other side is. *)
Theorem load_shows_the_input depth url w w' :
  load depth url w = Returned true w' ->
  scene (graphicsView (ui w')) =
    [if checkBox_displayChannelIntensity (frame (ui w))
     then channelIntensity w' else input w'] /\
  sceneRect (graphicsView (ui w')) = (width (input w'), height (input w')) /\
  transform (graphicsView (ui w')) =
    (if (width (input w') <? viewWidth (graphicsView (ui w)))
        || (height (input w') <? viewHeight (graphicsView (ui w)))
     then Identity
     else FitKeepAspectRatio (width (input w')) (height (input w'))).
Proof.
  intros Hr.
  destruct (load_Returned_true depth url w w' Hr) as (Hv & Hn & Hin & _).
  cbv zeta in Hn, Hin.
  rewrite (load_decodable _ _ _ Hv Hn) in Hr.
  apply bind_Returned in Hr. destruct Hr as ([] & w1 & Hk & Hf).
  rewrite load_finish_eq in Hf. injection Hf as <-.
  pose proof (keeps_Returned false view_size _ _ _ _
                (load_keepLargeDetail_view depth) Hk) as Hview1.
  rewrite load_enable_view in Hview1.
  destruct (load_keepLargeDetail_Returned depth _ w1 Hk) as (_ & Hin1 & Hbox1 & _).
  destruct (load_enable_facts url w) as (Hin0 & _ & _ & _ & Hbox0).
  cbv zeta in Hin0, Hbox0. rewrite Hin0 in Hin1. rewrite Hbox0 in Hbox1.
  destruct (load_clear_view w1) as (Cv & Ci & Cb).
  assert (isNull (input (load_clear w1)) = false) as Hnull
    by (rewrite Ci, Hin1; exact Hn).
  destruct (load_show_view (load_clear w1) Hnull) as (Ss & Sv & Si).
  set (w2 := load_show (load_clear w1)) in *.
  destruct (load_fit_view w2) as (Fs & Ft & Fr & Fi & Fc).
  assert (input (load_fit w2) = input w1) as Hi by (rewrite Fi, Si, Ci; reflexivity).
  rewrite Hi, Fs, Fr, Ft, Fc, Ss, Si, Ci, Sv, Cv, Cb, Hbox1, Hview1.
  conj_split; reflexivity.
Qed.

End ViewMore.

Lemma load_shows_the_input_witness :
  scene (graphicsView (ui Sample.loaded)) = [input Sample.loaded] /\
  sceneRect (graphicsView (ui Sample.loaded)) = (512, 512) /\
  transform (graphicsView (ui Sample.loaded)) = Identity.
Proof.
  assert (@load Sample.engine 1 Sample.brick Sample.window0 = Returned true Sample.loaded)
    as Hr by (vm_compute; reflexivity).
  destruct (@load_shows_the_input Sample.engine 1 Sample.brick Sample.window0
              Sample.loaded Hr) as (Hs & Hrect & Ht).
  split; [exact Hs|]. split; [exact Hrect|]. exact Ht.
Defined.

(** ** Which of several dropped files is shown *)

Section DroppedMore.
Context {E : Engine}.

Lemma loadMultipleDropped_loop_after_first depth urls :
  forall contained w r w',
    loadMultipleDropped_loop depth urls contained true w = Returned r w' ->
    input w' = input w.
Proof.
  induction urls as [|url rest IH]; intros contained w r w' Hr;
    cbn [loadMultipleDropped_loop negb] in Hr.
  - injection Hr as _ <-. reflexivity.
  - destruct (suffix_accepted url).
    + apply bind_Returned in Hr. destruct Hr as ([] & w1 & Hadd & Hr).
      injection Hadd as <-.
      apply bind_Returned in Hr. destruct Hr as ([] & w2 & Hret & Hr).
      injection Hret as <-.
      apply IH in Hr. exact Hr.
    + apply IH in Hr. exact Hr.
Qed.

Lemma load_Returned_input depth url w ok w' :
  load depth url w = Returned ok w' ->
  input w' = QImage_fromFile (disk (world w)) (QUrl.toLocalFile url).
Proof.
  intros Hr. destruct ok.
  - destruct (load_Returned_true depth url w w' Hr) as (_ & _ & Hin & _). exact Hin.
  - destruct (load_Returned_false depth url w w' Hr) as (_ & _ & ->).
    unfold load_report, load_decode. cbv zeta. destruct (_ =? _)%string; reflexivity.
Qed.

Lemma loadMultipleDropped_loop_first depth urls :
  forall contained w r w',
    loadMultipleDropped_loop depth urls contained false w = Returned r w' ->
    input w' =
      match filter suffix_accepted urls with
      | [] => input w
      | url :: _ => QImage_fromFile (disk (world w)) (QUrl.toLocalFile url)
      end.
Proof.
  induction urls as [|url rest IH]; intros contained w r w' Hr;
    cbn [loadMultipleDropped_loop negb filter] in Hr |- *.
  - injection Hr as _ <-. reflexivity.
  - destruct (suffix_accepted url).
    + apply bind_Returned in Hr. destruct Hr as ([] & w1 & Hadd & Hr).
      injection Hadd as <-.
      apply bind_Returned in Hr. destruct Hr as ([] & w2 & Hload & Hr).
      apply bind_Returned in Hload. destruct Hload as (ok & w3 & Hload & Hret).
      injection Hret as <-.
      apply loadMultipleDropped_loop_after_first in Hr. rewrite Hr.
      exact (load_Returned_input _ _ _ _ _ Hload).
    + apply IH in Hr. exact Hr.
Qed.

(** X17. Of several dropped files the first one that passes the test of
    line 94 is the one that is decoded into the input image, whether or
    not it can be decoded; the others are queued and not opened, and when
    no file passes the test the input stays as it was. *)
Theorem dropped_files_show_the_first_accepted depth urls w w' :
  loadMultipleDropped depth urls w = Returned tt w' ->
  input w' =
    match filter suffix_accepted urls with
    | [] => input w
    | url :: _ => QImage_fromFile (disk (world w)) (QUrl.toLocalFile url)
    end.
Proof.
  unfold loadMultipleDropped. intros Hr.
  apply bind_Returned in Hr. destruct Hr as (contained & w1 & Hloop & Hnote).
  apply loadMultipleDropped_loop_first in Hloop. rewrite <- Hloop.
  destruct contained; cbn [when] in Hnote; injection Hnote as <-; reflexivity.
Qed.

End DroppedMore.

Lemma dropped_files_show_the_first_accepted_witness :
  input Sample.afterTwoDropped = Image 300 200 [8] /\
  map text (queue_of Sample.afterTwoDropped) = ["pebble.png"; "brick.png"].
Proof.
  assert (@loadMultipleDropped Sample.engine 1 [Sample.pebble; Sample.brick] Sample.window0
          = Returned tt Sample.afterTwoDropped) as Hr by (vm_compute; reflexivity).
  split; [|vm_compute; reflexivity].
  rewrite (@dropped_files_show_the_first_accepted Sample.engine 1
             [Sample.pebble; Sample.brick] Sample.window0 Sample.afterTwoDropped Hr).
  vm_compute. reflexivity.
Defined.
